(** * mport: the command-line front end and its listing helper

    A shallow embedding of the control flow of [mport/mport.c] (the
    install resolver [install], the bulk remover [deleteAll], the batch
    loops of [main]) and of [libexec/mport.list/mport.list.c] (the update
    listing of [main]), followed by the properties of that control flow.

    libmport itself (the package database, the index, the version
    comparator) and the C library are collaborators of these two
    programs: they appear as the operations of the class [Libmport]. *)

From Stdlib Require Import ZArith List String Ascii Bool Arith Lia.
Import ListNotations.

Local Open Scope string_scope.
Local Open Scope list_scope.
Local Open Scope Z_scope.

(** ** Data of mport.h that the two programs touch

    A [char *] field may be NULL: it is an [option string].  The name of
    an installed package and the pkgname of an index entry are the keys
    under which the database and the index hold them; they are strings. *)

Record mportPackageMeta := mkMeta {
  name       : string;
  version    : option string;
  os_release : option string;
  origin     : option string;
  comment    : option string;
  locked     : Z;
  automatic  : Z
}.

Record mportIndexEntry := mkEntry {
  pkgname    : string;
  ie_version : option string;
  ie_comment : option string
}.

(** A NULL-terminated vector behind a pointer that may itself be NULL. *)
Definition vec (A : Type) := option (list A).

(** ** What the process does to the outside

    [stdin] is the operator's input as [scanf("%d")] sees it: a sequence
    of whitespace separated words.  An empty sequence is end of file.
    [TokOther w] is the word [w], character by character.  [TokInt v] is
    a word that the conversion takes as a whole, with [v] the value of
    [choice] behind the conversion; [integer_word] below relates the
    two. *)

Inductive token :=
| TokInt (v : Z)
| TokOther (w : string).

(** *** The conversion [%d] on a word

    The conversion takes an optional sign and the decimal digits behind
    it, as far as they go, and leaves the rest of the word unread.  A
    word that begins with neither is left as it is.  Of a sign without
    a digit behind it, the sign is taken (ISO C, 7.21.6.2: the input
    item is the longest prefix of a matching sequence); no property
    below depends on that case. *)

Definition is_digit (c : ascii) : bool :=
  (48 <=? nat_of_ascii c)%nat && (nat_of_ascii c <=? 57)%nat.

Definition is_sign (c : ascii) : bool :=
  Ascii.eqb c "-"%char || Ascii.eqb c "+"%char.

Definition digit (c : ascii) : Z := Z.of_nat (nat_of_ascii c) - 48.

Fixpoint scan_digits (w : string) (acc : Z) : Z * string :=
  match w with
  | String c w' =>
      if is_digit c then scan_digits w' (10 * acc + digit c) else (acc, w)
  | EmptyString => (acc, w)
  end.

Inductive conversion :=
| Converted (v : Z) (unread : string)
| Mismatch (unread : string).

Definition scan_d (w : string) : conversion :=
  match w with
  | EmptyString => Mismatch EmptyString
  | String c w' =>
      if is_digit c then
        let (n, r) := scan_digits w 0 in Converted n r
      else if is_sign c then
        match w' with
        | String d _ =>
            if is_digit d then
              let (n, r) := scan_digits w' 0 in
              Converted (if Ascii.eqb c "-"%char then - n else n) r
            else Mismatch w'
        | EmptyString => Mismatch EmptyString
        end
      else Mismatch w
  end.

(** [choice] is an [int].  The C libraries this program is built with
    convert with [strtol] (glibc) or [strtoimax] (FreeBSD), which cut the
    number to the range of 64 bits, and store the result in the [int],
    which keeps its low 32 bits. *)
Definition LONG_MAX : Z := 2 ^ 63 - 1.
Definition LONG_MIN : Z := - 2 ^ 63.

Definition stored (v : Z) : Z :=
  (Z.max LONG_MIN (Z.min LONG_MAX v) + 2 ^ 31) mod 2 ^ 32 - 2 ^ 31.

(** What is left of a word goes back in front of the input. *)
Definition unread_word (w : string) (rest : list token) : list token :=
  match w with
  | EmptyString => rest
  | _ => TokOther w :: rest
  end.

Inductive event :=
| OutMultipleFound
| OutCandidate (item : Z) (pkg : string) (ver : option string)
| ErrSelectEntry (upto : Z)
| ErrNotInIndex (packageName : string)
| ErrLookup (packageName : string) (code : Z)
| ErrIndexLoad
| ErrDeleting (pkg : string)
| ErrNoPackages
| ErrUsage
| Warn
| OutSummary (deleted errors total : Z)
| OutNoLongerAvailable (pkg : string) (ver : option string)
| OutOutdated (pkg : string) (ver : option string)
              (os : option (option string)) (index_ver : option string)
| CallVersionCmp (a b : option string).

Inductive halt :=
| Exited (code : Z)     (* exit(), errx() *)
| NullDeref             (* a NULL pointer is dereferenced *)
| OutOfBounds           (* a vector is read behind its last slot *)
| Looping               (* the fuel of a loop of the model ran out *)
| NotModelled.          (* a command outside this development *)

Section Process.
Context {World : Type}.

Record state := mkState {
  world : World;
  stdin : list token;
  trace : list event
}.

Inductive outcome (A : Type) :=
| Ret (a : A) (s : state)
| Halt (h : halt) (s : state).
Arguments Ret {A} a s.
Arguments Halt {A} h s.

Definition M (A : Type) := state -> outcome A.

Definition ret {A} (a : A) : M A := fun s => Ret a s.

Definition bind {A B} (m : M A) (k : A -> M B) : M B :=
  fun s => match m s with
           | Ret a s' => k a s'
           | Halt h s' => Halt h s'
           end.

Definition stop {A} (h : halt) : M A := fun s => Halt h s.

Definition emit (e : event) : M unit :=
  fun s => Ret tt (mkState (world s) (stdin s) (trace s ++ [e])).

(** A call into the collaborator that may change its state. *)
Definition call {A} (f : World -> A * World) : M A :=
  fun s => let (a, w) := f (world s) in
           Ret a (mkState w (stdin s) (trace s)).

(** A query of the collaborator. *)
Definition ask {A} (f : World -> A) : M A :=
  fun s => Ret (f (world s)) s.

(** Dereferencing a pointer. *)
Definition deref {A} (p : option A) : M A :=
  match p with
  | Some a => ret a
  | None => stop NullDeref
  end.

(** [scanf("%d", &choice)]: the return value and the value of
    [choice] after the call, [var] being its value before.  At end of
    file the result is EOF; without a conversion it is 0 and [choice]
    keeps its value. *)
Definition EOF : Z := -1.

Definition scanf_d (var : Z) : M (Z * Z) :=
  fun s => match stdin s with
           | [] => Ret (EOF, var) s
           | TokInt v :: rest =>
               Ret (1, v) (mkState (world s) rest (trace s))
           | TokOther w :: rest =>
               match scan_d w with
               | Converted v w' =>
                   Ret (1, stored v)
                       (mkState (world s) (unread_word w' rest) (trace s))
               | Mismatch w' =>
                   Ret (0, var)
                       (mkState (world s) (unread_word w' rest) (trace s))
               end
           end.
End Process.

Arguments state : clear implicits.
Arguments outcome : clear implicits.
Arguments M : clear implicits.
Arguments Ret {World A} a s.
Arguments Halt {World A} h s.

Declare Scope proc_scope.
Delimit Scope proc_scope with proc.
Notation "x <- m ;; k" := (bind m (fun x => k))
  (at level 61, m at next level, right associativity) : proc_scope.
Notation "' pat <- m ;; k" := (bind m (fun x => match x with pat => k end))
  (at level 61, pat pattern, m at next level, right associativity) : proc_scope.
Notation "m ;; k" := (bind m (fun _ => k))
  (at level 61, right associativity) : proc_scope.
Local Open Scope proc_scope.

(** ** libmport and libc, as the two programs call them

    Every operation takes the collaborator's state; those that change it
    give the new state back.  An out-parameter comes back beside the
    result code. *)

Class Libmport (World : Type) := {
  MPORT_OK        : Z;
  MPORT_ERR_FATAL : Z;
  MPORT_ERR_WARN  : Z;
  mport_err_code  : World -> Z;
  mport_get_osrelease : World -> option string;
  mport_version_cmp : option string -> option string -> Z;
  mport_index_load : World -> Z * World;
  mport_index_lookup_pkgname :
    World -> string -> Z * vec mportIndexEntry;
  mport_install_depends :
    World -> string -> option string -> Z * World;
  mport_update : World -> string -> Z * World;
  mport_pkgmeta_list : World -> Z * vec mportPackageMeta;
  mport_pkgmeta_get_updepends :
    World -> mportPackageMeta -> Z * vec mportPackageMeta;
  system : World -> string -> Z * World
}.

Definition EXIT_FAILURE : Z := 1.

(** [Exited code] says that [exit] was called with [code].  What the
    parent gets as the exit status of the process is [code & 0377]. *)
Definition exit_status (code : Z) : Z := code mod 256.
Definition MPORT_TOOLS_PATH : string := "/usr/libexec/".

(** A message on stderr followed by [exit(code)], as [errx] does. *)
Definition errx {World A} (code : Z) (e : event) : M World A :=
  emit e ;; stop (Exited code).

(** ** mport/mport.c

    [mport_install_depends] is always called with MPORT_EXPLICIT; the
    releases of vectors and of the instance are left out, and so is the
    out-of-memory branch of [delete]. *)

Module Mport.
Section Code.
Context {World : Type} {lib : Libmport World}.

(** [usage()] prints the synopsis and exits. *)
Definition usage {A} : M World A := errx EXIT_FAILURE ErrUsage.

Definition loadIndex : M World unit :=
  result <- call mport_index_load ;;
  if result =? MPORT_ERR_WARN then emit Warn
  else if negb (result =? MPORT_OK) then errx 4 ErrIndexLoad
  else ret tt.

Definition lookupIndex (packageName : string)
  : M World (vec mportIndexEntry) :=
  '(r, indexEntries) <-
     ask (fun w => mport_index_lookup_pkgname w packageName) ;;
  if negb (r =? MPORT_OK) then
    code <- ask mport_err_code ;;
    errx code (ErrLookup packageName code)
  else ret indexEntries.

(** The scan of [install] for the last '-': the loop examines the
    characters at [i - 1], [i - 2], ..., [0] and stops at the first
    '-'; [loc] stays -1 when there is none. *)
Fixpoint last_dash (packageName : string) (i : nat) : Z :=
  match i with
  | O => -1
  | S j =>
      match String.get j packageName with
      | Some "-"%char => Z.of_nat j
      | _ => last_dash packageName j
      end
  end.

(** The listing loop of [install]: one line for each entry, numbered
    from [item]; the result is [item] after the loop. *)
Fixpoint list_entries (i2 : list mportIndexEntry) (item : Z) : M World Z :=
  match i2 with
  | [] => ret item
  | e :: rest =>
      emit (OutCandidate item (pkgname e) (ie_version e)) ;;
      list_entries rest (item + 1)
  end.

(** The prompt loop of [install]. *)
Fixpoint read_choice (fuel : nat) (item choice : Z) : M World Z :=
  match fuel with
  | O => stop Looping
  | S fuel' =>
      '(r, choice) <- scanf_d choice ;;
      if (r <? 1) || (choice >? item) || (choice <? 0) then
        emit (ErrSelectEntry (item - 1)) ;; read_choice fuel' item choice
      else ret choice
  end.

(** [install], lines 607-609: the comparison of the version [v] of the
    specifier with [( *indexEntry)->version], and the exit when they
    differ.  [strcmp] reads its second argument. *)
Definition check_version (packageName v : string)
    (indexEntry : vec mportIndexEntry) : M World unit :=
  entries <- deref indexEntry ;;
  first <- deref (hd_error entries) ;;
  ver <- deref (ie_version first) ;;
  if negb (String.eqb v ver) then errx 4 (ErrNotInIndex packageName)
  else ret tt.

(** [install], lines 615-616: the test that something was found. *)
Definition check_found (packageName : string)
    (indexEntry : vec mportIndexEntry) : M World (list mportIndexEntry) :=
  match indexEntry with
  | None | Some [] => errx 4 (ErrNotInIndex packageName)
  | Some entries => ret entries
  end.

(** [install], lines 592-616: the lookup of the specifier, the
    fallback on the last '-', and the test that something was found.
    The result is the vector [indexEntry] points to, which has a first
    entry. *)
Definition resolve (packageName : string)
  : M World (list mportIndexEntry) :=
  indexEntry <- lookupIndex packageName ;;
  entries <- deref indexEntry ;;
  indexEntry <-
    match entries with
    | [] =>
        let len := String.length packageName in
        let loc := last_dash packageName len in
        if loc >? 0 then
          let d := substring 0 (Z.to_nat loc) packageName in
          let v := substring (Z.to_nat loc + 1)
                             (len - (Z.to_nat loc + 1)) packageName in
          indexEntry <- lookupIndex d ;;
          check_version packageName v indexEntry ;;
          ret indexEntry
        else ret indexEntry
    | _ :: _ => ret indexEntry
    end ;;
  check_found packageName indexEntry.

(** [install], lines 618-643: the choice among several entries and the
    installation.  A vector pointer that has been advanced is the rest
    of the list; what it points at is the head of that rest, NULL at
    the terminator.  The loop of lines 631-636 advances [indexEntry]
    [choice] times.  [choice] is not initialised; the loop looks at it
    only behind a conversion that stored it, so the value it starts
    with, 0 here, does not matter. *)
Definition select (fuel : nat) (indexEntry : list mportIndexEntry)
  : M World Z :=
  indexEntry <-
    match nth_error indexEntry 1 with
    | Some _ =>
        emit OutMultipleFound ;;
        item <- list_entries indexEntry 0 ;;
        choice <- read_choice fuel item 0 ;;
        ret (skipn (Z.to_nat choice) indexEntry)
    | None => ret indexEntry
    end ;;
  e <- deref (hd_error indexEntry) ;;
  call (fun w => mport_install_depends w (pkgname e) (ie_version e)).

Definition install (fuel : nat) (packageName : string) : M World Z :=
  indexEntry <- resolve packageName ;;
  select fuel indexEntry.

(** [delete]: the command line handed to [system]. *)
Definition delete (packageName : string) : M World Z :=
  let buf := (MPORT_TOOLS_PATH ++ "mport.delete" ++ " " ++ "-n" ++ " "
             ++ packageName)%string in
  call (fun w => system w buf).

(** The body of the inner loop of [deleteAll] for one package.  The
    counters [total], [errors] and [skip] are ints that count packages;
    they are integers here. *)
Definition examine (p : mportPackageMeta) (total errors skip : Z)
  : M World (Z * Z * Z) :=
  '(r, depends) <- ask (fun w => mport_pkgmeta_get_updepends w p) ;;
  if r =? MPORT_OK then
    match depends with
    | None =>
        rc <- delete (name p) ;;
        errors <- (if negb (rc =? 0)
                   then emit (ErrDeleting (name p)) ;; ret (errors + 1)
                   else ret errors) ;;
        ret (total + 1, errors, skip)
    | Some _ => ret (total, errors, skip + 1)
    end
  else ret (total, errors, skip).

(** The inner loop of [deleteAll]: one pass over the snapshot. *)
Fixpoint pass (packs : list mportPackageMeta) (total errors skip : Z)
  : M World (Z * Z * Z) :=
  match packs with
  | [] => ret (total, errors, skip)
  | p :: rest =>
      '(total, errors, skip) <- examine p total errors skip ;;
      pass rest total errors skip
  end.

(** The outer loop of [deleteAll]; [fuel] bounds the number of passes. *)
Fixpoint deleteAll_loop (fuel : nat) (packs : vec mportPackageMeta)
    (total errors : Z) : M World Z :=
  match fuel with
  | O => stop Looping
  | S fuel' =>
      snapshot <- deref packs ;;
      '(total, errors, skip) <- pass snapshot total errors 0 ;;
      if skip =? 0 then
        emit (OutSummary (total - errors) errors total) ;;
        ret 0
      else
        '(r, packs) <- ask mport_pkgmeta_list ;;
        if negb (r =? MPORT_OK) then emit Warn ;; ret 1
        else deleteAll_loop fuel' packs total errors
  end.

Definition deleteAll (fuel : nat) : M World Z :=
  '(r, packs) <- ask mport_pkgmeta_list ;;
  if negb (r =? MPORT_OK) then emit Warn ;; ret 1
  else match packs with
       | None => emit ErrNoPackages ;; ret 1
       | Some _ => deleteAll_loop fuel packs 0 0
       end.

(** The loop of [main] over [argv[1 .. argc - 1]] that the install,
    delete and update commands share. *)
Fixpoint batch (op : string -> M World Z) (args : list string)
    (resultCode : Z) : M World Z :=
  match args with
  | [] => ret resultCode
  | a :: rest =>
      tempResultCode <- op a ;;
      batch op rest (if negb (tempResultCode =? 0)
                     then tempResultCode else resultCode)
  end.

(** [main] from [char *cmd = argv[0]] on, [argv] being what the option
    parsing left.  The commands of this development are install,
    delete, update and deleteall. *)
Definition main (fuel : nat) (argv : list string) : M World unit :=
  let resultCode := MPORT_ERR_FATAL in
  cmd <- deref (hd_error argv) ;;
  let args := tl argv in
  resultCode <-
    (if cmd =? "install" then
       match args with
       | [] => usage
       | _ => loadIndex ;; batch (install fuel) args resultCode
       end
     else if cmd =? "delete" then
       match args with
       | [] => usage
       | _ => batch delete args resultCode
       end
     else if cmd =? "update" then
       match args with
       | [] => usage
       | _ =>
           loadIndex ;;
           batch (fun a => call (fun w => mport_update w a)) args resultCode
       end
     else if cmd =? "deleteall" then deleteAll fuel
     else stop NotModelled)%string ;;
  stop (Exited resultCode).
End Code.
End Mport.

(** ** libexec/mport.list/mport.list.c *)

Module MportList.
Section Code.
Context {World : Type} {lib : Libmport World}.

(** The flags that the option loop of [main] sets. *)
Record flags := mkFlags {
  f_quiet   : bool;
  f_verbose : bool;
  f_origin  : bool;
  f_update  : bool;
  f_locks   : bool;
  f_prime   : bool
}.

(** A call of the comparator, noted in the trace with its arguments. *)
Definition version_cmp (a b : option string) : M World Z :=
  emit (CallVersionCmp a b) ;; ret (mport_version_cmp a b).

(** The condition of the [if] at lines 143-144, evaluated left to
    right with the short cuts of [&&] and [||]. *)
Definition outdated (p : mportPackageMeta) (e : mportIndexEntry)
    (os_release' : option string) : M World bool :=
  newer <-
    match ie_version e with
    | Some _ =>
        r <- version_cmp (version p) (ie_version e) ;; ret (r <? 0)
    | None => ret false
    end ;;
  if newer then ret true
  else match version p with
       | Some _ =>
           r <- version_cmp (os_release p) os_release' ;; ret (r <? 0)
       | None => ret false
       end.

(** The loop over the index entries of one installed package. *)
Fixpoint compare_entries (verbose : bool) (p : mportPackageMeta)
    (indexEntries : list mportIndexEntry) (os_release' : option string)
  : M World unit :=
  match indexEntries with
  | [] => ret tt
  | e :: rest =>
      flag <- outdated p e os_release' ;;
      (if flag then
         emit (OutOutdated (name p) (version p)
                 (if verbose then Some (os_release p) else None)
                 (ie_version e))
       else ret tt) ;;
      compare_entries verbose p rest os_release'
  end.

(** The loop over the installed packages.  Only the branch of the
    update listing is part of this development. *)
Fixpoint each_package (f : flags) (packs : list mportPackageMeta)
    (os_release' : option string) : M World unit :=
  match packs with
  | [] => ret tt
  | p :: rest =>
      (if f_update f then
         '(r, indexEntries) <-
            ask (fun w => mport_index_lookup_pkgname w (name p)) ;;
         if negb (r =? MPORT_OK) then
           code <- ask mport_err_code ;;
           errx code (ErrLookup (name p) code)
         else
           match indexEntries with
           | None | Some [] =>
               emit (OutNoLongerAvailable (name p) (version p))
           | Some entries =>
               compare_entries (f_verbose f) p entries os_release'
           end
       else stop NotModelled) ;;
      each_package f rest os_release'
  end.

(** [main] after the option loop. *)
Definition main (f : flags) : M World Z :=
  os_release' <- ask mport_get_osrelease ;;
  (if f_update f then
     r <- call mport_index_load ;;
     if negb (r =? MPORT_OK) then errx 8 Warn else ret tt
   else ret tt) ;;
  '(r, packs) <- ask mport_pkgmeta_list ;;
  if negb (r =? MPORT_OK) then errx EXIT_FAILURE Warn
  else match packs with
       | None =>
           (if negb (f_quiet f) then emit Warn else ret tt) ;;
           stop (Exited 3)
       | Some packs =>
           each_package f packs os_release' ;;
           ret 0
       end.
End Code.
End MportList.

(** ** A package store

    The programs above run against any [Libmport].  The properties of the
    bulk remover speak of installed sets and their dependency relation,
    and the examples need an index; this is the store they are read in. *)

Module Store.

(** Modelled from the spec: the installed-package metadata of the
    package store together with its dependency edges; [depends] holds
    the names of the packages this one requires. *)
Record installed := mkInstalled {
  meta    : mportPackageMeta;
  depends : list string
}.

(** Modelled from the spec: the package store, that is the installed
    packages in the order in which the store lists them, the index of
    available packages, and the OS release of the running system. *)
Record store := mkStore {
  packages  : list installed;
  index     : list mportIndexEntry;
  osrelease : option string
}.

Definition pname (q : installed) : string := name (meta q).

(** [q] requires the package called [n]. *)
Definition requires (q : installed) (n : string) : bool :=
  existsb (String.eqb n) (depends q).

(** The installed packages that require [n]: its dependents. *)
Definition dependents (pk : list installed) (n : string) : list installed :=
  filter (fun q => requires q n) pk.

Definition remove (pk : list installed) (n : string) : list installed :=
  filter (fun q => negb (String.eqb (pname q) n)) pk.

(** Modelled from the spec: listInstalled(), the snapshot of the
    currently installed packages; the vector is NULL when nothing is
    installed, which is what [deleteAll] and mport.list test for. *)
Definition pkgmeta_list (w : store) : Z * vec mportPackageMeta :=
  (0, match packages w with
      | [] => None
      | pk => Some (map meta pk)
      end).

(** Modelled from the spec: getUpDependencies(pkg) against the live
    state, NONE when there is none.  By the contract of the bulk
    remover and its scenarios these are the installed packages that
    still depend on [pkg]. *)
Definition pkgmeta_get_updepends (w : store) (p : mportPackageMeta)
  : Z * vec mportPackageMeta :=
  (0, match dependents (packages w) (name p) with
      | [] => None
      | ds => Some (map meta ds)
      end).

(** Modelled from the spec: deletePackage(name) removes one installed
    package and may fail; the check of the lock flag before the delete
    is the store's.  A failure leaves the store as it was. *)
Definition delete_package (w : store) (n : string) : Z * store :=
  match find (fun q => String.eqb (pname q) n) (packages w) with
  | None => (256, w)
  | Some q =>
      if negb (locked (meta q) =? 0) then (256, w)
      else (0, mkStore (remove (packages w) n) (index w) (osrelease w))
  end.

Fixpoint strip_prefix (pre s : string) : option string :=
  match pre, s with
  | EmptyString, _ => Some s
  | String a pre', String b s' =>
      if Ascii.eqb a b then strip_prefix pre' s' else None
  | String _ _, EmptyString => None
  end.

(** Modelled from the spec: the external deletion command, run through
    [system]: the command line of [delete] reaches deletePackage, any
    other command is not found. *)
Definition run_system (w : store) (cmd : string) : Z * store :=
  match strip_prefix "/usr/libexec/mport.delete -n " cmd with
  | Some n => delete_package w n
  | None => (127 * 256, w)
  end.

(** Modelled from the spec: lookupIndexByName(name), zero or more
    remote candidates in index order. *)
Definition index_lookup_pkgname (w : store) (n : string)
  : Z * vec mportIndexEntry :=
  (0, Some (filter (fun e => String.eqb (pkgname e) n) (index w))).

(** Modelled from the spec: installExplicit(pkgname, version) installs
    the package as explicitly requested (automatic = 0) and gives the
    result code. *)
Definition install_depends (w : store) (n : string) (v : option string)
  : Z * store :=
  (0, mkStore
        (packages w ++
         [mkInstalled (mkMeta n v (osrelease w) None None 0 0) []])
        (index w) (osrelease w)).

(** Modelled from the spec: compareVersions(a, b), a total order on
    version-like strings answering less, equal or greater; here the
    order of the dictionary.  The spec gives no answer for a missing
    argument; this comparator answers "equal". *)
Definition version_cmp (a b : option string) : Z :=
  match a, b with
  | Some x, Some y =>
      match String.compare x y with
      | Lt => -1
      | Eq => 0
      | Gt => 1
      end
  | _, _ => 0
  end.

(** The store as a [Libmport].  The result codes of mport.h are 0 for
    MPORT_OK and, here, 1 and 2 for the two error codes; loading the
    index and updating one package do nothing to this store. *)
#[export] Instance store_lib : Libmport store := {|
  MPORT_OK := 0;
  MPORT_ERR_FATAL := 1;
  MPORT_ERR_WARN := 2;
  mport_err_code := fun _ => 1;
  mport_get_osrelease := osrelease;
  mport_version_cmp := version_cmp;
  mport_index_load := fun w => (0, w);
  mport_index_lookup_pkgname := index_lookup_pkgname;
  mport_install_depends := install_depends;
  mport_update := fun w _ => (0, w);
  mport_pkgmeta_list := pkgmeta_list;
  mport_pkgmeta_get_updepends := pkgmeta_get_updepends;
  system := run_system
|}.



(** The dependency relation of [pk] contains a cycle: there are installed
    packages [cyc], at least one, each of which is required by one of
    them.  (Along "is required by" such a set runs into a cycle, and the
    packages on a cycle form such a set.) *)
Definition cyclic (cyc pk : list installed) : Prop :=
  cyc <> []
  /\ incl cyc pk
  /\ forall p, In p cyc -> exists q, In q cyc /\ requires q (pname p) = true.

(** The store of [s] replaced by [pk]. *)
Definition with_packages (s : state store) (pk : list installed)
  : state store :=
  mkState (mkStore pk (index (world s)) (osrelease (world s)))
          (stdin s) (trace s).

(** The process at its start, on a system of release 3.1. *)
Definition start (pk : list installed) (idx : list mportIndexEntry)
    (input : list token) : state store :=
  mkState (mkStore pk idx (Some "3.1")) input [].
End Store.

(** ** Sample data: packages, index entries and stores *)

Module Sample.
Import Store.

Definition entry (n v : string) : mportIndexEntry :=
  mkEntry n (Some v) None.

(** An installed package of version 1.0 built for release 3.1. *)
Definition package (n : string) (lock : Z) (requires : list string)
  : installed :=
  mkInstalled (mkMeta n (Some "1.0") (Some "3.1") None None lock 0) requires.

(** What the store holds after the explicit install of [n] at
    version [v]. *)
Definition explicit (n v : string) : installed :=
  mkInstalled (mkMeta n (Some v) (Some "3.1") None None 0 0) [].

Definition foo_1_2 := entry "foo" "1.2".
Definition foo_1_3 := entry "foo" "1.3".
Definition foo_1_4 := entry "foo" "1.4".

(** B requires A. *)
Definition A := package "A" 0 [].
Definition B := package "B" 0 ["A"].

(** A and B require each other. *)
Definition A' := package "A" 0 ["B"].
Definition B' := package "B" 0 ["A"].

(** A package that is locked. *)
Definition L := package "L" 1 [].

(** A locked package A, which B requires. *)
Definition AL := package "A" 1 [].

(** Packages with a missing version and a missing os_release. *)
Definition no_version : installed :=
  mkInstalled (mkMeta "foo" None (Some "3.1") None None 0 0) [].
Definition no_os_release : installed :=
  mkInstalled (mkMeta "foo" (Some "1.3") None None None 0 0) [].

(** A package built for the older release 3.0. *)
Definition old_build : installed :=
  mkInstalled (mkMeta "bar" (Some "2.0") (Some "3.0") None None 0 0) [].
Definition bar_2_0 := entry "bar" "2.0".

Definition update_flags : MportList.flags :=
  MportList.mkFlags false false false true false false.

(** A package without a version that was built for the older release
    3.0, and an index entry without a version. *)
Definition stale_build : installed :=
  mkInstalled (mkMeta "foo" None (Some "3.0") None None 0 0) [].
Definition foo_unversioned : mportIndexEntry := mkEntry "foo" None None.
End Sample.

(** ** Vocabulary of the properties *)

Section Vocabulary.
Context {World : Type} {lib : Libmport World}.

(** [returns op args s codes s']: run one after the other from [s],
    the operations on [args] all return, with these result codes, and
    leave the process in [s']. *)
Inductive returns (op : string -> M World Z)
  : list string -> state World -> list Z -> state World -> Prop :=
| returns_nil s : returns op [] s [] s
| returns_cons a rest s c s1 cs s2 :
    op a s = Ret c s1 ->
    returns op rest s1 cs s2 ->
    returns op (a :: rest) s (c :: cs) s2.

(** The last result code that is not 0, [d] when there is none. *)
Definition last_nonzero (codes : list Z) (d : Z) : Z :=
  fold_left (fun acc c => if negb (c =? 0) then c else acc) codes d.

(** The state after one more event. *)
Definition said (s : state World) (e : event) : state World :=
  mkState (world s) (stdin s) (trace s ++ [e]).

(** The state [s] after the events [t]. *)
Definition after_events (s : state World) (t : list event) : state World :=
  mkState (world s) (stdin s) (trace s ++ t).

(** The report lines of the update listing among the events. *)
Definition is_report (e : event) : bool :=
  match e with
  | OutOutdated _ _ _ _ => true
  | _ => false
  end.

Definition reports (t : list event) : list event := filter is_report t.

(** The line that mport.list prints for the pair of an installed
    package and an index entry. *)
Definition report_line (verbose : bool) (p : mportPackageMeta)
    (e : mportIndexEntry) : event :=
  OutOutdated (name p) (version p)
    (if verbose then Some (os_release p) else None) (ie_version e).

(** The condition of an outdated pair in the words of the spec. *)
Definition stale (p : mportPackageMeta) (os_release' : option string)
    (e : mportIndexEntry) : bool :=
  (mport_version_cmp (version p) (ie_version e) <? 0)
  || (mport_version_cmp (os_release p) os_release' <? 0).

(** The value that [%d] stores for a word that it takes as a whole. *)
Definition converts (t : token) : option Z :=
  match t with
  | TokInt v => Some v
  | TokOther w =>
      match scan_d w with
      | Converted v EmptyString => Some (stored v)
      | _ => None
      end
  end.

(** A word that begins with neither a digit nor a sign: the conversion
    takes nothing of it. *)
Definition no_number (w : string) : bool :=
  match w with
  | String c _ => negb (is_digit c || is_sign c)
  | EmptyString => false
  end.

(** The numbered lines of the listing loop of [install]. *)
Fixpoint numbered (l : list mportIndexEntry) (item : Z) : list event :=
  match l with
  | [] => []
  | e :: rest =>
      OutCandidate item (pkgname e) (ie_version e) :: numbered rest (item + 1)
  end.

(** The test [packageName[i] == '-'] at an index that may lie outside
    the string. *)
Definition is_dash (c : option ascii) : bool :=
  match c with
  | Some c => Ascii.eqb c "-"%char
  | None => false
  end.

(** [main] ends with [exit(resultCode)]. *)
Definition finish (m : M World Z) : M World unit :=
  resultCode <- m ;; stop (Exited resultCode).

(** The batch of a command of [main], after the index has been loaded
    where the command loads it: [batch_of fuel cmd s s0 op] holds when
    [cmd] runs [op] on each argument, starting in [s0]. *)
Inductive batch_of (fuel : nat)
  : string -> state World -> state World -> (string -> M World Z) -> Prop :=
| batch_of_install s s0 :
    Mport.loadIndex s = Ret tt s0 ->
    batch_of fuel "install" s s0 (Mport.install fuel)
| batch_of_delete s :
    batch_of fuel "delete" s s Mport.delete
| batch_of_update s s0 :
    Mport.loadIndex s = Ret tt s0 ->
    batch_of fuel "update" s s0 (fun a => call (fun w => mport_update w a)).

(** The two parts of a specifier split at [loc]. *)
Definition before (loc : Z) (packageName : string) : string :=
  substring 0 (Z.to_nat loc) packageName.

Definition after (loc : Z) (packageName : string) : string :=
  substring (Z.to_nat loc + 1)
            (String.length packageName - (Z.to_nat loc + 1)) packageName.

(** The specifier has no match in the index [w] holds: its lookup is
    empty and either it has no '-' behind its first character, or the
    first match of the part before the last '-' has another version
    than the part behind it. *)
Inductive not_found (w : World) (packageName : string) : Prop :=
| not_found_plain :
    mport_index_lookup_pkgname w packageName = (MPORT_OK, Some []) ->
    Mport.last_dash packageName (String.length packageName) <= 0 ->
    not_found w packageName
| not_found_version e rest ver :
    let loc := Mport.last_dash packageName (String.length packageName) in
    mport_index_lookup_pkgname w packageName = (MPORT_OK, Some []) ->
    0 < loc ->
    mport_index_lookup_pkgname w (before loc packageName)
    = (MPORT_OK, Some (e :: rest)) ->
    ie_version e = Some ver ->
    after loc packageName <> ver ->
    not_found w packageName.

(** The index entries that the lookup of the name of [p] returns. *)
Definition matches (w : World) (p : mportPackageMeta)
  : list mportIndexEntry :=
  match snd (mport_index_lookup_pkgname w (name p)) with
  | Some entries => entries
  | None => []
  end.

(** The data that the comparisons of the update listing read are there:
    the installed package has a version, its lookup succeeds, and every
    entry found has a version. *)
Definition comparable (w : World) (p : mportPackageMeta) : Prop :=
  version p <> None
  /\ fst (mport_index_lookup_pkgname w (name p)) = MPORT_OK
  /\ Forall (fun e => ie_version e <> None) (matches w p).

(** The calls of the comparator among the events. *)
Definition cmp_calls (t : list event)
  : list (option string * option string) :=
  flat_map (fun e => match e with
                     | CallVersionCmp a b => [(a, b)]
                     | _ => []
                     end) t.
End Vocabulary.

(** ** More of the two programs

    The functions of the two files that come next print lines of their
    own.  They run in the same monad; their world is the state of the
    collaborator together with the lines printed so far. *)

Inductive line :=
(* mport.list *)
| ListVerbose (name_version : string) (os comment : option string)
| ListName (pkg : string)
| ListOrigin (o : string)
| ListInformation (pkg : string) (ver o : option string)
| ListNameVersion (pkg : string) (ver : option string)
(* mport *)
| SearchTermsRequired
| SearchHit (pkg : string) (ver comment : option string)
| SpecifyPackageName
| PackageNameNotFound (packageName : string)
| LibraryError
| NoPackagesInstalled
| Cpe (c : string)
| NoCpeInformation
| PackagesVerified (total : Z)
| MirrorHowTo.

Definition Out (World : Type) : Type := (World * list line)%type.

(** The operations of libmport that these functions call besides those
    of [Libmport]; [cpe] is a field of mportPackageMeta. *)
Class LibmportMore (World : Type) := {
  cpe : mportPackageMeta -> option string;
  mport_index_search : World -> string -> vec mportIndexEntry;
  mport_pkgmeta_search_master : World -> string -> Z * vec mportPackageMeta;
  mport_lock_lock : World -> option mportPackageMeta -> Z * World;
  mport_lock_unlock : World -> option mportPackageMeta -> Z * World;
  mport_verify_package : World -> mportPackageMeta -> Z * World;
  mport_clean_database : World -> Z * World;
  mport_clean_oldpackages : World -> Z * World;
  mport_index_print_mirror_list : World -> Z * World
}.

Definition EX_SOFTWARE : Z := 70.

Section Printing.
Context {World : Type} {lib : Libmport World}.

(** The collaborator seen from a world with lines. *)
Definition out_lib : Libmport (Out World) := {|
  MPORT_OK := MPORT_OK;
  MPORT_ERR_FATAL := MPORT_ERR_FATAL;
  MPORT_ERR_WARN := MPORT_ERR_WARN;
  mport_err_code := fun wo => mport_err_code (fst wo);
  mport_get_osrelease := fun wo => mport_get_osrelease (fst wo);
  mport_version_cmp := mport_version_cmp;
  mport_index_load :=
    fun wo => let (r, w) := mport_index_load (fst wo) in (r, (w, snd wo));
  mport_index_lookup_pkgname :=
    fun wo n => mport_index_lookup_pkgname (fst wo) n;
  mport_install_depends :=
    fun wo n v =>
      let (r, w) := mport_install_depends (fst wo) n v in (r, (w, snd wo));
  mport_update :=
    fun wo n => let (r, w) := mport_update (fst wo) n in (r, (w, snd wo));
  mport_pkgmeta_list := fun wo => mport_pkgmeta_list (fst wo);
  mport_pkgmeta_get_updepends :=
    fun wo p => mport_pkgmeta_get_updepends (fst wo) p;
  system :=
    fun wo cmd => let (r, w) := system (fst wo) cmd in (r, (w, snd wo))
|}.

(** One more line. *)
Definition say (l : line) : M (Out World) unit :=
  fun s => Ret tt (mkState (fst (world s), snd (world s) ++ [l])
                           (stdin s) (trace s)).

(** A call and a query of the collaborator. *)
Definition callw {A} (f : World -> A * World) : M (Out World) A :=
  call (fun wo => let (a, w) := f (fst wo) in (a, (w, snd wo))).

Definition askw {A} (f : World -> A) : M (Out World) A :=
  ask (fun wo => f (fst wo)).
End Printing.

(** *** [str_remove] of mport.list.c

    A C string is the list of its characters before the terminator; a
    buffer is the list of its bytes. *)

Definition NUL : ascii := "000"%char.

(** [str[i]], the terminator included. *)
Definition char_at (str : list ascii) (i : nat) : ascii := nth i str NUL.

(** [buf[i] = c], inside the buffer. *)
Fixpoint poke (i : nat) (c : ascii) (buf : list ascii) : list ascii :=
  match buf, i with
  | [], _ => []
  | _ :: rest, O => c :: rest
  | b :: rest, S j => b :: poke j c rest
  end.

(** The loop of [str_remove], with [n] turns to go. *)
Fixpoint str_remove_loop (n : nat) (str : list ascii) (ch : ascii)
    (i x : nat) (output : list ascii) : list ascii :=
  match n with
  | O => output
  | S n' =>
      if negb (Ascii.eqb (char_at str i) ch) then
        str_remove_loop n' str ch (S i) (S x) (poke x (char_at str i) output)
      else str_remove_loop n' str ch (S i) x output
  end.

(** [str_remove]: the buffer it returns, of [len + 1] bytes. *)
Definition str_remove (str : option (list ascii)) (ch : ascii)
  : option (list ascii) :=
  match str with
  | None => None
  | Some str =>
      let len := List.length str in
      let output := repeat NUL (len + 1) in
      let output := str_remove_loop (len + 1) str ch 0 0 output in
      Some (poke len NUL output)
  end.

(** The C string that a buffer holds. *)
Fixpoint c_string (buf : list ascii) : list ascii :=
  match buf with
  | [] => []
  | c :: rest => if Ascii.eqb c NUL then [] else c :: c_string rest
  end.

(** [str_remove] on the strings of the package data. *)
Definition str_remove_string (str : option string) (ch : ascii)
  : option string :=
  option_map (fun buf => string_of_list_ascii (c_string buf))
    (str_remove (option_map list_ascii_of_string str) ch).

(** The character that [main] of mport.list.c has [str_remove] take out
    of a comment: the backslash. *)
Definition backslash : ascii := "092"%char.

(** What the printf family of the BSD and GNU C libraries prints for a
    string that is NULL. *)
Definition shown (str : option string) : string :=
  match str with
  | Some str => str
  | None => "(null)"
  end.

(** *** All the listings of mport.list.c *)

Module MportListAll.
Section Code.
Context {World : Type} {lib : Libmport World}.
#[local] Existing Instance out_lib.

(** [snprintf(name_version, 30, "%s-%s", name, version)]: the first 29
    characters of the text. *)
Definition name_version (p : mportPackageMeta) : string :=
  substring 0 29 (name p ++ "-" ++ shown (version p))%string.

(** The branches of the loop of [main] behind [if (update)].  A line
    carries the arguments of its [printf]; [printf] writes "(null)" for
    a string that is NULL.  The call of line 171 has the format "%s"
    and a newline, and nothing else: that is the call that compilers
    emit as [puts], which reads through its argument. *)
Definition print_package (f : MportList.flags) (p : mportPackageMeta)
  : M (Out World) unit :=
  if MportList.f_verbose f then
    let comment := str_remove_string (comment p) backslash in
    say (ListVerbose (name_version p) (os_release p) comment)
  else if MportList.f_prime f && (automatic p =? 0) then
    say (ListName (name p))
  else if MportList.f_quiet f && negb (MportList.f_origin f) then
    say (ListName (name p))
  else if MportList.f_quiet f && MportList.f_origin f then
    o <- deref (origin p) ;;
    say (ListOrigin o)
  else if MportList.f_origin f then
    say (ListInformation (name p) (version p) (origin p))
  else if MportList.f_locks f then
    if locked p =? 1 then say (ListNameVersion (name p) (version p))
    else ret tt
  else say (ListNameVersion (name p) (version p)).

(** The loop over the installed packages, in every mode; the branch of
    the update listing is [MportList.each_package] on the one package. *)
Fixpoint each_package (f : MportList.flags) (packs : list mportPackageMeta)
    (os_release' : option string) : M (Out World) unit :=
  match packs with
  | [] => ret tt
  | p :: rest =>
      (if MportList.f_update f
       then MportList.each_package f [p] os_release'
       else print_package f p) ;;
      each_package f rest os_release'
  end.

(** [main] after the option loop, in every mode. *)
Definition main (f : MportList.flags) : M (Out World) Z :=
  os_release' <- ask mport_get_osrelease ;;
  (if MportList.f_update f then
     r <- call mport_index_load ;;
     if negb (r =? MPORT_OK) then errx 8 Warn else ret tt
   else ret tt) ;;
  '(r, packs) <- ask mport_pkgmeta_list ;;
  if negb (r =? MPORT_OK) then errx EXIT_FAILURE Warn
  else match packs with
       | None =>
           (if negb (MportList.f_quiet f) then emit Warn else ret tt) ;;
           stop (Exited 3)
       | Some packs =>
           each_package f packs os_release' ;;
           ret 0
       end.
End Code.
End MportListAll.

(** *** More functions of mport.c

    The calls that give vectors back to the library
    ([mport_index_entry_free_vec], [mport_pkgmeta_vec_free]) change
    nothing that these definitions speak of and are left out, as in
    [Mport.deleteAll]. *)

Module MportMore.
Section Code.
Context {World : Type} {lib : Libmport World} {more : LibmportMore World}.
#[local] Existing Instance out_lib.

(** The inner loop of [search]: a line for each entry found. *)
Fixpoint print_hits (indexEntry : list mportIndexEntry) : M (Out World) unit :=
  match indexEntry with
  | [] => ret tt
  | e :: rest =>
      say (SearchHit (pkgname e) (ie_version e) (ie_comment e)) ;;
      print_hits rest
  end.

(** The outer loop of [search], over the slots of the vector that hold
    a term.  Behind them the loop reads one slot more: the NULL that
    ends the vector when it is [terminated], and otherwise what lies
    behind the allocation. *)
Fixpoint search_terms (query : list string) (terminated : bool)
  : M (Out World) unit :=
  match query with
  | [] => if terminated then ret tt else stop OutOfBounds
  | term :: rest =>
      indexEntry <- askw (fun w => mport_index_search w term) ;;
      match indexEntry with
      | None | Some [] => search_terms rest terminated
      | Some entries => print_hits entries ;; search_terms rest terminated
      end
  end.

(** [search], on a vector of terms. *)
Definition search (query : vec string) (terminated : bool)
  : M (Out World) Z :=
  match query with
  | None => say SearchTermsRequired ;; ret 1
  | Some [] =>
      if terminated then say SearchTermsRequired ;; ret 1
      else stop OutOfBounds
  | Some terms => search_terms terms terminated ;; ret 0
  end.

(** [lock] and [unlock]: [change] is [mport_lock_lock] or
    [mport_lock_unlock]; [*packs] is the first entry of the vector, NULL
    when the vector holds the terminator only. *)
Definition lock_with (change : World -> option mportPackageMeta -> Z * World)
    (packageName : option string) : M (Out World) Z :=
  match packageName with
  | None => say SpecifyPackageName ;; ret 1
  | Some packageName =>
      '(r, packs) <-
         askw (fun w => mport_pkgmeta_search_master w packageName) ;;
      if negb (r =? MPORT_OK) then say LibraryError ;; ret 1
      else match packs with
           | None => say (PackageNameNotFound packageName) ;; ret 1
           | Some packs =>
               callw (fun w => change w (hd_error packs)) ;;
               ret 0
           end
  end.

Definition lock : option string -> M (Out World) Z :=
  lock_with mport_lock_lock.

Definition unlock : option string -> M (Out World) Z :=
  lock_with mport_lock_unlock.

(** The loop of [cpeList]: the result is [cpe_total] after it. *)
Fixpoint print_cpes (packs : list mportPackageMeta) (cpe_total : Z)
  : M (Out World) Z :=
  match packs with
  | [] => ret cpe_total
  | p :: rest =>
      match cpe p with
      | Some c =>
          if (0 <? Z.of_nat (String.length c)) then
            say (Cpe c) ;; print_cpes rest (cpe_total + 1)
          else print_cpes rest cpe_total
      | None => print_cpes rest cpe_total
      end
  end.

Definition cpeList : M (Out World) Z :=
  '(r, packs) <- ask mport_pkgmeta_list ;;
  if negb (r =? MPORT_OK) then
    say LibraryError ;; code <- ask mport_err_code ;; ret code
  else match packs with
       | None => say NoPackagesInstalled ;; ret 1
       | Some packs =>
           cpe_total <- print_cpes packs 0 ;;
           if cpe_total =? 0 then
             say NoCpeInformation ;; stop (Exited EX_SOFTWARE)
           else ret 0
       end.

(** The loop of [verify]: the result is [total] after it. *)
Fixpoint verify_each (packs : list mportPackageMeta) (total : Z)
  : M (Out World) Z :=
  match packs with
  | [] => ret total
  | p :: rest =>
      callw (fun w => mport_verify_package w p) ;;
      verify_each rest (total + 1)
  end.

Definition verify : M (Out World) Z :=
  '(r, packs) <- ask mport_pkgmeta_list ;;
  if negb (r =? MPORT_OK) then
    say LibraryError ;; code <- ask mport_err_code ;; ret code
  else match packs with
       | None => say NoPackagesInstalled ;; ret 1
       | Some packs =>
           total <- verify_each packs 0 ;;
           say (PackagesVerified total) ;;
           ret 0
       end.

Definition clean : M (Out World) Z :=
  ret' <- callw mport_clean_database ;;
  if ret' =? MPORT_OK then callw mport_clean_oldpackages else ret ret'.

(** [main] from [char *cmd = argv[0]] on, for the commands lock,
    unlock, clean, cpe, verify, mirror and search; the commands of
    [Mport.main] go there.  For search, [main] allocates a vector of
    [argc - 1] slots and fills every one of them with a term: the
    vector has no terminator.  (Without a term the vector has no slot
    at all, and what [calloc] returns for it is the implementation's
    choice.) *)
Definition main (fuel : nat) (argv : list string) : M (Out World) unit :=
  let resultCode := MPORT_ERR_FATAL in
  cmd <- deref (hd_error argv) ;;
  let args := tl argv in
  (if cmd =? "lock" then
     match args with
     | a :: _ => lock (Some a) ;; stop (Exited resultCode)
     | [] => Mport.usage
     end
   else if cmd =? "unlock" then
     match args with
     | a :: _ => unlock (Some a) ;; stop (Exited resultCode)
     | [] => Mport.usage
     end
   else if cmd =? "clean" then
     Mport.loadIndex ;;
     resultCode <- clean ;;
     stop (Exited resultCode)
   else if cmd =? "mirror" then
     resultCode <-
       match args with
       | a :: _ :: _ =>
           if a =? "list" then
             Mport.loadIndex ;;
             say MirrorHowTo ;;
             callw mport_index_print_mirror_list
           else ret resultCode
       | _ => ret resultCode
       end ;;
     stop (Exited resultCode)
   else if cmd =? "search" then
     Mport.loadIndex ;;
     match args with
     | [] => stop NotModelled
     | _ =>
         resultCode <- search (Some args) false ;;
         stop (Exited resultCode)
     end
   else if cmd =? "cpe" then
     resultCode <- cpeList ;;
     stop (Exited resultCode)
   else if cmd =? "verify" then
     resultCode <- verify ;;
     stop (Exited resultCode)
   else Mport.main fuel argv)%string.
End Code.
End MportMore.

(** ** A store whose queries fail, and more sample data *)

Module Faulty.
Import Store.

(** A collaborator that answers like the store, except that the query
    for the dependents of the package "broken" fails and the lookup of
    the name "broken" in the index fails. *)
Definition faulty_lib : Libmport store := {|
  MPORT_OK := 0;
  MPORT_ERR_FATAL := 1;
  MPORT_ERR_WARN := 2;
  mport_err_code := fun _ => 1;
  mport_get_osrelease := osrelease;
  mport_version_cmp := version_cmp;
  mport_index_load := fun w => (0, w);
  mport_index_lookup_pkgname :=
    fun w n => if String.eqb n "broken" then (1, None)
               else index_lookup_pkgname w n;
  mport_install_depends := install_depends;
  mport_update := fun w _ => (0, w);
  mport_pkgmeta_list := pkgmeta_list;
  mport_pkgmeta_get_updepends :=
    fun w p => if String.eqb (name p) "broken" then (1, None)
               else pkgmeta_get_updepends w p;
  system := run_system
|}.

(** B, locked, requires A. *)
Definition BL := Sample.package "B" 1 ["A"].

(** An installed package called "broken". *)
Definition broken := Sample.package "broken" 0 [].
End Faulty.

(** ** The store with the further operations *)

Module More.
Import Store.

(** The CPE string of the sample package called "A"; the one of "B" is
    empty, the other packages have none. *)
Definition sample_cpe (p : mportPackageMeta) : option string :=
  if String.eqb (name p) "A" then Some "cpe:2.3:a:sample:a:1.0"%string
  else if String.eqb (name p) "B" then Some EmptyString
  else None.

(** The installed packages called [n]; the vector is NULL when there is
    none. *)
Definition search_master (w : store) (n : string)
  : Z * vec mportPackageMeta :=
  (0, match filter (fun q => String.eqb (pname q) n) (packages w) with
      | [] => None
      | found => Some (map meta found)
      end).

(** The lock flag of the installed packages called [n] set to [l]. *)
Definition set_locked (l : Z) (n : string) (q : installed) : installed :=
  if String.eqb (pname q) n then
    mkInstalled (mkMeta (name (meta q)) (version (meta q))
                   (os_release (meta q)) (origin (meta q))
                   (comment (meta q)) l (automatic (meta q)))
                (depends q)
  else q.

Definition lock_change (l : Z) (w : store) (p : option mportPackageMeta)
  : Z * store :=
  match p with
  | None => (1, w)
  | Some p =>
      (0, mkStore (map (set_locked l (name p)) (packages w))
            (index w) (osrelease w))
  end.

(** The index entries whose name begins with [term]. *)
Definition index_search (w : store) (term : string) : vec mportIndexEntry :=
  Some (filter (fun e => String.prefix term (pkgname e)) (index w)).

(** The verification finds a fault in every package that is locked, and
    leaves the store as it is. *)
Definition verify_package (w : store) (p : mportPackageMeta) : Z * store :=
  (if locked p =? 0 then 0 else 1, w).

Definition more_lib : LibmportMore store := {|
  cpe := sample_cpe;
  mport_index_search := index_search;
  mport_pkgmeta_search_master := search_master;
  mport_lock_lock := lock_change 1;
  mport_lock_unlock := lock_change 0;
  mport_verify_package := verify_package;
  mport_clean_database := fun w => (0, w);
  mport_clean_oldpackages := fun w => (0, w);
  mport_index_print_mirror_list := fun w => (0, w)
|}.

(** The process at its start with no line written. *)
Definition start_out (pk : list installed) (idx : list mportIndexEntry)
  : state (Out store) :=
  mkState (mkStore pk idx (Some "3.1"), []) [] [].

(** A package with a comment; [auto] tells whether it came in as a
    dependency. *)
Definition commented (n c : string) (auto : Z) : installed :=
  mkInstalled (mkMeta n (Some "1.0") (Some "3.1") None (Some c) 0 auto) [].

(** Installed on request, with a backslash in the comment. *)
Definition vim : installed :=
  commented "vim" ("Vi " ++ String backslash "improved")%string 0.

(** Installed as a dependency, with a name of more than 29 characters. *)
Definition long_name : installed :=
  commented "a-package-with-a-very-long-name" "library" 1.

(** A locked package. *)
Definition pinned : installed := Sample.package "pinned" 1 [].

Definition plain_flags : MportList.flags :=
  MportList.mkFlags false false false false false false.
Definition verbose_flags : MportList.flags :=
  MportList.mkFlags false true false false false false.
Definition locks_flags : MportList.flags :=
  MportList.mkFlags false false false false true false.
Definition prime_flags : MportList.flags :=
  MportList.mkFlags false false false false false true.
Definition quiet_origin_flags : MportList.flags :=
  MportList.mkFlags true false true false false false.

(** A package with an origin. *)
Definition ported (n o : string) : installed :=
  mkInstalled (mkMeta n (Some "1.0") (Some "3.1") (Some o) None 0 0) [].
End More.

(** ** Vocabulary of the further properties *)

Section MoreVocabulary.
Context {World : Type} {lib : Libmport World}.

(** The command line that [delete] hands to [system]. *)
Definition delete_command (packageName : string) : string :=
  (MPORT_TOOLS_PATH ++ "mport.delete" ++ " " ++ "-n" ++ " "
   ++ packageName)%string.

(** The result codes and the final state of the calls of [f] on [args],
    one after the other. *)
Fixpoint calls (f : World -> string -> Z * World) (w : World)
    (args : list string) : list Z * World :=
  match args with
  | [] => ([], w)
  | a :: rest =>
      let (c, w1) := f w a in
      let (cs, w2) := calls f w1 rest in
      (c :: cs, w2)
  end.

(** The lines "is no longer available" among the events. *)
Definition is_gone (e : event) : bool :=
  match e with
  | OutNoLongerAvailable _ _ => true
  | _ => false
  end.

Definition gone (t : list event) : list event := filter is_gone t.

(** The lookup of the name of [p] brings no entry: the vector is NULL or
    holds the terminator only. *)
Definition no_match (w : World) (p : mportPackageMeta) : bool :=
  match snd (mport_index_lookup_pkgname w (name p)) with
  | None | Some [] => true
  | Some (_ :: _) => false
  end.

(** What the update listing writes to stdout, among the events. *)
Definition printed (t : list event) : list event :=
  filter (fun e => is_report e || is_gone e) t.

(** The pairs for which a line is due when each comparison counts only
    where its guard lets it: the versions where the entry has a
    version, the os_release where the package has a version. *)
Definition flagged (p : mportPackageMeta) (os_release' : option string)
    (e : mportIndexEntry) : bool :=
  match ie_version e with
  | Some _ => mport_version_cmp (version p) (ie_version e) <? 0
  | None => false
  end
  || match version p with
     | Some _ => mport_version_cmp (os_release p) os_release' <? 0
     | None => false
     end.

(** The lines of one installed package in the update listing. *)
Definition listing_of (verbose : bool) (w : World)
    (os_release' : option string) (p : mportPackageMeta) : list event :=
  if no_match w p then [OutNoLongerAvailable (name p) (version p)]
  else map (report_line verbose p) (filter (flagged p os_release') (matches w p)).
End MoreVocabulary.

(** ** Vocabulary of the properties of the bulk remover *)

(** The state in which a run ends, returned or not. *)
Definition final {World A} (o : outcome World A) : state World :=
  match o with
  | Ret _ s => s
  | Halt _ s => s
  end.



Section RemoverVocabulary.
Import Store.


(** [now] is what is left of the installed set [init], and nothing was
    taken from under a package that is still there: whatever a package
    of [now] requires of [init] is in [now] too. *)
Definition respects (init now : list installed) : Prop :=
  incl now init
  /\ forall p q, In p init -> In q now -> requires q (pname p) = true ->
                 In p now.
End RemoverVocabulary.

(** ** Vocabulary of the properties of the further functions *)

(** The string [str] without the character [ch]. *)
Definition without (ch : ascii) (str : list ascii) : list ascii :=
  filter (fun c => negb (Ascii.eqb c ch)) str.

Definition string_without (ch : ascii) (str : string) : string :=
  string_of_list_ascii (without ch (list_ascii_of_string str)).

(** A C string holds no NUL before its terminator. *)
Definition no_nul (str : list ascii) : Prop := Forall (fun c => c <> NUL) str.

Section LinesVocabulary.
Context {World : Type} {lib : Libmport World} {more : LibmportMore World}.

(** The state [s] after the lines [ls]. *)
Definition after_lines (s : state (Out World)) (ls : list line)
  : state (Out World) :=
  mkState (fst (world s), snd (world s) ++ ls) (stdin s) (trace s).

(** The state [s] after a change of the collaborator. *)
Definition with_world (s : state (Out World)) (w : World)
  : state (Out World) :=
  mkState (w, snd (world s)) (stdin s) (trace s).

(** The line of a package in the verbose listing when its comment is a
    C string. *)
Definition verbose_line (p : mportPackageMeta) : line :=
  ListVerbose (MportListAll.name_version p) (os_release p)
    (option_map (string_without backslash) (comment p)).

(** The lines that the listing prints for a package outside the update
    listing: none or one. *)
Definition lines_of (f : MportList.flags) (p : mportPackageMeta)
  : list line :=
  if MportList.f_verbose f then
    [ListVerbose (MportListAll.name_version p) (os_release p)
       (str_remove_string (comment p) backslash)]
  else if MportList.f_prime f && (automatic p =? 0) then [ListName (name p)]
  else if MportList.f_quiet f then
    if MportList.f_origin f then
      match origin p with
      | Some o => [ListOrigin o]
      | None => []
      end
    else [ListName (name p)]
  else if MportList.f_origin f then
    [ListInformation (name p) (version p) (origin p)]
  else if MportList.f_locks f && negb (locked p =? 1) then []
  else [ListNameVersion (name p) (version p)].

(** The listing comes to print the origin of [p] alone on a line, and
    [p] has no origin. *)
Definition reads_null (f : MportList.flags) (p : mportPackageMeta) : bool :=
  negb (MportList.f_verbose f)
  && negb (MportList.f_prime f && (automatic p =? 0))
  && MportList.f_quiet f && MportList.f_origin f
  && match origin p with
     | None => true
     | Some _ => false
     end.

(** The comment of a package is a C string or NULL. *)
Definition comment_is_c_string (p : mportPackageMeta) : Prop :=
  forall str, comment p = Some str -> no_nul (list_ascii_of_string str).

(** The lines of the entries that the search for [term] finds. *)
Definition hits (w : World) (term : string) : list line :=
  match mport_index_search w term with
  | Some entries =>
      map (fun e => SearchHit (pkgname e) (ie_version e) (ie_comment e))
        entries
  | None => []
  end.

(** The CPE strings of the packages that have one that is not empty. *)
Definition cpes (packs : list mportPackageMeta) : list string :=
  flat_map (fun p => match cpe p with
                     | Some EmptyString => []
                     | Some c => [c]
                     | None => []
                     end) packs.

(** The collaborator after the verification of the packages, one after
    the other. *)
Definition verified (w : World) (packs : list mportPackageMeta) : World :=
  fold_left (fun w p => snd (mport_verify_package w p)) packs w.
End LinesVocabulary.

(** ** Properties of the monad and of the batch loops *)

Ltac run := unfold bind, ret, stop, emit, call, ask, deref, errx, said in *;
            simpl in *.

Section BatchFacts.
Context {World : Type} {lib : Libmport World}.

Lemma bind_ret {A B} (m : M World A) (k : A -> M World B) s a s1 :
  m s = Ret a s1 -> bind m k s = k a s1.
Proof. intros H; unfold bind; now rewrite H. Qed.

Lemma bind_halt {A B} (m : M World A) (k : A -> M World B) s h s1 :
  m s = Halt h s1 -> bind m k s = Halt h s1.
Proof. intros H; unfold bind; now rewrite H. Qed.

Lemma batch_returns (op : string -> M World Z) args s cs s' :
  returns op args s cs s' ->
  forall rc, Mport.batch op args rc s = Ret (last_nonzero cs rc) s'.
Proof.
  induction 1 as [s | a rest s c s1 cs s2 Hop _ IH]; intros rc.
  - reflexivity.
  - simpl. rewrite (bind_ret _ _ _ _ _ Hop). apply IH.
Qed.

Lemma batch_halts (op : string -> M World Z) pre a post s cs s1 h s2 :
  returns op pre s cs s1 ->
  op a s1 = Halt h s2 ->
  forall rc, Mport.batch op (pre ++ a :: post) rc s = Halt h s2.
Proof.
  induction 1 as [s | b rest s c s1 cs s3 Hop _ IH]; intros Ha rc.
  - simpl. now rewrite (bind_halt _ _ _ _ _ Ha).
  - simpl. rewrite (bind_ret _ _ _ _ _ Hop). now apply IH.
Qed.

Lemma last_nonzero_zeros cs d :
  Forall (fun c => c = 0) cs -> last_nonzero cs d = d.
Proof.
  unfold last_nonzero. intros H; revert d.
  induction H as [| c cs Hc _ IH]; intros d; simpl.
  - reflexivity.
  - subst c. simpl. apply IH.
Qed.

Lemma last_nonzero_app cs c d :
  c <> 0 -> Forall (fun x => x = 0) cs ->
  forall pre, last_nonzero (pre ++ c :: cs) d = c.
Proof.
  intros Hc Hz pre. unfold last_nonzero.
  rewrite fold_left_app. simpl.
  destruct (Z.eqb_spec c 0) as [E | _]; [contradiction |]. simpl.
  now apply (last_nonzero_zeros cs c).
Qed.
End BatchFacts.

(** ** The install resolver *)

Section InstallFacts.
Context {World : Type} {lib : Libmport World}.

Lemma lookupIndex_ok n (s : state World) v :
  mport_index_lookup_pkgname (world s) n = (MPORT_OK, v) ->
  Mport.lookupIndex n s = Ret v s.
Proof.
  intros H. unfold Mport.lookupIndex. run. rewrite H. simpl.
  now rewrite Z.eqb_refl.
Qed.

(** *** The scan for the last '-' *)

Lemma last_dash_S s j :
  Mport.last_dash s (S j)
  = if is_dash (String.get j s) then Z.of_nat j else Mport.last_dash s j.
Proof.
  simpl. destruct (String.get j s) as [c |]; [| reflexivity].
  destruct c as [[] [] [] [] [] [] [] []]; reflexivity.
Qed.

Lemma is_dash_true c : is_dash c = true <-> c = Some "-"%char.
Proof.
  destruct c as [c |]; simpl; [| split; discriminate].
  rewrite Ascii.eqb_eq. split; congruence.
Qed.

Lemma last_dash_range s i : -1 <= Mport.last_dash s i < Z.of_nat i.
Proof.
  induction i as [| j IH]; [simpl; lia |].
  rewrite last_dash_S. destruct (is_dash (String.get j s)); lia.
Qed.

Lemma last_dash_found s i :
  0 <= Mport.last_dash s i ->
  String.get (Z.to_nat (Mport.last_dash s i)) s = Some "-"%char.
Proof.
  induction i as [| j IH]; [simpl; lia |].
  rewrite last_dash_S. destruct (is_dash (String.get j s)) eqn:D.
  - intros _. rewrite Nat2Z.id. now apply is_dash_true.
  - exact IH.
Qed.

Lemma last_dash_rightmost s i j :
  (Z.to_nat (Mport.last_dash s i + 1) <= j < i)%nat ->
  String.get j s <> Some "-"%char.
Proof.
  induction i as [| k IH]; [lia |].
  rewrite last_dash_S. destruct (is_dash (String.get k s)) eqn:D.
  - lia.
  - intros H. destruct (Nat.eq_dec j k) as [-> | Hjk].
    + intros E. apply is_dash_true in E. congruence.
    + apply IH. lia.
Qed.

Lemma substring_whole s : substring 0 (String.length s) s = s.
Proof. induction s as [| a s IH]; simpl; [reflexivity | now rewrite IH]. Qed.

Lemma split_at s : forall n c,
  String.get n s = Some c ->
  s = (substring 0 n s
       ++ String c (substring (n + 1) (String.length s - (n + 1)) s))%string.
Proof.
  induction s as [| a s IH]; intros n c H; simpl in H.
  - destruct n; discriminate.
  - destruct n as [| m].
    + injection H as ->. simpl. rewrite Nat.sub_0_r.
      now rewrite substring_whole.
    + simpl. f_equal. now apply IH.
Qed.

(** *** The selection among several entries *)

Lemma list_entries_run l : forall item (s : state World),
  Mport.list_entries l item s
  = Ret (item + Z.of_nat (List.length l))
        (mkState (world s) (stdin s) (trace s ++ numbered l item)).
Proof.
  induction l as [| e rest IH]; intros item s.
  - simpl. unfold ret. rewrite Z.add_0_r, app_nil_r. now destruct s.
  - cbn [Mport.list_entries]. unfold bind at 1. unfold emit.
    rewrite IH. cbn [world stdin trace numbered List.length].
    rewrite <- app_assoc. simpl app. f_equal. lia.
Qed.

Lemma read_choice_accepts fuel item choice v rest (s : state World) :
  stdin s = TokInt v :: rest ->
  0 <= v <= item ->
  Mport.read_choice (S fuel) item choice s
  = Ret v (mkState (world s) rest (trace s)).
Proof.
  intros Hin Hv. simpl. unfold bind, scanf_d. rewrite Hin. simpl.
  destruct (Z.gtb_spec v item); [lia |].
  destruct (Z.ltb_spec v 0); [lia |]. reflexivity.
Qed.

Lemma read_choice_rejects fuel item choice v rest (s : state World) :
  stdin s = TokInt v :: rest ->
  v < 0 \/ item < v ->
  Mport.read_choice (S fuel) item choice s
  = Mport.read_choice fuel item v
      (mkState (world s) rest (trace s ++ [ErrSelectEntry (item - 1)])).
Proof.
  intros Hin Hv. simpl. unfold bind at 1. unfold scanf_d. rewrite Hin.
  simpl. destruct (Z.gtb_spec v item), (Z.ltb_spec v 0); try lia; reflexivity.
Qed.

Lemma scan_d_no_number w : no_number w = true -> scan_d w = Mismatch w.
Proof.
  destruct w as [| c w]; [discriminate |]. simpl.
  destruct (is_digit c); [discriminate |].
  destruct (is_sign c); [discriminate | reflexivity].
Qed.

(** A word that is no number stays where it is, and the loop asks
    again. *)
Lemma read_choice_mismatch fuel item choice w rest (s : state World) :
  stdin s = TokOther w :: rest ->
  no_number w = true ->
  Mport.read_choice (S fuel) item choice s
  = Mport.read_choice fuel item choice (said s (ErrSelectEntry (item - 1))).
Proof.
  intros Hin Hw. simpl. unfold bind at 1. unfold scanf_d. rewrite Hin.
  rewrite (scan_d_no_number _ Hw).
  destruct w as [| c w]; [discriminate |]. cbn [unread_word].
  rewrite <- Hin. now destruct s.
Qed.

(** One turn of the prompt loop. *)
Lemma read_choice_S fuel item choice (s : state World) :
  Mport.read_choice (S fuel) item choice s
  = match scanf_d choice s with
    | Ret (r, c) s1 =>
        if (r <? 1) || (c >? item) || (c <? 0)
        then Mport.read_choice fuel item c (said s1 (ErrSelectEntry (item - 1)))
        else Ret c s1
    | Halt h s1 => Halt h s1
    end.
Proof.
  simpl. unfold bind at 1. destruct (scanf_d choice s) as [[r c] s1 | h s1];
    [| reflexivity].
  destruct ((r <? 1) || (c >? item) || (c <? 0)); reflexivity.
Qed.

(** [scanf] returns; it leaves the collaborator and the output alone,
    and without a conversion [choice] keeps its value. *)
Lemma scanf_d_cases choice (s : state World) :
  exists r c s1,
    scanf_d choice s = Ret (r, c) s1
    /\ world s1 = world s /\ trace s1 = trace s
    /\ (r = 1 \/ (r < 1 /\ c = choice)).
Proof.
  unfold scanf_d. destruct (stdin s) as [| [v | w] rest].
  - eexists _, _, _. split; [reflexivity |]. unfold EOF. auto with zarith.
  - eexists _, _, _. split; [reflexivity |]. auto.
  - destruct (scan_d w) as [v w' | w'];
      eexists _, _, _; (split; [reflexivity |]); auto with zarith.
Qed.

Lemma read_choice_eof fuel item choice (s : state World) :
  stdin s = [] ->
  Mport.read_choice (S fuel) item choice s
  = Mport.read_choice fuel item choice (said s (ErrSelectEntry (item - 1))).
Proof.
  intros Hin. simpl. unfold bind at 1. unfold scanf_d. rewrite Hin.
  reflexivity.
Qed.

(** The value that [choice] starts with is never looked at. *)
Lemma read_choice_start fuel : forall item c1 c2 (s : state World),
  Mport.read_choice fuel item c1 s = Mport.read_choice fuel item c2 s.
Proof.
  induction fuel as [| fuel IH]; intros item c1 c2 s; [reflexivity |].
  rewrite !read_choice_S. unfold scanf_d.
  destruct (stdin s) as [| [v | w] rest]; [apply IH | reflexivity |].
  destruct (scan_d w) as [v w' | w']; [reflexivity | apply IH].
Qed.

Ltac by_ih IH item c st :=
  let c' := fresh "c" in
  let s' := fresh "s'" in
  let E := fresh "E" in
  let Hc := fresh "Hc" in
  let Hw := fresh "Hw" in
  destruct (IH item c st) as [(c' & s' & E & Hc & Hw) | (s' & E & Hw)];
  [left; exists c', s' | right; exists s'];
  rewrite E; simpl in Hw; auto.

(** The prompt loop leaves the collaborator alone, and a choice that
    leaves it lies between 0 and [item], both included. *)
Lemma read_choice_cases fuel : forall item choice (s : state World),
  (exists c s', Mport.read_choice fuel item choice s = Ret c s'
                /\ 0 <= c <= item /\ world s' = world s)
  \/ (exists s', Mport.read_choice fuel item choice s = Halt Looping s'
                 /\ world s' = world s).
Proof.
  induction fuel as [| fuel IH]; intros item choice s.
  - right. exists s. split; reflexivity.
  - rewrite read_choice_S.
    destruct (scanf_d_cases choice s) as (r & c & s1 & E & Hw & _ & _).
    rewrite E.
    destruct ((r <? 1) || (c >? item) || (c <? 0)) eqn:Cond.
    + rewrite <- Hw. by_ih IH item c (said s1 (ErrSelectEntry (item - 1))).
    + left. exists c, s1. split; [reflexivity |]. split; [| exact Hw].
      apply orb_false_elim in Cond. destruct Cond as [Cond C0].
      apply orb_false_elim in Cond. destruct Cond as [_ C1].
      apply Z.ltb_ge in C0. rewrite Z.gtb_ltb in C1. apply Z.ltb_ge in C1.
      lia.
Qed.

(** A word that is no number stays in the input: the loop asks again
    and again and reads nothing more. *)
Lemma read_choice_stuck fuel : forall item choice w rest (s : state World),
  stdin s = TokOther w :: rest ->
  no_number w = true ->
  exists t,
    Mport.read_choice fuel item choice s = Halt Looping (after_events s t).
Proof.
  induction fuel as [| fuel IH]; intros item choice w rest s Hin Hw.
  - exists []. unfold after_events. rewrite app_nil_r. now destruct s.
  - rewrite (read_choice_mismatch _ _ _ _ _ _ Hin Hw).
    destruct (IH item choice w rest (said s (ErrSelectEntry (item - 1)))
                Hin Hw) as (t & E).
    exists (ErrSelectEntry (item - 1) :: t). rewrite E.
    unfold after_events, said. simpl. now rewrite <- app_assoc.
Qed.

Lemma hd_skipn {A} (l : list A) : forall n,
  hd_error (skipn n l) = nth_error l n.
Proof.
  induction l as [| a l IH]; intros [| n]; simpl; auto.
Qed.

Lemma select_single fuel e (s : state World) :
  Mport.select fuel [e] s
  = call (fun w => mport_install_depends w (pkgname e) (ie_version e)) s.
Proof. reflexivity. Qed.

(** With several entries, an input [k] below their number installs
    the [k]-th of them, counted from 0 in the order of the lookup. *)
Lemma select_chosen fuel l k e rest (s : state World) :
  (1 < List.length l)%nat ->
  stdin s = TokInt k :: rest ->
  0 <= k < Z.of_nat (List.length l) ->
  nth_error l (Z.to_nat k) = Some e ->
  Mport.select (S fuel) l s
  = call (fun w => mport_install_depends w (pkgname e) (ie_version e))
      (mkState (world s) rest (trace s ++ OutMultipleFound :: numbered l 0)).
Proof.
  intros Hl Hin Hk He. unfold Mport.select.
  destruct (nth_error l 1) eqn:H1;
    [| apply nth_error_None in H1; lia].
  unfold bind at 1. unfold bind at 1. unfold emit.
  unfold bind at 1. rewrite list_entries_run. cbn [world stdin trace].
  unfold bind at 1.
  erewrite read_choice_accepts; [| exact Hin | simpl; lia].
  unfold ret. cbn [world stdin trace].
  rewrite hd_skipn, He. unfold deref, bind, ret.
  rewrite <- app_assoc. reflexivity.
Qed.

(** With several entries, the input equal to their number leaves the
    prompt loop and [indexEntry] ends on the terminator. *)
Lemma select_count fuel l rest (s : state World) :
  (1 < List.length l)%nat ->
  stdin s = TokInt (Z.of_nat (List.length l)) :: rest ->
  Mport.select (S fuel) l s
  = Halt NullDeref
      (mkState (world s) rest (trace s ++ OutMultipleFound :: numbered l 0)).
Proof.
  intros Hl Hin. unfold Mport.select.
  destruct (nth_error l 1) eqn:H1;
    [| apply nth_error_None in H1; lia].
  unfold bind at 1. unfold bind at 1. unfold emit.
  unfold bind at 1. rewrite list_entries_run. cbn [world stdin trace].
  unfold bind at 1.
  erewrite read_choice_accepts; [| exact Hin | simpl; lia].
  unfold ret. cbn [world stdin trace].
  rewrite Nat2Z.id, skipn_all. unfold bind. simpl.
  rewrite <- app_assoc. reflexivity.
Qed.

(** [select] never exits: it returns, runs into the terminator, or
    stays in the prompt loop. *)
Lemma select_no_exit fuel l (s : state World) code s' :
  Mport.select fuel l s <> Halt (Exited code) s'.
Proof.
  unfold Mport.select.
  set (k := fun indexEntry : list mportIndexEntry =>
              bind (deref (hd_error indexEntry))
                (fun e => call (fun w => mport_install_depends w
                                 (pkgname e) (ie_version e)))).
  assert (forall l0 s0, k l0 s0 <> Halt (Exited code) s') as Hk.
  { intros l0 s0. unfold k, bind, deref, call, ret, stop.
    destruct (hd_error l0) as [e |]; [| discriminate].
    destruct (mport_install_depends _ _ _); discriminate. }
  change (bind match nth_error l 1 with
               | Some _ =>
                   emit OutMultipleFound ;;
                   item <- Mport.list_entries l 0 ;;
                   choice <- Mport.read_choice fuel item 0 ;;
                   ret (skipn (Z.to_nat choice) l)
               | None => ret l
               end k s <> Halt (Exited code) s').
  destruct (nth_error l 1).
  - unfold bind at 1. unfold bind at 1. unfold emit.
    unfold bind at 1. rewrite list_entries_run.
    unfold bind at 1.
    match goal with
    | |- context [Mport.read_choice fuel ?i 0 ?st] =>
        destruct (read_choice_cases fuel i 0 st)
          as [(c & s1 & E & _ & _) | (s1 & E & _)]; rewrite E
    end.
    + unfold ret. apply Hk.
    + discriminate.
  - unfold bind at 1. unfold ret. apply Hk.
Qed.

(** *** The resolution of a specifier *)

Lemma resolve_found n e rest (s : state World) :
  mport_index_lookup_pkgname (world s) n = (MPORT_OK, Some (e :: rest)) ->
  Mport.resolve n s = Ret (e :: rest) s.
Proof.
  intros H. unfold Mport.resolve.
  rewrite (bind_ret _ _ _ _ _ (lookupIndex_ok _ _ _ H)). reflexivity.
Qed.

Lemma resolve_plain n (s : state World) :
  mport_index_lookup_pkgname (world s) n = (MPORT_OK, Some []) ->
  Mport.last_dash n (String.length n) <= 0 ->
  Mport.resolve n s = Halt (Exited 4) (said s (ErrNotInIndex n)).
Proof.
  intros H Hloc. unfold Mport.resolve.
  rewrite (bind_ret _ _ _ _ _ (lookupIndex_ok _ _ _ H)).
  cbn [deref]. unfold bind at 1. unfold ret at 1.
  destruct (Z.gtb_spec (Mport.last_dash n (String.length n)) 0); [lia |].
  reflexivity.
Qed.

(** On the fallback path, [resolve] is the comparison of the versions
    followed by the test that something was found, both on the vector
    that the lookup of the name returned. *)
Lemma resolve_fallback n r (s : state World) :
  let loc := Mport.last_dash n (String.length n) in
  mport_index_lookup_pkgname (world s) n = (MPORT_OK, Some []) ->
  0 < loc ->
  mport_index_lookup_pkgname (world s) (before loc n) = (MPORT_OK, r) ->
  Mport.resolve n s
  = (Mport.check_version n (after loc n) r ;; Mport.check_found n r) s.
Proof.
  intros loc H Hloc Hd. unfold Mport.resolve.
  rewrite (bind_ret _ _ _ _ _ (lookupIndex_ok _ _ _ H)).
  cbn [deref]. unfold bind at 1. unfold ret at 1.
  fold loc. destruct (Z.gtb_spec loc 0); [| lia].
  fold (before loc n). fold (after loc n).
  unfold bind at 1. unfold bind at 1.
  rewrite (lookupIndex_ok _ _ _ Hd).
  unfold bind.
  destruct (Mport.check_version n (after loc n) r s) as [[] s1 | h s1];
    reflexivity.
Qed.

Lemma resolve_split n e rest ver (s : state World) :
  let loc := Mport.last_dash n (String.length n) in
  mport_index_lookup_pkgname (world s) n = (MPORT_OK, Some []) ->
  0 < loc ->
  mport_index_lookup_pkgname (world s) (before loc n)
  = (MPORT_OK, Some (e :: rest)) ->
  ie_version e = Some ver ->
  Mport.resolve n s
  = if String.eqb (after loc n) ver then Ret (e :: rest) s
    else Halt (Exited 4) (said s (ErrNotInIndex n)).
Proof.
  intros loc H Hloc Hd Hver.
  rewrite (resolve_fallback _ _ _ H Hloc Hd). fold loc.
  unfold Mport.check_version, Mport.check_found, deref, hd_error, bind, ret.
  rewrite Hver.
  destruct (String.eqb (after loc n) ver); reflexivity.
Qed.

Lemma resolve_split_empty n (s : state World) :
  let loc := Mport.last_dash n (String.length n) in
  mport_index_lookup_pkgname (world s) n = (MPORT_OK, Some []) ->
  0 < loc ->
  mport_index_lookup_pkgname (world s) (before loc n)
  = (MPORT_OK, Some []) ->
  Mport.resolve n s = Halt NullDeref s.
Proof.
  intros loc H Hloc Hd.
  now rewrite (resolve_fallback _ _ _ H Hloc Hd).
Qed.

(** The comparison of the versions on a vector without a first entry,
    or whose first entry has no version: a NULL pointer is read. *)
Lemma check_version_unguarded n v r (s : state World) :
  r = None \/ r = Some []
  \/ (exists e rest, r = Some (e :: rest) /\ ie_version e = None) ->
  Mport.check_version n v r s = Halt NullDeref s.
Proof.
  intros [-> | [-> | (e & rest & -> & He)]]; try reflexivity.
  unfold Mport.check_version, bind, deref, ret, hd_error. now rewrite He.
Qed.

Lemma install_not_found fuel n (s : state World) :
  not_found (world s) n ->
  Mport.install fuel n s = Halt (Exited 4) (said s (ErrNotInIndex n)).
Proof.
  intros [H Hloc | e rest ver loc H Hloc Hd Hver Hne]; unfold Mport.install.
  - now rewrite (bind_halt _ _ _ _ _ (resolve_plain _ _ H Hloc)).
  - apply bind_halt. rewrite (resolve_split _ _ _ _ _ H Hloc Hd Hver).
    fold loc. destruct (String.eqb_spec (after loc n) ver); congruence.
Qed.
End InstallFacts.

Section MainFacts.
Context {World : Type} {lib : Libmport World}.

Lemma main_install fuel a args (s s0 : state World) :
  Mport.loadIndex s = Ret tt s0 ->
  Mport.main fuel ("install" :: a :: args) s
  = finish (Mport.batch (Mport.install fuel) (a :: args) MPORT_ERR_FATAL) s0.
Proof.
  intros H. unfold Mport.main, finish, bind. simpl. now rewrite H.
Qed.

Lemma main_delete fuel a args (s : state World) :
  Mport.main fuel ("delete" :: a :: args) s
  = finish (Mport.batch Mport.delete (a :: args) MPORT_ERR_FATAL) s.
Proof. reflexivity. Qed.

Lemma main_update fuel a args (s s0 : state World) :
  Mport.loadIndex s = Ret tt s0 ->
  Mport.main fuel ("update" :: a :: args) s
  = finish (Mport.batch (fun a => call (fun w => mport_update w a))
              (a :: args) MPORT_ERR_FATAL) s0.
Proof.
  intros H. unfold Mport.main, finish, bind. simpl. now rewrite H.
Qed.

Lemma finish_returns (m : M World Z) s cs s' op args :
  m = Mport.batch op args MPORT_ERR_FATAL ->
  returns op args s cs s' ->
  finish m s = Halt (Exited (last_nonzero cs MPORT_ERR_FATAL)) s'.
Proof.
  intros -> H. unfold finish.
  now rewrite (bind_ret _ _ _ _ _ (batch_returns _ _ _ _ _ H _)).
Qed.

Lemma main_batch fuel cmd a args (s s0 : state World) op :
  batch_of fuel cmd s s0 op ->
  Mport.main fuel (cmd :: a :: args) s
  = finish (Mport.batch op (a :: args) MPORT_ERR_FATAL) s0.
Proof.
  intros [s1 s2 H | s1 | s1 s2 H].
  - now apply main_install.
  - apply main_delete.
  - now apply main_update.
Qed.
End MainFacts.

(** ** The claims on the install resolver and on the batches of [main] *)

Section InstallClaims.
Context {World : Type} {lib : Libmport World}.

(** Where the lookup of the name brings a first match that has a
    version: [install] splits the specifier at its last '-', which lies
    behind the first character, into the name before it and the version
    behind it, and fails with "Package ... not found in the index"
    exactly when the version of the first match differs from the version
    in the specifier; otherwise it goes on with the matches of the
    name. *)
Lemma install_version_suffix fuel packageName e rest ver
    (s : state World) :
  let loc := Mport.last_dash packageName (String.length packageName) in
  mport_index_lookup_pkgname (world s) packageName = (MPORT_OK, Some []) ->
  0 < loc ->
  mport_index_lookup_pkgname (world s) (before loc packageName)
  = (MPORT_OK, Some (e :: rest)) ->
  ie_version e = Some ver ->
  packageName
  = (before loc packageName ++ "-" ++ after loc packageName)%string
  /\ (forall j, (Z.to_nat loc < j)%nat ->
                String.get j packageName <> Some "-"%char)
  /\ ((exists s', Mport.install fuel packageName s = Halt (Exited 4) s')
      <-> after loc packageName <> ver)
  /\ (after loc packageName <> ver ->
      Mport.install fuel packageName s
      = Halt (Exited 4) (said s (ErrNotInIndex packageName)))
  /\ (after loc packageName = ver ->
      Mport.install fuel packageName s = Mport.select fuel (e :: rest) s).
Proof.
  intros loc H Hloc Hd Hver.
  assert (Hne : after loc packageName <> ver ->
                Mport.install fuel packageName s
                = Halt (Exited 4) (said s (ErrNotInIndex packageName))).
  { intros Hv. apply install_not_found.
    now apply (not_found_version _ _ e rest ver). }
  assert (Heq : after loc packageName = ver ->
                Mport.install fuel packageName s
                = Mport.select fuel (e :: rest) s).
  { intros Hv. unfold Mport.install.
    rewrite (bind_ret _ _ _ (e :: rest) s); [reflexivity |].
    rewrite (resolve_split _ _ _ _ _ H Hloc Hd Hver). fold loc.
    rewrite Hv. now rewrite String.eqb_refl. }
  split; [| split; [| split; [| split]]]; auto.
  - apply split_at. apply last_dash_found. fold loc. lia.
  - intros j Hj.
    destruct (le_lt_dec (String.length packageName) j) as [Hout | Hin].
    + assert (String.get j packageName = None) as ->; [| discriminate].
      clear - Hout. revert j Hout.
      induction packageName as [| c p IH]; intros [| j] Hj; simpl in *;
        try reflexivity; try lia.
      apply IH. lia.
    + apply (last_dash_rightmost _ (String.length packageName)).
      fold loc. lia.
  - split.
    + intros [s' Hs'] Hv. rewrite (Heq Hv) in Hs'.
      now apply select_no_exit in Hs'.
    + intros Hv. eexists. now apply Hne.
Qed.

(** C5: what [install] does with a specifier whose own lookup is empty
    and whose last '-' lies behind the first character, for every
    answer of the lookup of the name before that '-'.  With a first
    match that has a version, it goes on with the matches when that
    version is the text behind the '-', and fails with "Package ... not
    found in the index" when it is not.  Without a first match, or with
    a first match without a version, it fails with no message at all:
    the comparison reads a NULL pointer. *)
Theorem install_version_suffix_cases fuel packageName r (s : state World) :
  let loc := Mport.last_dash packageName (String.length packageName) in
  mport_index_lookup_pkgname (world s) packageName = (MPORT_OK, Some []) ->
  0 < loc ->
  mport_index_lookup_pkgname (world s) (before loc packageName)
  = (MPORT_OK, r) ->
  Mport.install fuel packageName s
  = match r with
    | Some (e :: rest) =>
        match ie_version e with
        | Some ver =>
            if String.eqb (after loc packageName) ver
            then Mport.select fuel (e :: rest) s
            else Halt (Exited 4) (said s (ErrNotInIndex packageName))
        | None => Halt NullDeref s
        end
    | _ => Halt NullDeref s
    end.
Proof.
  intros loc H Hloc Hd. unfold Mport.install.
  destruct r as [[| e rest] |].
  - apply bind_halt. rewrite (resolve_fallback _ _ _ H Hloc Hd).
    reflexivity.
  - destruct (ie_version e) as [ver |] eqn:Hver.
    + pose proof (resolve_split _ _ _ _ _ H Hloc Hd Hver) as E.
      fold loc in E.
      destruct (String.eqb (after loc packageName) ver);
        [now rewrite (bind_ret _ _ _ _ _ E)
        | now rewrite (bind_halt _ _ _ _ _ E)].
    + apply bind_halt. rewrite (resolve_fallback _ _ _ H Hloc Hd).
      apply bind_halt. apply check_version_unguarded. right. right. eauto.
  - apply bind_halt. rewrite (resolve_fallback _ _ _ H Hloc Hd).
    reflexivity.
Qed.

(** C10: on the fallback path, whatever the lookup of the name before
    the last '-' returns, [install] first compares the versions and only
    then tests that something was found.  When that lookup is empty,
    so is the vector the comparison works on: it reads the version of
    the first entry of a vector that has none, a NULL pointer.  The
    test of lines 615-616, which on this vector reports "not found", is
    not reached, and no message is printed. *)
Theorem install_fallback_reads_terminator fuel packageName r
    (s : state World) :
  let loc := Mport.last_dash packageName (String.length packageName) in
  let v := after loc packageName in
  mport_index_lookup_pkgname (world s) packageName = (MPORT_OK, Some []) ->
  0 < loc ->
  mport_index_lookup_pkgname (world s) (before loc packageName)
  = (MPORT_OK, r) ->
  Mport.resolve packageName s
  = (Mport.check_version packageName v r ;;
     Mport.check_found packageName r) s
  /\ (r = Some [] ->
      Mport.check_version packageName v r s = Halt NullDeref s
      /\ Mport.check_found packageName r s
         = Halt (Exited 4) (said s (ErrNotInIndex packageName))
      /\ Mport.resolve packageName s = Halt NullDeref s
      /\ Mport.install fuel packageName s = Halt NullDeref s).
Proof.
  intros loc v H Hloc Hd. split.
  - apply (resolve_fallback _ _ _ H Hloc Hd).
  - intros ->. split; [reflexivity |]. split; [reflexivity |].
    pose proof (resolve_split_empty _ _ H Hloc Hd) as E.
    split; [exact E |]. unfold Mport.install. now apply bind_halt.
Qed.

(** C3: when the lookup returns N entries, N > 1, the input N does not
    make [install] ask again: the prompt loop is left with [choice] = N,
    [indexEntry] is stepped N times, onto the terminator of the vector,
    and the call of the installer dereferences it.  Nothing is installed.
    (The message of the loop names 0 - N-1 as the entries to select.) *)
Theorem install_choice_equal_to_count fuel packageName l rest
    (s : state World) :
  mport_index_lookup_pkgname (world s) packageName = (MPORT_OK, Some l) ->
  (1 < List.length l)%nat ->
  stdin s = TokInt (Z.of_nat (List.length l)) :: rest ->
  Mport.install (S fuel) packageName s
  = Halt NullDeref
      (mkState (world s) rest (trace s ++ OutMultipleFound :: numbered l 0)).
Proof.
  intros Hl Hn Hin. unfold Mport.install.
  destruct l as [| e l]; [simpl in Hn; lia |].
  rewrite (bind_ret _ _ _ _ _ (resolve_found _ _ _ _ Hl)).
  now apply select_count.
Qed.

(** C4, amended: a specifier that [install] reports as not found in
    the index ([not_found]: its lookup is empty and either it has no '-'
    behind its first character, or the first match of the name before
    its last '-' has a version that differs from the text behind it)
    ends the whole process on the spot, by [errx] with the code 4; the
    specifiers before it have been processed, those behind it are not.
    When the install of every specifier returns, all of them are
    processed in order and [exit] gets the last result code that is not
    0, MPORT_ERR_FATAL when all are 0. *)
Theorem main_install_batch fuel (s s0 : state World) :
  Mport.loadIndex s = Ret tt s0 ->
  (forall pre a post cs s1,
      returns (Mport.install fuel) pre s0 cs s1 ->
      not_found (world s1) a ->
      Mport.main fuel ("install" :: pre ++ a :: post) s
      = Halt (Exited 4) (said s1 (ErrNotInIndex a)))
  /\ (forall a args cs s',
         returns (Mport.install fuel) (a :: args) s0 cs s' ->
         Mport.main fuel ("install" :: a :: args) s
         = Halt (Exited (last_nonzero cs MPORT_ERR_FATAL)) s').
Proof.
  intros Hload. split.
  - intros pre a post cs s1 Hpre Hnf.
    assert (exists b l, (pre ++ a :: post)%list = b :: l) as (b & l & E).
    { destruct pre; simpl; eauto. }
    rewrite E, (main_install _ _ _ _ _ Hload), <- E.
    unfold finish. apply bind_halt.
    apply (batch_halts _ _ _ _ _ _ _ _ _ Hpre).
    now apply install_not_found.
  - intros a args cs s' Hret.
    rewrite (main_install _ _ _ _ _ Hload).
    now apply (finish_returns _ _ _ _ _ _ eq_refl).
Qed.

(** C9: in a batch of install, delete or update in which every
    operation returns 0, [main] calls [exit] with MPORT_ERR_FATAL, the
    initial value of [resultCode], and so with a code that is not 0. *)
Theorem main_batch_of_successes_exits_fatal fuel cmd a args
    (s s0 s' : state World) op cs :
  MPORT_ERR_FATAL <> 0 ->
  batch_of fuel cmd s s0 op ->
  returns op (a :: args) s0 cs s' ->
  Forall (fun c => c = 0) cs ->
  exists code,
    Mport.main fuel (cmd :: a :: args) s = Halt (Exited code) s'
    /\ code = MPORT_ERR_FATAL /\ code <> 0.
Proof.
  intros Hfatal Hcmd Hret Hzero. exists MPORT_ERR_FATAL.
  split; [| split]; auto.
  rewrite (main_batch _ _ _ _ _ _ _ Hcmd).
  rewrite (finish_returns _ _ _ _ _ _ eq_refl Hret).
  now rewrite last_nonzero_zeros.
Qed.
End InstallClaims.

(** *** The same, run against the store *)

Section InstallRuns.
Import Store Sample.

(** "foo-1.2" against an index whose entry foo has version 1.2: the
    specifier resolves to that entry, which is installed. *)
Lemma install_version_suffix_run :
  let s := start [] [foo_1_2] [] in
  Mport.install 1 "foo-1.2" s = Mport.select 1 [foo_1_2] s
  /\ Mport.install 1 "foo-1.2" s
     = Ret 0 (mkState
                (mkStore [explicit "foo" "1.2"] [foo_1_2] (Some "3.1"))
                [] []).
Proof.
  intros s.
  destruct (install_version_suffix 1 "foo-1.2" foo_1_2 [] "1.2" s)
    as (_ & _ & _ & _ & Hsame);
    [reflexivity | reflexivity | reflexivity | reflexivity |].
  split.
  - apply Hsame. reflexivity.
  - rewrite Hsame; reflexivity.
Defined.

(** "foo-1.2" against an index whose only entry foo has version 1.3:
    the package is not found. *)
Example install_version_suffix_other_version :
  Mport.install 1 "foo-1.2" (start [] [foo_1_3] [])
  = Halt (Exited 4)
      (mkState (mkStore [] [foo_1_3] (Some "3.1")) []
         [ErrNotInIndex "foo-1.2"]).
Proof. reflexivity. Qed.

(** "bar-1.2" against an index without any entry bar. *)
Lemma install_fallback_reads_terminator_witness :
  let s := start [] [foo_1_2] [] in
  Mport.check_version "bar-1.2" "1.2" (Some []) s = Halt NullDeref s
  /\ Mport.check_found "bar-1.2" (Some []) s
     = Halt (Exited 4) (said s (ErrNotInIndex "bar-1.2"))
  /\ Mport.resolve "bar-1.2" s = Halt NullDeref s
  /\ Mport.install 1 "bar-1.2" s = Halt NullDeref s.
Proof.
  intros s.
  apply (install_fallback_reads_terminator 1 "bar-1.2" (Some []) s);
    reflexivity.
Defined.

(** "bar-1.2" against an index without any entry bar, and "foo-1.2"
    against an index whose entry foo has no version: no "not found",
    a NULL pointer is read. *)
Lemma install_version_suffix_cases_witness :
  Mport.install 1 "bar-1.2" (start [] [foo_1_2] [])
  = Halt NullDeref (start [] [foo_1_2] [])
  /\ Mport.install 1 "foo-1.2" (start [] [mkEntry "foo" None None] [])
     = Halt NullDeref (start [] [mkEntry "foo" None None] []).
Proof.
  split.
  - apply (install_version_suffix_cases 1 "bar-1.2" (Some [])
             (start [] [foo_1_2] [])); reflexivity.
  - apply (install_version_suffix_cases 1 "foo-1.2"
             (Some [mkEntry "foo" None None])
             (start [] [mkEntry "foo" None None] [])); reflexivity.
Defined.

(** Two entries in the list, and the input 2. *)
Lemma install_choice_equal_to_count_witness :
  Mport.install 1 "foo" (start [] [foo_1_3; foo_1_4] [TokInt 2])
  = Halt NullDeref
      (mkState (mkStore [] [foo_1_3; foo_1_4] (Some "3.1")) []
         [OutMultipleFound;
          OutCandidate 0 "foo" (Some "1.3");
          OutCandidate 1 "foo" (Some "1.4")]).
Proof.
  apply (install_choice_equal_to_count 0 "foo" [foo_1_3; foo_1_4] []
           (start [] [foo_1_3; foo_1_4] [TokInt 2])).
  - reflexivity.
  - simpl. lia.
  - reflexivity.
Defined.

(** Inputs below the number of entries select; -1, 3 and a word that
    is no number make the loop ask again. *)
Example install_choice_in_range :
  Mport.install 3 "foo"
    (start [] [foo_1_3; foo_1_4] [TokInt (-1); TokInt 3; TokInt 1])
  = Ret 0
      (mkState
         (mkStore [explicit "foo" "1.4"] [foo_1_3; foo_1_4] (Some "3.1")) []
         [OutMultipleFound;
          OutCandidate 0 "foo" (Some "1.3");
          OutCandidate 1 "foo" (Some "1.4");
          ErrSelectEntry 1; ErrSelectEntry 1]).
Proof. reflexivity. Qed.

(** C4, as stated, fails: "nope" is in no index, and the batch of
    "nope" and "foo" ends at "nope" with exit code 4; "foo", which the
    index holds, is not installed. *)
Lemma install_batch_ends_at_missing :
  Mport.main 1 ["install"; "nope"; "foo"] (start [] [foo_1_3] [])
  = Halt (Exited 4)
      (mkState (mkStore [] [foo_1_3] (Some "3.1")) []
         [ErrNotInIndex "nope"])
  /\ ~ (exists code s',
          Mport.main 1 ["install"; "nope"; "foo"] (start [] [foo_1_3] [])
          = Halt (Exited code) s'
          /\ In "foo" (map pname (packages (world s')))).
Proof.
  assert (E : Mport.main 1 ["install"; "nope"; "foo"]
                (start [] [foo_1_3] [])
              = Halt (Exited 4)
                  (mkState (mkStore [] [foo_1_3] (Some "3.1")) []
                     [ErrNotInIndex "nope"])) by reflexivity.
  split; [exact E |].
  intros (code & s' & H & Hin). rewrite E in H.
  injection H as _ <-. exact Hin.
Qed.

Lemma main_install_batch_witness :
  let s := start [] [foo_1_3] [] in
  let s1 := mkState (mkStore [explicit "foo" "1.3"] [foo_1_3] (Some "3.1"))
              [] [] in
  Mport.main 1 ["install"; "foo"; "nope"; "foo"] s
  = Halt (Exited 4) (said s1 (ErrNotInIndex "nope"))
  /\ Mport.main 1 ["install"; "foo"] s = Halt (Exited 1) s1.
Proof.
  intros s s1.
  assert (Hload : Mport.loadIndex s = Ret tt s) by reflexivity.
  destruct (main_install_batch 1 s s Hload) as [Hstop Hall].
  split.
  - apply (Hstop ["foo"] "nope" ["foo"] [0] s1).
    + eapply returns_cons; [reflexivity | apply returns_nil].
    + apply not_found_plain; [reflexivity | simpl; lia].
  - apply (Hall "foo" [] [0] s1).
    eapply returns_cons; [reflexivity | apply returns_nil].
Defined.

Lemma main_batch_of_successes_exits_fatal_witness :
  exists code,
    Mport.main 1 ["delete"; "A"] (start [A] [] [])
    = Halt (Exited code) (mkState (mkStore [] [] (Some "3.1")) [] [])
    /\ code = MPORT_ERR_FATAL /\ code <> 0.
Proof.
  apply (main_batch_of_successes_exits_fatal 1 "delete" "A" []
           (start [A] [] []) (start [A] [] [])
           (mkState (mkStore [] [] (Some "3.1")) [] []) Mport.delete [0]).
  - discriminate.
  - apply batch_of_delete.
  - eapply returns_cons; [reflexivity | apply returns_nil].
  - repeat constructor.
Defined.
End InstallRuns.

(** ** The update listing of mport.list *)

Section ListFacts.
Context {World : Type} {lib : Libmport World}.

Lemma reports_app t1 t2 : reports (t1 ++ t2) = reports t1 ++ reports t2.
Proof. apply filter_app. Qed.

Lemma outdated_present p e os' (s : state World) :
  version p <> None -> ie_version e <> None ->
  exists t, MportList.outdated p e os' s = Ret (stale p os' e) (after_events s t)
            /\ reports t = [].
Proof.
  intros Hp He. unfold MportList.outdated, MportList.version_cmp, stale.
  destruct (ie_version e) as [ev |] eqn:Ev; [| congruence].
  destruct (version p) as [pv |] eqn:Pv; [| congruence].
  unfold bind, emit, ret, after_events. simpl.
  destruct (mport_version_cmp (Some pv) (Some ev) <? 0); simpl.
  - eexists. split; [reflexivity | reflexivity].
  - eexists. split; [rewrite <- app_assoc; reflexivity | reflexivity].
Qed.

Lemma compare_entries_present verbose p os' entries : forall (s : state World),
  version p <> None ->
  Forall (fun e => ie_version e <> None) entries ->
  exists t,
    MportList.compare_entries verbose p entries os' s
    = Ret tt (after_events s t)
    /\ reports t = map (report_line verbose p) (filter (stale p os') entries).
Proof.
  induction entries as [| e rest IH]; intros s Hp Hall.
  - exists []. unfold after_events. simpl. rewrite app_nil_r.
    split; [now destruct s | reflexivity].
  - inversion Hall as [| ? ? He Hrest]; subst.
    destruct (outdated_present p e os' s Hp He) as (t1 & E1 & R1).
    cbn [MportList.compare_entries]. rewrite (bind_ret _ _ _ _ _ E1).
    destruct (stale p os' e) eqn:St.
    + destruct (IH (after_events (after_events s t1)
                      [report_line verbose p e]) Hp Hrest) as (t2 & E2 & R2).
      unfold bind at 1, emit. fold (report_line verbose p e).
      change (mkState (world (after_events s t1)) (stdin (after_events s t1))
                (trace (after_events s t1) ++ [report_line verbose p e]))
        with (after_events (after_events s t1) [report_line verbose p e]).
      rewrite E2. exists (t1 ++ [report_line verbose p e] ++ t2). split.
      * unfold after_events; simpl. now rewrite <- !app_assoc.
      * rewrite !reports_app, R1, R2. simpl. now rewrite St.
    + destruct (IH (after_events s t1) Hp Hrest) as (t2 & E2 & R2).
      unfold bind at 1, ret at 1. rewrite E2. exists (t1 ++ t2). split.
      * unfold after_events; simpl. now rewrite <- !app_assoc.
      * rewrite reports_app, R1, R2. simpl. now rewrite St.
Qed.

(** What the condition does when a datum is missing: the comparison of
    the versions is guarded by the version of the entry, the comparison
    of the os_release by the version of the package. *)
Lemma outdated_missing_version p e os' ev (s : state World) :
  version p = None -> ie_version e = Some ev ->
  MportList.outdated p e os' s
  = Ret (mport_version_cmp None (Some ev) <? 0)
        (said s (CallVersionCmp None (Some ev))).
Proof.
  intros Hp He. unfold MportList.outdated, MportList.version_cmp.
  rewrite He, Hp. unfold bind, emit, ret, said. simpl.
  now destruct (mport_version_cmp None (Some ev) <? 0).
Qed.

Lemma outdated_missing_os_release p e os' pv ev (s : state World) :
  version p = Some pv -> os_release p = None -> ie_version e = Some ev ->
  0 <= mport_version_cmp (Some pv) (Some ev) ->
  MportList.outdated p e os' s
  = Ret (mport_version_cmp None os' <? 0)
        (after_events s [CallVersionCmp (Some pv) (Some ev);
                         CallVersionCmp None os']).
Proof.
  intros Hp Ho He Hcmp. unfold MportList.outdated, MportList.version_cmp.
  rewrite He, Hp, Ho. unfold bind, emit, ret, after_events. simpl.
  destruct (Z.ltb_spec (mport_version_cmp (Some pv) (Some ev)) 0); [lia |].
  simpl. now rewrite <- app_assoc.
Qed.

Lemma outdated_missing_entry_version p e os' (s : state World) :
  version p = None -> ie_version e = None ->
  MportList.outdated p e os' s = Ret false s.
Proof.
  intros Hp He. unfold MportList.outdated. now rewrite He, Hp.
Qed.

Lemma each_package_present f os' packs : forall (s : state World),
  MportList.f_update f = true ->
  Forall (comparable (world s)) packs ->
  exists t,
    MportList.each_package f packs os' s = Ret tt (after_events s t)
    /\ reports t
       = flat_map (fun p => map (report_line (MportList.f_verbose f) p)
                              (filter (stale p os') (matches (world s) p)))
           packs.
Proof.
  induction packs as [| p rest IH]; intros s Hu Hall.
  - exists []. unfold after_events. simpl. rewrite app_nil_r.
    split; [now destruct s | reflexivity].
  - inversion Hall as [| ? ? (Hp & Hok & Hes) Hrest]; subst.
    cbn [MportList.each_package flat_map]. rewrite Hu.
    unfold matches in *.
    destruct (mport_index_lookup_pkgname (world s) (name p))
      as [r indexEntries] eqn:L.
    simpl in Hok, Hes. subst r.
    assert (exists t1,
              (match indexEntries with
               | None | Some [] =>
                   emit (OutNoLongerAvailable (name p) (version p))
               | Some entries =>
                   MportList.compare_entries (MportList.f_verbose f) p entries os'
               end) s = Ret tt (after_events s t1)
              /\ reports t1
                 = map (report_line (MportList.f_verbose f) p)
                     (filter (stale p os')
                        match indexEntries with
                        | Some entries => entries
                        | None => []
                        end)) as (t1 & E1 & R1).
    { destruct indexEntries as [[| e es] |].
      - eexists. split; reflexivity.
      - now apply compare_entries_present.
      - eexists. split; reflexivity. }
    destruct (IH (after_events s t1) Hu Hrest) as (t2 & E2 & R2).
    exists (t1 ++ t2). split.
    + unfold bind at 1. unfold bind at 1. unfold ask. rewrite L.
      rewrite Z.eqb_refl. cbn [negb]. simpl snd in *. rewrite E1, E2.
      unfold after_events; simpl. now rewrite <- app_assoc.
    + rewrite reports_app, R1, R2. reflexivity.
Qed.

(** Where every installed package and every entry found has a version,
    the lines "name version < version" come out pair by pair: for each
    installed package [p], in the order of the list, and each index
    entry [e] that the lookup of its name returns, in the order of the
    lookup, the line of ([p], [e]) is printed if and only if the
    comparator puts the version of [p] below the version of [e], or puts
    the os_release of [p] below the os_release of the running system,
    whatever the first comparison gave. *)
Lemma list_updates_reports f (s : state World) w packs :
  MportList.f_update f = true ->
  mport_index_load (world s) = (MPORT_OK, w) ->
  mport_pkgmeta_list w = (MPORT_OK, Some packs) ->
  Forall (comparable w) packs ->
  exists t,
    MportList.main f s = Ret 0 (mkState w (stdin s) (trace s ++ t))
    /\ reports t
       = flat_map
           (fun p => map (report_line (MportList.f_verbose f) p)
                       (filter (stale p (mport_get_osrelease (world s)))
                          (matches w p)))
           packs.
Proof.
  intros Hu Hload Hlist Hall. unfold MportList.main.
  unfold bind at 1. unfold ask at 1. rewrite Hu.
  unfold bind at 1. unfold bind at 1. unfold call. rewrite Hload.
  rewrite Z.eqb_refl. cbn [negb]. unfold ret at 1.
  unfold bind at 1. unfold ask. cbn [world]. rewrite Hlist.
  rewrite Z.eqb_refl. cbn [negb].
  destruct (each_package_present f (mport_get_osrelease (world s)) packs
              (mkState w (stdin s) (trace s)) Hu Hall) as (t & E & R).
  exists t. unfold bind. rewrite E. split; [reflexivity | exact R].
Qed.
End ListFacts.

Section ListRuns.
Import Store Sample.

Lemma list_updates_reports_run :
  exists t,
    MportList.main update_flags
      (start [explicit "foo" "1.2"; old_build] [foo_1_2; foo_1_3; bar_2_0] [])
    = Ret 0 (mkState
               (mkStore [explicit "foo" "1.2"; old_build]
                  [foo_1_2; foo_1_3; bar_2_0] (Some "3.1")) [] t)
    /\ reports t = [OutOutdated "foo" (Some "1.2") None (Some "1.3");
                    OutOutdated "bar" (Some "2.0") None (Some "2.0")].
Proof.
  destruct (list_updates_reports update_flags
              (start [explicit "foo" "1.2"; old_build]
                 [foo_1_2; foo_1_3; bar_2_0] [])
              (mkStore [explicit "foo" "1.2"; old_build]
                 [foo_1_2; foo_1_3; bar_2_0] (Some "3.1"))
              [meta (explicit "foo" "1.2"); meta old_build])
    as (t & E & R).
  - reflexivity.
  - reflexivity.
  - reflexivity.
  - repeat constructor; discriminate.
  - exists t. split; [exact E | exact R].
Defined.

(** C8: the comparator is called with the missing datum.  A package
    without a version: the comparison of the versions is guarded by the
    version of the index entry, and the comparator gets NULL as the
    installed version.  A package with a version and without an
    os_release: the comparison of the os_release is guarded by the
    version of the package, and the comparator gets NULL as the
    os_release. *)
Theorem list_updates_compares_missing_data :
  MportList.main update_flags (start [no_version] [foo_1_3] [])
  = Ret 0 (mkState (mkStore [no_version] [foo_1_3] (Some "3.1")) []
             [CallVersionCmp None (Some "1.3")])
  /\ MportList.main update_flags (start [no_os_release] [foo_1_3] [])
     = Ret 0 (mkState (mkStore [no_os_release] [foo_1_3] (Some "3.1")) []
                [CallVersionCmp (Some "1.3") (Some "1.3");
                 CallVersionCmp None (Some "3.1")]).
Proof. split; reflexivity. Qed.

(** C2: a package without a version that was built for the release 3.0,
    on a system of release 3.1.  The comparator puts its os_release
    below the one of the system, so a line is due for every entry of
    its name; the listing prints none, because the comparison of the
    os_release sits behind the test of the version of the package.
    Against an entry without a version no comparison is made at all;
    against the entry 1.3 the versions are compared, the os_release is
    not. *)
Theorem list_updates_misses_old_build :
  stale (meta stale_build) (Some "3.1") foo_unversioned = true
  /\ MportList.main update_flags (start [stale_build] [foo_unversioned] [])
     = Ret 0 (start [stale_build] [foo_unversioned] [])
  /\ stale (meta stale_build) (Some "3.1") foo_1_3 = true
  /\ MportList.main update_flags (start [stale_build] [foo_1_3] [])
     = Ret 0 (mkState (mkStore [stale_build] [foo_1_3] (Some "3.1")) []
                [CallVersionCmp None (Some "1.3")]).
Proof. repeat split. Qed.
End ListRuns.

(** ** The bulk remover, run against the store *)

Section RemoverFacts.
Import Store.


Lemma delete_run n (s : state store) :
  Mport.delete n s
  = Ret (fst (delete_package (world s) n))
        (mkState (snd (delete_package (world s) n)) (stdin s) (trace s)).
Proof.
  unfold Mport.delete, call.
  change (system (world s) _) with (delete_package (world s) n).
  now destruct (delete_package (world s) n).
Qed.

(** *** One examination *)

Lemma examine_skips p total errors skip (s : state store) :
  dependents (packages (world s)) (name p) <> [] ->
  Mport.examine p total errors skip s = Ret (total, errors, skip + 1) s.
Proof.
  intros H. unfold Mport.examine, bind, ask. simpl.
  unfold pkgmeta_get_updepends.
  destruct (dependents (packages (world s)) (name p)); [congruence |].
  reflexivity.
Qed.

Lemma examine_deletes p total errors skip (s : state store) q :
  dependents (packages (world s)) (name p) = [] ->
  find (fun q => String.eqb (pname q) (name p)) (packages (world s)) = Some q ->
  locked (meta q) = 0 ->
  Mport.examine p total errors skip s
  = Ret (total + 1, errors, skip)
        (with_packages s (remove (packages (world s)) (name p))).
Proof.
  intros Hd Hf Hl. unfold Mport.examine. unfold bind at 1. unfold ask.
  simpl. unfold pkgmeta_get_updepends. rewrite Hd.
  unfold bind at 1. rewrite delete_run. unfold delete_package.
  rewrite Hf, Hl. reflexivity.
Qed.

Lemma examine_fails p total errors skip (s : state store) q :
  dependents (packages (world s)) (name p) = [] ->
  find (fun q => String.eqb (pname q) (name p)) (packages (world s)) = Some q ->
  locked (meta q) <> 0 ->
  Mport.examine p total errors skip s
  = Ret (total + 1, errors + 1, skip) (said s (ErrDeleting (name p))).
Proof.
  intros Hd Hf Hl. unfold Mport.examine. unfold bind at 1. unfold ask.
  simpl. unfold pkgmeta_get_updepends. rewrite Hd.
  unfold bind at 1. rewrite delete_run. unfold delete_package.
  rewrite Hf. destruct (Z.eqb_spec (locked (meta q)) 0); [contradiction |].
  simpl. destruct s as [[pk idx os] inp tr]. reflexivity.
Qed.

(** *** Lists of installed packages with distinct names *)

Lemma remove_absent pk n :
  ~ In n (map pname pk) -> remove pk n = pk.
Proof.
  induction pk as [| q pk IH]; intros H; simpl in *; [reflexivity |].
  destruct (String.eqb_spec (pname q) n) as [E | _]; simpl.
  - exfalso. auto.
  - f_equal. apply IH. auto.
Qed.

Lemma remove_unique kept p rest :
  NoDup (map pname (kept ++ p :: rest)) ->
  remove (kept ++ p :: rest) (pname p) = kept ++ rest.
Proof.
  intros H. rewrite map_app in H. simpl in H.
  pose proof (NoDup_remove_2 _ _ _ H) as Hnot.
  rewrite in_app_iff in Hnot.
  unfold remove. rewrite filter_app. simpl.
  rewrite String.eqb_refl. simpl.
  fold (remove kept (pname p)). fold (remove rest (pname p)).
  rewrite !remove_absent; auto.
Qed.

Lemma find_present kept p rest :
  exists q, find (fun q => String.eqb (pname q) (pname p)) (kept ++ p :: rest)
            = Some q /\ In q (kept ++ p :: rest).
Proof.
  destruct (find (fun q => String.eqb (pname q) (pname p)) (kept ++ p :: rest))
    as [q |] eqn:F.
  - exists q. split; [reflexivity |]. now apply find_some in F.
  - exfalso. pose proof (find_none _ _ F p (in_elt p kept rest)) as Hp.
    simpl in Hp. rewrite String.eqb_refl in Hp. discriminate.
Qed.

Lemma dependents_none pk n :
  dependents pk n = [] <-> forall q, In q pk -> requires q n = false.
Proof.
  unfold dependents. split.
  - intros H q Hq. destruct (requires q n) eqn:R; [| reflexivity].
    assert (In q (filter (fun q => requires q n) pk)) as Hin
      by (apply filter_In; auto).
    rewrite H in Hin. contradiction.
  - intros H. induction pk as [| q pk IH]; simpl; [reflexivity |].
    rewrite (H q) by (now left). apply IH. intros q' Hq'. apply H. now right.
Qed.



(** *** One pass *)

Lemma counts_eq (a b c a' b' c' : Z) :
  a = a' -> b = b' -> c = c' -> (a, b, c) = (a', b', c').
Proof. now intros -> -> ->. Qed.

Ltac counts := apply counts_eq; lia.


Lemma pass_all_skipped rest : forall (s : state store) total errors skip,
  (forall p, In p rest ->
             dependents (packages (world s)) (pname p) <> []) ->
  Mport.pass (map meta rest) total errors skip s
  = Ret (total, errors, skip + Z.of_nat (List.length rest)) s.
Proof.
  induction rest as [| p rest IH]; intros s total errors skip H.
  - simpl. unfold ret. now rewrite Z.add_0_r.
  - cbn [Mport.pass map].
    rewrite (bind_ret _ _ _ _ _
               (examine_skips (meta p) total errors skip s
                  (H p (or_introl eq_refl)))).
    rewrite IH by (intros q Hq; apply H; now right).
    f_equal. simpl List.length. counts.
Qed.

(** *** The loop over the passes *)

Lemma list_nonempty (s : state store) p rest :
  packages (world s) = p :: rest ->
  mport_pkgmeta_list (world s) = (MPORT_OK, Some (map meta (p :: rest))).
Proof. intros H. simpl. unfold pkgmeta_list. now rewrite H. Qed.

Lemma deleteAll_loop_S fuel snapshot total errors (s : state store) :
  Mport.deleteAll_loop (S fuel) (Some snapshot) total errors s
  = bind (Mport.pass snapshot total errors 0)
      (fun '(total, errors, skip) =>
         if skip =? 0 then
           emit (OutSummary (total - errors) errors total) ;; ret 0
         else
           '(r, packs) <- ask mport_pkgmeta_list ;;
           if negb (r =? MPORT_OK) then emit Warn ;; ret 1
           else Mport.deleteAll_loop fuel packs total errors) s.
Proof. reflexivity. Qed.


(** *** A store with a dependency cycle *)

Lemma dependents_some pk q n :
  In q pk -> requires q n = true -> dependents pk n <> [].
Proof.
  intros Hq Hr Hd. rewrite dependents_none in Hd.
  rewrite (Hd q Hq) in Hr. discriminate.
Qed.

Lemma cyclic_required cyc pk c :
  cyclic cyc pk -> In c cyc -> dependents pk (pname c) <> [].
Proof.
  intros (_ & Hincl & Hreq) Hc. destruct (Hreq c Hc) as (q & Hq & Hr).
  apply (dependents_some pk q); auto.
Qed.

Lemma remove_keeps pk n c :
  In c pk -> pname c <> n -> In c (remove pk n).
Proof.
  intros Hc Hn. apply filter_In. split; [exact Hc |].
  destruct (String.eqb_spec (pname c) n); [contradiction | reflexivity].
Qed.

(** The deletion of a package that nothing requires leaves the packages
    of a cycle installed, whether it succeeds or fails. *)
Lemma delete_package_keeps_cycle cyc (w : store) n :
  cyclic cyc (packages w) ->
  dependents (packages w) n = [] ->
  cyclic cyc (packages (snd (delete_package w n))).
Proof.
  intros Hc Hd. unfold delete_package.
  destruct (find _ (packages w)) as [q |]; [| exact Hc].
  destruct (negb (locked (meta q) =? 0)); [exact Hc |].
  destruct Hc as (Hne & Hincl & Hreq). simpl. repeat split; auto.
  intros c Hin. apply remove_keeps; [now apply Hincl |].
  intros E. apply (cyclic_required cyc (packages w) c); [| exact Hin |].
  - repeat split; auto.
  - now rewrite E.
Qed.

Lemma examine_keeps_cycle cyc p total errors skip (s : state store) :
  cyclic cyc (packages (world s)) ->
  exists total' errors' skip' s',
    Mport.examine p total errors skip s = Ret (total', errors', skip') s'
    /\ cyclic cyc (packages (world s'))
    /\ skip <= skip'
    /\ (dependents (packages (world s)) (name p) <> [] -> skip < skip').
Proof.
  intros Hc.
  destruct (dependents (packages (world s)) (name p)) as [| d ds] eqn:D.
  - unfold Mport.examine. unfold bind at 1. unfold ask. simpl.
    unfold pkgmeta_get_updepends. rewrite D.
    unfold bind at 1. rewrite delete_run.
    pose proof (delete_package_keeps_cycle cyc (world s) (name p) Hc D) as Hk.
    destruct (delete_package (world s) (name p)) as [rc w'].
    simpl in Hk. simpl fst. simpl snd.
    destruct (negb (rc =? 0)); unfold bind, emit, ret; simpl;
      eexists _, _, _, _; (split; [reflexivity |]);
      (split; [exact Hk |]); (split; [lia |]); intros H; congruence.
  - assert (Hd : dependents (packages (world s)) (name p) <> [])
      by (rewrite D; discriminate).
    rewrite (examine_skips p total errors skip s Hd).
    eexists _, _, _, _. split; [reflexivity |].
    split; [exact Hc |]. split; intros; lia.
Qed.

Lemma pass_keeps_cycle cyc packs : forall total errors skip (s : state store),
  cyclic cyc (packages (world s)) ->
  exists total' errors' skip' s',
    Mport.pass packs total errors skip s = Ret (total', errors', skip') s'
    /\ cyclic cyc (packages (world s'))
    /\ skip <= skip'
    /\ ((exists c, In c cyc /\ In (meta c) packs) -> skip < skip').
Proof.
  induction packs as [| p rest IH]; intros total errors skip s Hc.
  - eexists _, _, _, _. split; [reflexivity |].
    split; [exact Hc |]. split; [lia |]. intros (c & _ & []).
  - destruct (examine_keeps_cycle cyc p total errors skip s Hc)
      as (t1 & e1 & k1 & s1 & E1 & Hc1 & Hle1 & Hlt1).
    destruct (IH t1 e1 k1 s1 Hc1)
      as (t2 & e2 & k2 & s2 & E2 & Hc2 & Hle2 & Hlt2).
    exists t2, e2, k2, s2. cbn [Mport.pass].
    rewrite (bind_ret _ _ _ _ _ E1). split; [exact E2 |].
    split; [exact Hc2 |]. split; [lia |].
    intros (c & Hcyc & [E | Hin]).
    + enough (skip < k1) by lia. apply Hlt1. rewrite E.
      now apply (cyclic_required cyc).
    + enough (k1 < k2) by lia. apply Hlt2. eauto.
Qed.

Lemma loop_keeps_cycle cyc fuel : forall (s : state store) total errors,
  cyclic cyc (packages (world s)) ->
  exists s',
    Mport.deleteAll_loop fuel (Some (map meta (packages (world s))))
      total errors s
    = Halt Looping s'
    /\ cyclic cyc (packages (world s')).
Proof.
  induction fuel as [| fuel IH]; intros s total errors Hc.
  - exists s. split; [reflexivity | exact Hc].
  - rewrite deleteAll_loop_S.
    destruct (pass_keeps_cycle cyc (map meta (packages (world s)))
                total errors 0 s Hc)
      as (t1 & e1 & k1 & s1 & E1 & Hc1 & _ & Hlt).
    rewrite (bind_ret _ _ _ _ _ E1).
    assert (0 < k1) as Hk.
    { apply Hlt. destruct Hc as (Hne & Hincl & _).
      destruct cyc as [| c cyc]; [congruence |]. exists c.
      split; [now left |]. apply in_map. apply Hincl. now left. }
    replace (k1 =? 0) with false by (symmetry; apply Z.eqb_neq; lia).
    destruct (IH s1 t1 e1 Hc1) as (s' & E & Hc').
    exists s'. split; [| exact Hc'].
    destruct (packages (world s1)) as [| p rest] eqn:P.
    { destruct Hc1 as (Hne & Hincl & _).
      destruct cyc as [| c cyc]; [congruence |].
      destruct (Hincl c (or_introl eq_refl)). }
    unfold bind at 1. unfold ask. rewrite (list_nonempty s1 p rest P).
    rewrite Z.eqb_refl. cbn [negb]. exact E.
Qed.

Lemma loop_never_returns fuel : forall (s : state store) total errors,
  packages (world s) <> [] ->
  (forall p, In p (packages (world s)) ->
             dependents (packages (world s)) (pname p) <> []) ->
  Mport.deleteAll_loop fuel (Some (map meta (packages (world s))))
    total errors s
  = Halt Looping s.
Proof.
  induction fuel as [| fuel IH]; intros s total errors Hne Hall.
  - reflexivity.
  - rewrite deleteAll_loop_S.
    rewrite (bind_ret _ _ _ _ _ (pass_all_skipped _ s total errors 0 Hall)).
    destruct (packages (world s)) as [| p rest] eqn:P; [congruence |].
    replace (0 + Z.of_nat (List.length (p :: rest)) =? 0) with false
      by (symmetry; apply Z.eqb_neq; simpl List.length; lia).
    unfold bind at 1. unfold ask. rewrite (list_nonempty s p rest P).
    rewrite Z.eqb_refl. cbn [negb]. rewrite <- P. apply IH.
    + rewrite P. discriminate.
    + now rewrite P.
Qed.
Lemma deleteAll_nonempty fuel (s : state store) :
  packages (world s) <> [] ->
  Mport.deleteAll fuel s
  = Mport.deleteAll_loop fuel (Some (map meta (packages (world s)))) 0 0 s.
Proof.
  intros H. destruct (packages (world s)) as [| p rest] eqn:P; [congruence |].
  unfold Mport.deleteAll. unfold bind at 1. unfold ask.
  now rewrite (list_nonempty s p rest P).
Qed.

Lemma remove_gone pk n : ~ In n (map pname (remove pk n)).
Proof.
  unfold remove. rewrite in_map_iff. intros (q & Hn & Hq).
  apply filter_In in Hq. destruct Hq as [_ Hq].
  rewrite <- Hn, String.eqb_refl in Hq. discriminate.
Qed.

(** *** The claims on the bulk remover *)

(** C1: on every installed set whose dependency relation contains a
    cycle, [deleteAll] does not return, however many passes it is given:
    the packages of the cycle are skipped in every pass, so every pass
    ends with [skip] above 0 and is followed by another pass.  There is
    no exit for a pass without progress and no error for it. *)
Theorem deleteAll_never_returns_on_cycle cyc (s : state store) fuel :
  cyclic cyc (packages (world s)) ->
  exists s',
    Mport.deleteAll fuel s = Halt Looping s'
    /\ cyclic cyc (packages (world s')).
Proof.
  intros Hc. rewrite deleteAll_nonempty.
  - now apply loop_keeps_cycle.
  - destruct Hc as (Hne & Hincl & _). intros E. rewrite E in Hincl.
    destruct cyc as [| c cyc]; [congruence |].
    destruct (Hincl c (or_introl eq_refl)).
Qed.
End RemoverFacts.

Section RemoverRuns.
Import Store Sample.



Example deleteAll_A_B :
  Mport.pass [meta A; meta B] 0 0 0 (start [A; B] [] [])
  = Ret (1, 0, 1) (start [A] [] [])
  /\ Mport.deleteAll 1 (start [A; B] [] []) = Halt Looping (start [A] [] [])
  /\ Mport.deleteAll 2 (start [A; B] [] [])
     = Ret 0 (said (start [] [] []) (OutSummary 2 0 2)).
Proof. repeat split. Qed.


(** C7, as stated, fails.  B requires A and is listed before it: B is
    the only dependent of A when the first pass begins; that pass deletes
    B and then A, so A is deleted in the pass of the deletion of its
    dependent and is not there at the beginning of the next pass.  And a
    locked A listed before B: the first pass skips A and deletes B, the
    second fails to delete A, and [deleteAll] returns with A installed. *)
Lemma pass_deletes_package_with_its_dependent :
  dependents [B; A] "A" = [B]
  /\ Mport.pass [meta B; meta A] 0 0 0 (start [B; A] [] [])
     = Ret (2, 0, 0) (start [] [] [])
  /\ ~ (exists counts s',
          Mport.pass [meta B; meta A] 0 0 0 (start [B; A] [] [])
          = Ret counts s'
          /\ In "A" (map pname (packages (world s'))))
  /\ Mport.pass [meta AL; meta B] 0 0 0 (start [AL; B] [] [])
     = Ret (1, 0, 1) (start [AL] [] [])
  /\ Mport.deleteAll 2 (start [AL; B] [] [])
     = Ret 0 (after_events (start [AL] [] [])
                [ErrDeleting "A"; OutSummary 1 1 2]).
Proof.
  assert (E : Mport.pass [meta B; meta A] 0 0 0 (start [B; A] [] [])
              = Ret (2, 0, 0) (start [] [] [])) by reflexivity.
  split; [reflexivity |]. split; [exact E |].
  split; [| split; reflexivity].
  intros (counts & s' & H & Hin). rewrite E in H.
  injection H as _ <-. exact Hin.
Qed.

Lemma cyclic_A'_B' : cyclic [A'; B'] [A'; B'].
Proof.
  split; [discriminate |]. split; [apply incl_refl |].
  intros p [<- | [<- | []]].
  - exists B'. split; [right; now left | reflexivity].
  - exists A'. split; [now left | reflexivity].
Qed.

(** A and B require each other: five passes, and no end. *)
Lemma deleteAll_never_returns_on_cycle_witness :
  exists s',
    Mport.deleteAll 5 (start [A'; B'] [] []) = Halt Looping s'
    /\ cyclic [A'; B'] (packages (world s'))
    /\ trace s' = [].
Proof.
  destruct (deleteAll_never_returns_on_cycle [A'; B'] (start [A'; B'] [] []) 5
              cyclic_A'_B') as (s' & E & Hc).
  exists s'. split; [exact E |]. split; [exact Hc |].
  assert (E' : Mport.deleteAll 5 (start [A'; B'] [] [])
               = Halt Looping (start [A'; B'] [] [])) by reflexivity.
  rewrite E' in E. now injection E as <-.
Defined.

(** The same for any number of passes: every pass skips both packages,
    deletes nothing, prints nothing, and is followed by another pass. *)
Example deleteAll_two_cycle fuel :
  Mport.deleteAll fuel (start [A'; B'] [] [])
  = Halt Looping (start [A'; B'] [] []).
Proof.
  rewrite deleteAll_nonempty by discriminate.
  apply loop_never_returns.
  - discriminate.
  - intros p [<- | [<- | []]]; discriminate.
Qed.
End RemoverRuns.

(** ** Further properties of the install resolver *)

Section InstallMore.
Context {World : Type} {lib : Libmport World}.

Lemma get_beyond s : forall j,
  (String.length s <= j)%nat -> String.get j s = None.
Proof.
  induction s as [| c s IH]; intros [| j] Hj; simpl in *;
    try reflexivity; try lia.
  apply IH. lia.
Qed.

(** X1: the scan of [install] finds the last '-' of the specifier: the
    result is -1 exactly when the specifier holds no '-', and otherwise
    the position of a '-' behind which there is no other. *)
Theorem last_dash_is_rightmost packageName :
  let loc := Mport.last_dash packageName (String.length packageName) in
  (loc = -1 /\ forall j, String.get j packageName <> Some "-"%char)
  \/ (0 <= loc < Z.of_nat (String.length packageName)
      /\ String.get (Z.to_nat loc) packageName = Some "-"%char
      /\ forall j, (Z.to_nat loc < j)%nat ->
                   String.get j packageName <> Some "-"%char).
Proof.
  intros loc.
  pose proof (last_dash_range packageName (String.length packageName)) as R.
  fold loc in R.
  assert (Hafter : forall j, (Z.to_nat (loc + 1) <= j)%nat ->
                             String.get j packageName <> Some "-"%char).
  { intros j Hj.
    destruct (le_lt_dec (String.length packageName) j) as [Hout | Hin].
    - now rewrite (get_beyond _ _ Hout).
    - apply (last_dash_rightmost _ (String.length packageName)).
      fold loc. lia. }
  destruct (Z_lt_ge_dec loc 0) as [Hneg | Hpos].
  - left. split; [lia |]. intros j. apply Hafter.
    replace loc with (-1) by lia. simpl. lia.
  - right. split; [lia |]. split.
    + apply last_dash_found. fold loc. lia.
    + intros j Hj. apply Hafter. lia.
Qed.

(** X2: a specifier that the index holds under exactly one entry is
    installed as it is: that entry goes to the installer, nothing is
    asked and nothing is read, whether the specifier holds a '-' or
    not, and the result is the result of the installer. *)
Theorem install_single_match fuel packageName e (s : state World) :
  mport_index_lookup_pkgname (world s) packageName = (MPORT_OK, Some [e]) ->
  Mport.install fuel packageName s
  = Ret (fst (mport_install_depends (world s) (pkgname e) (ie_version e)))
        (mkState
           (snd (mport_install_depends (world s) (pkgname e) (ie_version e)))
           (stdin s) (trace s)).
Proof.
  intros H. unfold Mport.install.
  rewrite (bind_ret _ _ _ _ _ (resolve_found _ _ _ _ H)).
  rewrite select_single. unfold call.
  now destruct (mport_install_depends (world s) (pkgname e) (ie_version e)).
Qed.

(** A word that the conversion takes as a whole is read like the
    [TokInt] of the value stored. *)
Lemma integer_word choice w v rest (w0 : World) t :
  converts (TokOther w) = Some v ->
  scanf_d choice (mkState w0 (TokOther w :: rest) t)
  = scanf_d choice (mkState w0 (TokInt v :: rest) t).
Proof.
  unfold converts, scanf_d. cbn [stdin world trace].
  destruct (scan_d w) as [n [| c r] | r]; try discriminate.
  now intros [= <-].
Qed.

Lemma scanf_d_converts choice t v rest (s : state World) :
  stdin s = t :: rest ->
  converts t = Some v ->
  scanf_d choice s = Ret (1, v) (mkState (world s) rest (trace s)).
Proof.
  intros Hin Hv. unfold scanf_d. rewrite Hin.
  destruct t as [n | w]; simpl in Hv.
  - now injection Hv as <-.
  - destruct (scan_d w) as [n [| c r] | r]; try discriminate.
    now injection Hv as <-.
Qed.

Lemma read_choice_rejects_all bad : forall fuel item choice t k rest
    (s : state World),
  stdin s = bad ++ t :: rest ->
  Forall (fun b => exists v, converts b = Some v /\ (v < 0 \/ item < v)) bad ->
  converts t = Some k ->
  0 <= k <= item ->
  Mport.read_choice (List.length bad + S fuel) item choice s
  = Ret k (mkState (world s) rest
             (trace s ++ repeat (ErrSelectEntry (item - 1)) (List.length bad))).
Proof.
  induction bad as [| b bad IH]; intros fuel item choice t k rest s Hin Hbad
    Ht Hk.
  - cbn [List.length Nat.add app repeat] in *.
    rewrite read_choice_S, (scanf_d_converts _ _ _ _ _ Hin Ht).
    destruct (Z.gtb_spec k item); [lia |].
    destruct (Z.ltb_spec k 0); [lia |]. simpl. now rewrite app_nil_r.
  - inversion Hbad as [| ? ? (v & Hb & Hv) Hrest]; subst.
    cbn [List.length Nat.add app] in *.
    rewrite read_choice_S, (scanf_d_converts _ _ _ _ _ Hin Hb).
    replace ((1 <? 1) || (v >? item) || (v <? 0)) with true
      by (destruct (Z.gtb_spec v item), (Z.ltb_spec v 0); simpl; lia).
    rewrite (IH fuel item v t k rest) by (simpl; auto).
    simpl. now rewrite <- app_assoc.
Qed.

(** X3: when the lookup returns several entries, every word that the
    conversion takes as a whole and stores as an [int] below 0 or above
    their count costs one more "Please select an entry" and is gone;
    the first word stored as a [k] from 0 to below the count ends the
    loop, and the [k]-th entry, counted from 0 in the order of the
    lookup, goes to the installer.  What was typed behind it is left
    unread.  The value that counts is the one stored: a number beyond
    the range of [int] selects by its low 32 bits. *)
Theorem install_asks_until_in_range fuel packageName l bad t k e rest
    (s : state World) :
  mport_index_lookup_pkgname (world s) packageName = (MPORT_OK, Some l) ->
  (1 < List.length l)%nat ->
  stdin s = bad ++ t :: rest ->
  Forall (fun b => exists v, converts b = Some v
                             /\ (v < 0 \/ Z.of_nat (List.length l) < v)) bad ->
  converts t = Some k ->
  0 <= k < Z.of_nat (List.length l) ->
  nth_error l (Z.to_nat k) = Some e ->
  Mport.install (List.length bad + S fuel) packageName s
  = call (fun w => mport_install_depends w (pkgname e) (ie_version e))
      (mkState (world s) rest
         (trace s ++ OutMultipleFound :: numbered l 0
          ++ repeat (ErrSelectEntry (Z.of_nat (List.length l) - 1))
               (List.length bad))).
Proof.
  intros Hl Hn Hin Hbad Ht Hk He. unfold Mport.install.
  destruct l as [| e0 l]; [simpl in Hn; lia |].
  rewrite (bind_ret _ _ _ _ _ (resolve_found _ _ _ _ Hl)).
  unfold Mport.select.
  destruct (nth_error (e0 :: l) 1) eqn:H1;
    [| apply nth_error_None in H1; lia].
  unfold bind at 1. unfold bind at 1. unfold emit.
  unfold bind at 1. rewrite list_entries_run. cbn [world stdin trace].
  unfold bind at 1. rewrite Z.add_0_l.
  erewrite read_choice_rejects_all; [| exact Hin | exact Hbad | exact Ht | lia].
  unfold ret. cbn [world stdin trace].
  rewrite hd_skipn, He. unfold deref, bind, ret.
  rewrite <- !app_assoc. reflexivity.
Qed.

Lemma read_choice_starved fuel : forall item choice (s : state World),
  stdin s = []
  \/ (exists w rest, stdin s = TokOther w :: rest /\ no_number w = true) ->
  exists t,
    Mport.read_choice fuel item choice s = Halt Looping (after_events s t).
Proof.
  induction fuel as [| fuel IH]; intros item choice s Hin.
  - exists []. unfold after_events. rewrite app_nil_r. now destruct s.
  - assert (E : Mport.read_choice (S fuel) item choice s
                = Mport.read_choice fuel item choice
                    (said s (ErrSelectEntry (item - 1)))).
    { destruct Hin as [Hin | (w & rest & Hin & Hw)].
      - apply (read_choice_eof _ _ _ _ Hin).
      - apply (read_choice_mismatch _ _ _ _ _ _ Hin Hw). }
    rewrite E.
    destruct (IH item choice (said s (ErrSelectEntry (item - 1))) Hin)
      as (t & Et).
    exists (ErrSelectEntry (item - 1) :: t). rewrite Et.
    unfold after_events, said. simpl. now rewrite <- app_assoc.
Qed.

(** X4: when the lookup returns several entries and the input is at its
    end, or its next word begins with neither a digit nor a sign,
    [install] does not get out of the prompt loop, however long it
    runs: [scanf] stores nothing and reads nothing, so the same happens
    at every turn.  Nothing is installed and the input stays as it
    is. *)
Theorem install_prompt_never_ends fuel packageName l (s : state World) :
  mport_index_lookup_pkgname (world s) packageName = (MPORT_OK, Some l) ->
  (1 < List.length l)%nat ->
  stdin s = []
  \/ (exists w rest, stdin s = TokOther w :: rest /\ no_number w = true) ->
  exists s',
    Mport.install fuel packageName s = Halt Looping s'
    /\ world s' = world s /\ stdin s' = stdin s.
Proof.
  intros Hl Hn Hin. unfold Mport.install.
  destruct l as [| e0 l]; [simpl in Hn; lia |].
  rewrite (bind_ret _ _ _ _ _ (resolve_found _ _ _ _ Hl)).
  unfold Mport.select.
  destruct (nth_error (e0 :: l) 1) eqn:H1;
    [| apply nth_error_None in H1; lia].
  unfold bind at 1. unfold bind at 1. unfold emit.
  unfold bind at 1. rewrite list_entries_run. cbn [world stdin trace].
  unfold bind at 1.
  match goal with
  | |- context [Mport.read_choice fuel ?i 0 ?st] =>
      destruct (read_choice_starved fuel i 0 st Hin) as (t & E); rewrite E
  end.
  eexists. split; [reflexivity |]. split; reflexivity.
Qed.

(** X23: when the lookup returns several entries and the next word
    begins with a number in range and goes on with other characters,
    the conversion takes the number and the entry of that number is
    installed; the rest of the word stays in the input as the next
    word. *)
Theorem install_takes_numeric_prefix fuel packageName l w k r e rest
    (s : state World) :
  mport_index_lookup_pkgname (world s) packageName = (MPORT_OK, Some l) ->
  (1 < List.length l)%nat ->
  stdin s = TokOther w :: rest ->
  scan_d w = Converted k r ->
  0 <= stored k < Z.of_nat (List.length l) ->
  nth_error l (Z.to_nat (stored k)) = Some e ->
  Mport.install (S fuel) packageName s
  = call (fun w => mport_install_depends w (pkgname e) (ie_version e))
      (mkState (world s) (unread_word r rest)
         (trace s ++ OutMultipleFound :: numbered l 0)).
Proof.
  intros Hl Hn Hin Hw Hk He. unfold Mport.install.
  destruct l as [| e0 l]; [simpl in Hn; lia |].
  rewrite (bind_ret _ _ _ _ _ (resolve_found _ _ _ _ Hl)).
  unfold Mport.select.
  destruct (nth_error (e0 :: l) 1) eqn:H1;
    [| apply nth_error_None in H1; lia].
  unfold bind at 1. unfold bind at 1. unfold emit.
  unfold bind at 1. rewrite list_entries_run. cbn [world stdin trace].
  unfold bind at 1. rewrite Z.add_0_l.
  rewrite read_choice_S. unfold scanf_d. cbn [stdin world trace].
  rewrite Hin, Hw.
  destruct (Z.gtb_spec (stored k) (Z.of_nat (List.length (e0 :: l))));
    [lia |].
  destruct (Z.ltb_spec (stored k) 0); [lia |].
  change ((1 <? 1) || false || false) with false. cbv iota.
  unfold ret. rewrite hd_skipn, He. unfold deref, bind, ret.
  rewrite <- !app_assoc. reflexivity.
Qed.
End InstallMore.

(** ** Further properties of the batches and of the bulk remover *)

Section RemoverMore.
Context {World : Type} {lib : Libmport World}.

Lemma batch_calls (f : World -> string -> Z * World) args :
  forall rc (s : state World),
    Mport.batch (fun a => call (fun w => f w a)) args rc s
    = Ret (last_nonzero (fst (calls f (world s) args)) rc)
          (mkState (snd (calls f (world s) args)) (stdin s) (trace s)).
Proof.
  induction args as [| a rest IH]; intros rc s.
  - simpl. unfold ret. now destruct s.
  - cbn [Mport.batch calls]. unfold bind at 1. unfold call at 1.
    destruct (f (world s) a) as [c w1]. rewrite IH. cbn [world stdin trace].
    destruct (calls f w1 rest) as [cs w2]. reflexivity.
Qed.

Lemma calls_length (f : World -> string -> Z * World) args : forall w,
  List.length (fst (calls f w args)) = List.length args.
Proof.
  induction args as [| a rest IH]; intros w; [reflexivity |].
  cbn [calls]. destruct (f w a) as [c w1]. specialize (IH w1).
  destruct (calls f w1 rest) as [cs w2]. simpl in *. now rewrite IH.
Qed.

Lemma last_nonzero_cases cs : forall d,
  (forallb (Z.eqb 0) cs = true /\ last_nonzero cs d = d)
  \/ (forallb (Z.eqb 0) cs = false /\ In (last_nonzero cs d) cs).
Proof.
  unfold last_nonzero.
  induction cs as [| c cs IH]; intros d; [now left |].
  cbn [fold_left forallb].
  destruct (Z.eqb_spec c 0) as [-> | Hc]; cbn [negb].
  - destruct (IH d) as [[Hz E] | [Hz Hin]]; [left | right];
      (split; [exact Hz |]); [exact E | now right].
  - right. replace (0 =? c) with false by (symmetry; apply Z.eqb_neq; lia).
    split; [reflexivity |].
    destruct (IH c) as [[_ E] | [_ Hin]]; [left; now rewrite E | now right].
Qed.

(** X5: a batch of delete runs the deletion command of every argument,
    in order, whatever the commands before it returned; [exit] then
    gets the last result that is not 0, and MPORT_ERR_FATAL when all
    are 0.  The exit status of the process is that number modulo 256:
    when the results are wait statuses of commands that have exited,
    which are multiples of 256, the status is 0 as soon as one deletion
    has failed. *)
Theorem main_delete_runs_every_argument fuel a args (s : state World) :
  let run := calls (fun w n => system w (delete_command n)) (world s)
               (a :: args) in
  Mport.main fuel ("delete" :: a :: args) s
  = Halt (Exited (last_nonzero (fst run) MPORT_ERR_FATAL))
         (mkState (snd run) (stdin s) (trace s))
  /\ List.length (fst run) = List.length (a :: args)
  /\ (Forall (fun rc => rc mod 256 = 0) (fst run) ->
      exit_status (last_nonzero (fst run) MPORT_ERR_FATAL)
      = if forallb (Z.eqb 0) (fst run) then exit_status MPORT_ERR_FATAL
        else 0).
Proof.
  intros run. split; [| split; [apply calls_length |]].
  - rewrite main_delete. unfold finish.
    change Mport.delete
      with (fun n : string =>
              call (fun w : World => system w (delete_command n))).
    rewrite (bind_ret _ _ _ _ _
               (batch_calls (fun w n => system w (delete_command n))
                  (a :: args) MPORT_ERR_FATAL s)).
    reflexivity.
  - intros Hwait.
    destruct (last_nonzero_cases (fst run) MPORT_ERR_FATAL)
      as [[-> ->] | [-> Hin]]; [reflexivity |].
    unfold exit_status. rewrite Forall_forall in Hwait. now apply Hwait.
Qed.

(** *** The counters of [deleteAll] *)

Lemma examine_counts p total errors skip (s : state World) :
  exists total' errors' skip' s',
    Mport.examine p total errors skip s = Ret (total', errors', skip') s'
    /\ total <= total' /\ errors <= errors' /\ skip <= skip'
    /\ errors' - errors <= total' - total
    /\ (total' - total) + (skip' - skip) <= 1.
Proof.
  unfold Mport.examine. unfold bind at 1. unfold ask.
  destruct (mport_pkgmeta_get_updepends (world s) p) as [r depends].
  destruct (r =? MPORT_OK).
  - destruct depends as [ds |].
    + eexists _, _, _, _. split; [reflexivity | lia].
    + unfold bind at 1. unfold Mport.delete, call.
      destruct (system (world s) _) as [rc w']. cbn [world stdin trace].
      destruct (negb (rc =? 0)); unfold bind, emit, ret;
        eexists _, _, _, _; (split; [reflexivity | lia]).
  - eexists _, _, _, _. split; [reflexivity | lia].
Qed.

Lemma pass_counts packs : forall total errors skip (s : state World),
  exists total' errors' skip' s',
    Mport.pass packs total errors skip s = Ret (total', errors', skip') s'
    /\ total <= total' /\ errors <= errors' /\ skip <= skip'
    /\ errors' - errors <= total' - total
    /\ (total' - total) + (skip' - skip) <= Z.of_nat (List.length packs).
Proof.
  induction packs as [| p rest IH]; intros total errors skip s.
  - eexists _, _, _, _. split; [reflexivity | simpl; lia].
  - destruct (examine_counts p total errors skip s)
      as (t1 & e1 & k1 & s1 & E1 & H1).
    destruct (IH t1 e1 k1 s1) as (t2 & e2 & k2 & s2 & E2 & H2).
    exists t2, e2, k2, s2. cbn [Mport.pass].
    rewrite (bind_ret _ _ _ _ _ E1). split; [exact E2 |].
    simpl List.length. lia.
Qed.

Lemma deleteAll_loop_outcomes fuel :
  forall packs total errors (s s' : state World) rc,
    0 <= errors <= total ->
    Mport.deleteAll_loop fuel packs total errors s = Ret rc s' ->
    (rc = 0 /\ exists pre deleted errored total',
                 trace s' = pre ++ [OutSummary deleted errored total']
                 /\ 0 <= errored <= total'
                 /\ deleted = total' - errored
                 /\ total <= total')
    \/ (rc = 1 /\ exists pre, trace s' = pre ++ [Warn]).
Proof.
  induction fuel as [| fuel IH]; intros packs total errors s s' rc Hc H.
  - discriminate.
  - cbn [Mport.deleteAll_loop] in H. unfold bind at 1 in H.
    destruct packs as [snapshot |]; [| discriminate]. simpl in H.
    destruct (pass_counts snapshot total errors 0 s)
      as (t1 & e1 & k1 & s1 & E1 & H1).
    rewrite (bind_ret _ _ _ _ _ E1) in H.
    destruct (k1 =? 0).
    + unfold bind, emit, ret in H. injection H as <- <-. left.
      split; [reflexivity |].
      exists (trace s1), (t1 - e1), e1, t1. simpl.
      split; [reflexivity | lia].
    + unfold bind at 1 in H. unfold ask in H.
      destruct (mport_pkgmeta_list (world s1)) as [r packs'].
      destruct (negb (r =? MPORT_OK)).
      * unfold bind, emit, ret in H. injection H as <- <-. right.
        split; [reflexivity |]. now exists (trace s1).
      * assert (H0 : 0 <= e1 <= t1) by lia.
        destruct (IH packs' t1 e1 s1 s' rc H0 H)
          as [(-> & pre & d & e & t & Ht & He & Hd & Hle) | Hwarn].
        -- left. split; [reflexivity |]. exists pre, d, e, t.
           repeat split; auto; lia.
        -- now right.
Qed.

(** X6: [deleteAll] returns 0 or 1 and nothing else.  It returns 0 only
    behind the summary, whose numbers satisfy 0 <= errors <= total and
    deleted = total - errors, so none of the three is negative; it
    returns 1 only behind the warning of a failed listing or behind "No
    packages installed". *)
Theorem deleteAll_returns fuel (s s' : state World) rc :
  Mport.deleteAll fuel s = Ret rc s' ->
  (rc = 0 /\ exists pre deleted errored total,
               trace s' = pre ++ [OutSummary deleted errored total]
               /\ 0 <= errored <= total
               /\ 0 <= deleted
               /\ deleted = total - errored)
  \/ (rc = 1 /\ exists pre, trace s' = pre ++ [Warn]
                             \/ trace s' = pre ++ [ErrNoPackages]).
Proof.
  unfold Mport.deleteAll. unfold bind at 1. unfold ask. intros H.
  destruct (mport_pkgmeta_list (world s)) as [r packs].
  destruct (negb (r =? MPORT_OK)).
  - unfold bind, emit, ret in H. injection H as <- <-. right.
    split; [reflexivity |]. exists (trace s). now left.
  - destruct packs as [snapshot |].
    + assert (H0 : 0 <= 0 <= 0) by lia.
      destruct (deleteAll_loop_outcomes fuel (Some snapshot) 0 0 s s' rc H0 H)
        as [(-> & pre & d & e & t & Ht & He & Hd & _) | (-> & pre & Hw)].
      * left. split; [reflexivity |]. exists pre, d, e, t.
        repeat split; auto; lia.
      * right. split; [reflexivity |]. exists pre. now left.
    + unfold bind, emit, ret in H. injection H as <- <-. right.
      split; [reflexivity |]. exists (trace s). now right.
Qed.

Lemma pass_queries_fail packs : forall total errors skip (s : state World),
  (forall p, In p packs ->
             fst (mport_pkgmeta_get_updepends (world s) p) <> MPORT_OK) ->
  Mport.pass packs total errors skip s = Ret (total, errors, skip) s.
Proof.
  induction packs as [| p rest IH]; intros total errors skip s H.
  - reflexivity.
  - cbn [Mport.pass]. unfold bind at 1. unfold Mport.examine at 1.
    unfold bind at 1. unfold ask.
    pose proof (H p (or_introl eq_refl)) as Hp.
    destruct (mport_pkgmeta_get_updepends (world s) p) as [r depends].
    simpl in Hp. destruct (Z.eqb_spec r MPORT_OK); [contradiction |].
    unfold ret at 1. apply IH. intros q Hq. apply H. now right.
Qed.

Lemma examine_query_fails p total errors skip (s : state World) :
  fst (mport_pkgmeta_get_updepends (world s) p) <> MPORT_OK ->
  Mport.examine p total errors skip s = Ret (total, errors, skip) s.
Proof.
  intros Hp. unfold Mport.examine. unfold bind at 1. unfold ask.
  destruct (mport_pkgmeta_get_updepends (world s) p) as [r depends].
  simpl in Hp. destruct (Z.eqb_spec r MPORT_OK); [contradiction |].
  reflexivity.
Qed.

(** X7: a package whose query for dependents fails is passed over in
    silence: its examination deletes nothing, prints nothing and leaves
    the three counters as they are, whatever they are, so a pass over a
    list that holds such a package is the pass over the list without
    it.  When the query fails for every listed package, [deleteAll]
    deletes nothing, prints a summary of three zeros and returns 0
    after one pass. *)
Theorem deleteAll_passes_over_failed_queries :
  (forall p total errors skip (s : state World),
      fst (mport_pkgmeta_get_updepends (world s) p) <> MPORT_OK ->
      Mport.examine p total errors skip s = Ret (total, errors, skip) s)
  /\ (forall p,
         (forall w, fst (mport_pkgmeta_get_updepends w p) <> MPORT_OK) ->
         forall pre post total errors skip (s : state World),
           Mport.pass (pre ++ p :: post) total errors skip s
           = Mport.pass (pre ++ post) total errors skip s)
  /\ (forall fuel packs (s : state World),
         mport_pkgmeta_list (world s) = (MPORT_OK, Some packs) ->
         (forall p, In p packs ->
                    fst (mport_pkgmeta_get_updepends (world s) p)
                    <> MPORT_OK) ->
         Mport.deleteAll (S fuel) s = Ret 0 (said s (OutSummary 0 0 0))).
Proof.
  split; [exact examine_query_fails | split].
  - intros p Hfail pre post.
    induction pre as [| a pre IH]; intros total errors skip s.
    + cbn [app Mport.pass].
      now rewrite (bind_ret _ _ _ _ _
                     (examine_query_fails p total errors skip s (Hfail _))).
    + cbn [app Mport.pass]. unfold bind.
      destruct (Mport.examine a total errors skip s)
        as [[[t1 e1] k1] s1 | h s1]; [apply IH | reflexivity].
  - intros fuel packs s Hlist Hfail.
    unfold Mport.deleteAll. unfold bind at 1. unfold ask.
    rewrite Hlist, Z.eqb_refl. cbn [negb Mport.deleteAll_loop deref].
    unfold bind at 1. unfold ret at 1.
    rewrite (bind_ret _ _ _ _ _ (pass_queries_fail packs 0 0 0 s Hfail)).
    reflexivity.
Qed.
End RemoverMore.

(** ** Further properties of the bulk remover on the store *)

Section RemoverStuck.
Import Store.

(** [keeps] is a property of the installed set that says that [c] is
    installed and required, and that no deletion of a package that
    nothing requires undoes. *)
Variable keeps : list installed -> Prop.
Variable c : installed.
Hypothesis keeps_required :
  forall pk, keeps pk -> In c pk /\ dependents pk (pname c) <> [].
Hypothesis keeps_kept :
  forall (w : store) n,
    keeps (packages w) -> dependents (packages w) n = [] ->
    keeps (packages (snd (delete_package w n))).

Lemma examine_stuck p total errors skip (s : state store) :
  keeps (packages (world s)) ->
  exists total' errors' skip' s',
    Mport.examine p total errors skip s = Ret (total', errors', skip') s'
    /\ keeps (packages (world s'))
    /\ skip <= skip'
    /\ (name p = pname c -> skip < skip').
Proof.
  intros Hk.
  destruct (dependents (packages (world s)) (name p)) as [| d ds] eqn:D.
  - unfold Mport.examine. unfold bind at 1. unfold ask. simpl.
    unfold pkgmeta_get_updepends. rewrite D.
    unfold bind at 1. rewrite delete_run.
    pose proof (keeps_kept (world s) (name p) Hk D) as Hk'.
    destruct (delete_package (world s) (name p)) as [rc w'].
    simpl in Hk'. simpl fst. simpl snd.
    destruct (negb (rc =? 0)); unfold bind, emit, ret; simpl;
      eexists _, _, _, _; (split; [reflexivity |]);
      (split; [exact Hk' |]); (split; [lia |]); intros E;
      destruct (keeps_required _ Hk) as [_ Hreq]; rewrite <- E in Hreq;
      contradiction.
  - assert (Hd : dependents (packages (world s)) (name p) <> [])
      by (rewrite D; discriminate).
    rewrite (examine_skips p total errors skip s Hd).
    eexists _, _, _, _. split; [reflexivity |].
    split; [exact Hk |]. split; intros; lia.
Qed.

Lemma pass_stuck packs : forall total errors skip (s : state store),
  keeps (packages (world s)) ->
  exists total' errors' skip' s',
    Mport.pass packs total errors skip s = Ret (total', errors', skip') s'
    /\ keeps (packages (world s'))
    /\ skip <= skip'
    /\ (In (meta c) packs -> skip < skip').
Proof.
  induction packs as [| p rest IH]; intros total errors skip s Hk.
  - eexists _, _, _, _. split; [reflexivity |].
    split; [exact Hk |]. split; [lia |]. intros [].
  - destruct (examine_stuck p total errors skip s Hk)
      as (t1 & e1 & k1 & s1 & E1 & Hk1 & Hle1 & Hlt1).
    destruct (IH t1 e1 k1 s1 Hk1)
      as (t2 & e2 & k2 & s2 & E2 & Hk2 & Hle2 & Hlt2).
    exists t2, e2, k2, s2. cbn [Mport.pass].
    rewrite (bind_ret _ _ _ _ _ E1). split; [exact E2 |].
    split; [exact Hk2 |]. split; [lia |].
    intros [E | Hin].
    + enough (skip < k1) by lia. apply Hlt1. now rewrite E.
    + enough (k1 < k2) by lia. now apply Hlt2.
Qed.

Lemma loop_stuck fuel : forall (s : state store) total errors,
  keeps (packages (world s)) ->
  exists s',
    Mport.deleteAll_loop fuel (Some (map meta (packages (world s))))
      total errors s
    = Halt Looping s'
    /\ keeps (packages (world s')).
Proof.
  induction fuel as [| fuel IH]; intros s total errors Hk.
  - exists s. split; [reflexivity | exact Hk].
  - rewrite deleteAll_loop_S.
    destruct (pass_stuck (map meta (packages (world s))) total errors 0 s Hk)
      as (t1 & e1 & k1 & s1 & E1 & Hk1 & _ & Hlt).
    rewrite (bind_ret _ _ _ _ _ E1).
    assert (0 < k1) as Hpos.
    { apply Hlt. apply in_map. now apply keeps_required. }
    replace (k1 =? 0) with false by (symmetry; apply Z.eqb_neq; lia).
    destruct (IH s1 t1 e1 Hk1) as (s' & E & Hk').
    exists s'. split; [| exact Hk'].
    destruct (packages (world s1)) as [| p rest] eqn:P.
    { destruct (keeps_required _ Hk1) as [[] _]. }
    unfold bind at 1. unfold ask. rewrite (list_nonempty s1 p rest P).
    rewrite Z.eqb_refl. cbn [negb]. exact E.
Qed.
End RemoverStuck.

Section RemoverLocked.
Import Store.

Lemma same_name_same_package pk x y :
  NoDup (map pname pk) -> In x pk -> In y pk -> pname x = pname y -> x = y.
Proof.
  induction pk as [| a pk IH]; intros Hnd Hx Hy E; [destruct Hx |].
  simpl in Hnd. inversion Hnd as [| ? ? Hnot Hnd']; subst.
  destruct Hx as [<- | Hx], Hy as [<- | Hy]; auto.
  - exfalso. apply Hnot. rewrite E. now apply in_map.
  - exfalso. apply Hnot. rewrite <- E. now apply in_map.
Qed.

Lemma remove_NoDup pk n :
  NoDup (map pname pk) -> NoDup (map pname (remove pk n)).
Proof.
  induction pk as [| a pk IH]; intros Hnd; [constructor |].
  simpl in *. inversion Hnd as [| ? ? Hnot Hnd']; subst.
  destruct (negb (String.eqb (pname a) n)); simpl; auto.
  constructor; auto. intros Hin. apply Hnot.
  apply in_map_iff in Hin. destruct Hin as (x & Ex & Hx).
  apply filter_In in Hx. rewrite <- Ex. apply in_map. tauto.
Qed.

(** X8: when a locked package requires an installed package, [deleteAll]
    does not return, however many passes it is given, although nothing
    is cyclic: the required package is skipped in every pass, because
    the locked one is never deleted, so no pass ends with [skip] at 0.
    Both packages stay installed. *)
Theorem deleteAll_hangs_on_locked_dependent p q (s : state store) fuel :
  NoDup (map pname (packages (world s))) ->
  In p (packages (world s)) ->
  In q (packages (world s)) ->
  locked (meta q) <> 0 ->
  requires q (pname p) = true ->
  exists s',
    Mport.deleteAll fuel s = Halt Looping s'
    /\ In p (packages (world s')) /\ In q (packages (world s')).
Proof.
  intros Hnd Hp Hq Hlocked Hreq.
  set (keeps := fun pk : list installed =>
                  NoDup (map pname pk) /\ In p pk /\ In q pk).
  assert (Hrequired : forall pk, keeps pk ->
                        In p pk /\ dependents pk (pname p) <> []).
  { intros pk (_ & Hp' & Hq'). split; [exact Hp' |].
    now apply (dependents_some pk q). }
  assert (Hkept : forall (w : store) n,
             keeps (packages w) -> dependents (packages w) n = [] ->
             keeps (packages (snd (delete_package w n)))).
  { intros w n (Hnd' & Hp' & Hq') Hd. unfold delete_package.
    destruct (find _ (packages w)) as [x |] eqn:F;
      [| simpl; unfold keeps; tauto].
    destruct (Z.eqb_spec (locked (meta x)) 0) as [Hx | Hx]; simpl;
      [| unfold keeps; tauto].
    apply find_some in F. destruct F as [Hin En].
    apply String.eqb_eq in En.
    repeat split.
    - now apply remove_NoDup.
    - apply remove_keeps; [exact Hp' |]. intros E.
      apply (dependents_some (packages w) q (pname p) Hq' Hreq).
      now rewrite E.
    - apply remove_keeps; [exact Hq' |]. intros E.
      assert (x = q) by (apply (same_name_same_package (packages w));
                         auto; congruence).
      subst x. contradiction. }
  rewrite deleteAll_nonempty.
  - destruct (loop_stuck keeps p Hrequired Hkept fuel s 0 0)
      as (s' & E & _ & Hp' & Hq'); [repeat split; assumption |].
    exists s'. repeat split; assumption.
  - intros E. rewrite E in Hp. destruct Hp.
Qed.
End RemoverLocked.

(** ** The order and the count of the deletions *)

Section RemoverOrder.
Import Store.

(** *** What one examination does to the store *)

Lemma examine_effect p total errors skip (s : state store) :
  exists counts s',
    Mport.examine p total errors skip s = Ret counts s'
    /\ (packages (world s') = packages (world s)
        \/ (dependents (packages (world s)) (name p) = []
            /\ packages (world s') = remove (packages (world s)) (name p))).
Proof.
  destruct (dependents (packages (world s)) (name p)) as [| d ds] eqn:D.
  - unfold Mport.examine. unfold bind at 1. unfold ask. simpl.
    unfold pkgmeta_get_updepends. rewrite D.
    unfold bind at 1. rewrite delete_run. unfold delete_package.
    destruct (find _ (packages (world s))) as [q |]; simpl;
      [destruct (locked (meta q) =? 0); simpl |];
      eexists _, _; (split; [reflexivity |]); simpl; auto.
  - assert (Hd : dependents (packages (world s)) (name p) <> [])
      by (rewrite D; discriminate).
    rewrite (examine_skips p total errors skip s Hd).
    eexists _, _. split; [reflexivity |]. now left.
Qed.

Lemma remove_incl pk n : incl (remove pk n) pk.
Proof. intros x Hx. apply filter_In in Hx. tauto. Qed.

Lemma respects_refl pk : respects pk pk.
Proof. split; [apply incl_refl | auto]. Qed.

Lemma respects_remove init pk n :
  respects init pk -> dependents pk n = [] -> respects init (remove pk n).
Proof.
  intros [Hincl Hreq] Hd. split.
  - intros x Hx. apply Hincl. now apply (remove_incl pk n).
  - intros p q Hp Hq Hr.
    pose proof (remove_incl _ _ _ Hq) as Hq'.
    apply remove_keeps; [now apply (Hreq p q) |].
    intros E. apply (dependents_some pk q n Hq'); [| exact Hd].
    now rewrite <- E.
Qed.

Lemma examine_respects init p total errors skip (s : state store) :
  respects init (packages (world s)) ->
  exists counts s',
    Mport.examine p total errors skip s = Ret counts s'
    /\ respects init (packages (world s')).
Proof.
  intros Hr.
  destruct (examine_effect p total errors skip s)
    as (counts & s' & E & [Hsame | [Hd Hrem]]);
    exists counts, s'; (split; [exact E |]).
  - now rewrite Hsame.
  - rewrite Hrem. now apply respects_remove.
Qed.

Lemma pass_respects init packs : forall total errors skip (s : state store),
  respects init (packages (world s)) ->
  exists counts s',
    Mport.pass packs total errors skip s = Ret counts s'
    /\ respects init (packages (world s')).
Proof.
  induction packs as [| p rest IH]; intros total errors skip s Hr.
  - eexists _, _. split; [reflexivity | exact Hr].
  - destruct (examine_respects init p total errors skip s Hr)
      as ([[t1 e1] k1] & s1 & E1 & Hr1).
    destruct (IH t1 e1 k1 s1 Hr1) as (counts & s2 & E2 & Hr2).
    exists counts, s2. cbn [Mport.pass].
    rewrite (bind_ret _ _ _ _ _ E1). split; [exact E2 | exact Hr2].
Qed.

Lemma loop_respects init fuel :
  forall packs total errors (s : state store),
    respects init (packages (world s)) ->
    respects init
      (packages (world (final (Mport.deleteAll_loop fuel packs total errors s)))).
Proof.
  induction fuel as [| fuel IH]; intros packs total errors s Hr.
  - exact Hr.
  - destruct packs as [snapshot |]; [| exact Hr].
    rewrite deleteAll_loop_S.
    destruct (pass_respects init snapshot total errors 0 s Hr)
      as ([[t1 e1] k1] & s1 & E1 & Hr1).
    rewrite (bind_ret _ _ _ _ _ E1).
    destruct (k1 =? 0); [exact Hr1 |].
    unfold bind at 1. unfold ask.
    destruct (mport_pkgmeta_list (world s1)) as [r packs'].
    destruct (negb (r =? MPORT_OK)); [exact Hr1 |].
    now apply IH.
Qed.

Lemma deleteAll_respects fuel (s : state store) :
  respects (packages (world s))
    (packages (world (final (Mport.deleteAll fuel s)))).
Proof.
  unfold Mport.deleteAll. unfold bind at 1. unfold ask.
  destruct (mport_pkgmeta_list (world s)) as [r packs].
  destruct (negb (r =? MPORT_OK)); [apply respects_refl |].
  destruct packs as [snapshot |]; [| apply respects_refl].
  apply loop_respects, respects_refl.
Qed.

(** *** The place of a package in the pass *)

Lemma pass_app l1 l2 total errors skip (s : state store) :
  Mport.pass (l1 ++ l2) total errors skip s
  = bind (Mport.pass l1 total errors skip)
      (fun '(total, errors, skip) => Mport.pass l2 total errors skip) s.
Proof.
  revert total errors skip s.
  induction l1 as [| p l1 IH]; intros total errors skip s; [reflexivity |].
  cbn [app Mport.pass]. unfold bind.
  destruct (Mport.examine p total errors skip s) as [[[t1 e1] k1] s1 | h s1];
    [| reflexivity].
  rewrite IH. reflexivity.
Qed.

(** A pass over the packages [rest] of a store [kept ++ rest ++ tail]
    with distinct names leaves [kept] and [tail] as they are, and of
    [rest] what it does not delete. *)
Lemma pass_shape rest : forall kept tail total errors skip (s : state store),
  packages (world s) = kept ++ rest ++ tail ->
  NoDup (map pname (kept ++ rest ++ tail)) ->
  exists sv counts s1,
    Mport.pass (map meta rest) total errors skip s = Ret counts s1
    /\ packages (world s1) = kept ++ sv ++ tail
    /\ incl sv rest
    /\ NoDup (map pname (kept ++ sv ++ tail)).
Proof.
  induction rest as [| x rest IH]; intros kept tail total errors skip s Hs Hnd.
  - exists [], (total, errors, skip), s. repeat split; auto using incl_refl.
  - cbn [Mport.pass map].
    destruct (examine_effect (meta x) total errors skip s)
      as ([[t1 e1] k1] & s1 & E1 & [Hsame | [Hd Hrem]]);
      rewrite (bind_ret _ _ _ _ _ E1).
    + assert (Happ : kept ++ (x :: rest) ++ tail = (kept ++ [x]) ++ rest ++ tail)
        by now rewrite <- app_assoc.
      rewrite Happ in Hs, Hnd. rewrite <- Hsame in Hs.
      destruct (IH (kept ++ [x]) tail t1 e1 k1 s1 Hs Hnd)
        as (sv & counts & s2 & E2 & Hs2 & Hin & Hnd2).
      exists (x :: sv), counts, s2. rewrite <- app_assoc in Hs2, Hnd2.
      repeat split; auto.
      intros y [<- | Hy]; [now left | right; now apply Hin].
    + change (name (meta x)) with (pname x) in Hrem.
      rewrite Hs in Hrem.
      change (kept ++ (x :: rest) ++ tail)
        with (kept ++ x :: (rest ++ tail)) in Hrem, Hnd.
      rewrite (remove_unique _ _ _ Hnd) in Hrem.
      assert (Hnd' : NoDup (map pname (kept ++ rest ++ tail))).
      { rewrite map_app in *. simpl in Hnd. now apply NoDup_remove_1 in Hnd. }
      destruct (IH kept tail t1 e1 k1 s1 Hrem Hnd')
        as (sv & counts & s2 & E2 & Hs2 & Hin & Hnd2).
      exists sv, counts, s2. repeat split; auto.
      now apply incl_tl.
Qed.

Lemma not_both pre p post x :
  NoDup (map pname (pre ++ p :: post)) ->
  In x pre -> In x (p :: post) -> False.
Proof.
  induction pre as [| a pre IH]; intros Hnd Hpre Hpost; [destruct Hpre |].
  simpl in Hnd. inversion Hnd as [| ? ? Hnot Hnd']; subst.
  destruct Hpre as [-> | Hpre]; [| now apply IH].
  apply Hnot. apply in_map. apply in_or_app. now right.
Qed.

Lemma dependents_witness pk n :
  dependents pk n <> [] -> exists q, In q pk /\ requires q n = true.
Proof.
  unfold dependents. destruct (filter _ pk) as [| q l] eqn:F; [congruence |].
  intros _. exists q. apply (filter_In (fun q => requires q n)).
  rewrite F. now left.
Qed.

(** A pass over the snapshot of the store: a package that is not locked
    is still there behind the pass exactly when a package that requires
    it was installed at its examination, that is, is listed behind it,
    or is listed before it and is itself still there behind the pass. *)
Lemma pass_deletes_iff pre p post total errors skip (s : state store) :
  packages (world s) = pre ++ p :: post ->
  NoDup (map pname (pre ++ p :: post)) ->
  locked (meta p) = 0 ->
  exists counts s1,
    Mport.pass (map meta (pre ++ p :: post)) total errors skip s
    = Ret counts s1
    /\ NoDup (map pname (packages (world s1)))
    /\ (In p (packages (world s1))
        <-> exists q, requires q (pname p) = true
                      /\ (In q (p :: post)
                          \/ (In q pre /\ In q (packages (world s1))))).
Proof.
  intros Hs Hnd Hl. rewrite map_app, pass_app. cbn [map].
  destruct (pass_shape pre [] (p :: post) total errors skip s Hs Hnd)
    as (sv1 & [[t1 e1] k1] & s1 & E1 & Hs1 & Hin1 & Hnd1).
  cbn [app] in Hs1, Hnd1.
  rewrite (bind_ret _ _ _ _ _ E1). cbn [Mport.pass].
  assert (Hp1 : ~ In p sv1).
  { intros H. apply (not_both pre p post p Hnd); [now apply Hin1 | now left]. }
  destruct (dependents (sv1 ++ p :: post) (pname p)) as [| d ds] eqn:D.
  - destruct (find_present sv1 p post) as (q & Hf & Hq).
    assert (q = p) as ->.
    { apply (same_name_same_package (sv1 ++ p :: post)); auto.
      - apply in_elt.
      - apply find_some in Hf. now apply String.eqb_eq. }
    rewrite <- Hs1 in D, Hf.
    rewrite (bind_ret _ _ _ _ _
               (examine_deletes (meta p) t1 e1 k1 s1 p D Hf Hl)).
    change (name (meta p)) with (pname p).
    rewrite Hs1, (remove_unique _ _ _ Hnd1).
    assert (Hnd1' : NoDup (map pname (sv1 ++ post ++ []))).
    { rewrite app_nil_r. rewrite map_app in *. simpl in Hnd1.
      now apply NoDup_remove_1 in Hnd1. }
    destruct (pass_shape post sv1 [] (t1 + 1) e1 k1
                (with_packages s1 (sv1 ++ post)))
      as (sv2 & counts & s2 & E2 & Hs2 & Hin2 & Hnd2);
      [simpl; now rewrite app_nil_r | exact Hnd1' |].
    rewrite app_nil_r in Hs2, Hnd2.
    exists counts, s2. split; [exact E2 |]. rewrite Hs2.
    split; [exact Hnd2 |].
    assert (Hp2 : ~ In p sv2).
    { intros H. apply Hin2 in H.
      rewrite map_app in Hnd. simpl in Hnd.
      apply NoDup_remove_2 in Hnd. apply Hnd. apply in_or_app. right.
      now apply in_map. }
    rewrite Hs1 in D.
    split.
    + intros H. apply in_app_or in H. tauto.
    + intros (q & Hr & [Hq' | [Hq' Hq'']]); exfalso.
      * apply (dependents_some (sv1 ++ p :: post) q (pname p));
          [apply in_or_app; now right | exact Hr | exact D].
      * apply in_app_or in Hq''. destruct Hq'' as [Hq'' | Hq''].
        -- apply (dependents_some (sv1 ++ p :: post) q (pname p));
             [apply in_or_app; now left | exact Hr | exact D].
        -- apply (not_both pre p post q Hnd Hq'). right. now apply Hin2.
  - assert (Hdep : dependents (packages (world s1)) (name (meta p)) <> []).
    { rewrite Hs1. change (name (meta p)) with (pname p). rewrite D.
      discriminate. }
    rewrite (bind_ret _ _ _ _ _ (examine_skips (meta p) t1 e1 k1 s1 Hdep)).
    assert (Hs1' : packages (world s1) = (sv1 ++ [p]) ++ post ++ []).
    { rewrite Hs1, app_nil_r, <- app_assoc. reflexivity. }
    assert (Hnd1' : NoDup (map pname ((sv1 ++ [p]) ++ post ++ []))).
    { rewrite app_nil_r, <- app_assoc. exact Hnd1. }
    destruct (pass_shape post (sv1 ++ [p]) [] t1 e1 (k1 + 1) s1 Hs1' Hnd1')
      as (sv2 & counts & s2 & E2 & Hs2 & Hin2 & Hnd2).
    rewrite app_nil_r in Hs2, Hnd2.
    exists counts, s2. split; [exact E2 |]. rewrite Hs2.
    split; [exact Hnd2 |]. split.
    + intros _.
      destruct (dependents_witness (sv1 ++ p :: post) (pname p)) as (q & Hq & Hr).
      { rewrite D. discriminate. }
      exists q. split; [exact Hr |].
      apply in_app_or in Hq. destruct Hq as [Hq | Hq]; [right | now left].
      split; [now apply Hin1 |].
      apply in_or_app. left. apply in_or_app. now left.
    + intros _. apply in_or_app. left. apply in_or_app. right. now left.
Qed.

(** A package that is installed and not locked, and that nothing
    requires when a pass begins, is deleted in that pass. *)
Lemma pass_deletes_free p total errors skip (s : state store) :
  NoDup (map pname (packages (world s))) ->
  In p (packages (world s)) ->
  locked (meta p) = 0 ->
  dependents (packages (world s)) (pname p) = [] ->
  exists counts s1,
    Mport.pass (map meta (packages (world s))) total errors skip s
    = Ret counts s1
    /\ ~ In p (packages (world s1)).
Proof.
  intros Hnd Hp Hl Hd.
  destruct (in_split _ _ Hp) as (pre & post & Hs).
  rewrite Hs in Hnd.
  destruct (pass_deletes_iff pre p post total errors skip s Hs Hnd Hl)
    as (counts & s1 & E & _ & Hiff).
  exists counts, s1. rewrite Hs at 1. split; [exact E |].
  intros H. apply Hiff in H. destruct H as (q & Hr & Hq).
  apply (dependents_some (packages (world s)) q (pname p)); auto.
  rewrite Hs. destruct Hq as [Hq | [Hq _]]; apply in_or_app; auto.
Qed.

(** C7, amended: in a store with distinct names, [deleteAll] never
    takes a package from under a package that requires it: wherever a
    run or a pass stands, what an installed package requires is
    installed.  A run is a pass over the list of the store, followed by
    a summary or by the rest of the run.  In a pass, a package that is
    not locked goes exactly when no package that requires it is
    installed at its examination: it stays when such a package is
    listed behind it, or is listed before it and has stayed itself.
    When it has stayed and no package that requires it is left behind
    the pass, it goes in the next pass.  So it goes at its first
    examination after the deletion of its last dependent, in the pass
    of that deletion when all its dependents are listed before it, in
    the next pass otherwise. *)
Theorem deleteAll_respects_dependents (s : state store) :
  NoDup (map pname (packages (world s))) ->
  (forall fuel,
      respects (packages (world s))
        (packages (world (final (Mport.deleteAll fuel s)))))
  /\ (forall packs total errors skip,
         respects (packages (world s))
           (packages (world (final (Mport.pass packs total errors skip s)))))
  /\ (forall fuel,
         packages (world s) <> [] ->
         Mport.deleteAll (S fuel) s
         = ('(total, errors, skip) <-
              Mport.pass (map meta (packages (world s))) 0 0 0 ;;
            if skip =? 0 then
              emit (OutSummary (total - errors) errors total) ;; ret 0
            else
              '(r, packs) <- ask mport_pkgmeta_list ;;
              if negb (r =? MPORT_OK) then emit Warn ;; ret 1
              else Mport.deleteAll_loop fuel packs total errors) s)
  /\ (forall pre p post total errors skip,
         packages (world s) = pre ++ p :: post ->
         locked (meta p) = 0 ->
         exists counts s1,
           Mport.pass (map meta (packages (world s))) total errors skip s
           = Ret counts s1
           /\ (In p (packages (world s1))
               <-> exists q, requires q (pname p) = true
                             /\ (In q (p :: post)
                                 \/ (In q pre /\ In q (packages (world s1)))))
           /\ (In p (packages (world s1)) ->
               dependents (packages (world s1)) (pname p) = [] ->
               forall total' errors' skip',
               exists counts2 s2,
                 Mport.pass (map meta (packages (world s1)))
                   total' errors' skip' s1
                 = Ret counts2 s2
                 /\ ~ In p (packages (world s2)))).
Proof.
  intros Hnd. split; [| split; [| split]].
  - intros fuel. apply deleteAll_respects.
  - intros packs total errors skip.
    destruct (pass_respects (packages (world s)) packs total errors skip s
                (respects_refl _)) as (counts & s' & E & Hr).
    now rewrite E.
  - intros fuel Hne. rewrite (deleteAll_nonempty _ _ Hne).
    apply deleteAll_loop_S.
  - intros pre p post total errors skip Hs Hl.
    rewrite Hs in Hnd.
    destruct (pass_deletes_iff pre p post total errors skip s Hs Hnd Hl)
      as (counts & s1 & E & Hnd1 & Hiff).
    exists counts, s1. rewrite Hs at 1. split; [exact E |].
    split; [exact Hiff |].
    intros Hp Hd total' errors' skip'.
    now apply pass_deletes_free.
Qed.

(** *** The count of the deletions *)






End RemoverOrder.

(** *** The same, run against sample stores *)

Section RemoverOrderRuns.
Import Store Sample.


(** A, and B which requires A, listed in this order: the first pass
    leaves A, because B is listed behind it, and deletes B; the second
    pass deletes A. *)
Lemma deleteAll_respects_dependents_witness :
  let s := start [A; B] [] [] in
  respects (packages (world s))
    (packages (world (final (Mport.deleteAll 1 s))))
  /\ exists counts s1,
       Mport.pass (map meta (packages (world s))) 0 0 0 s = Ret counts s1
       /\ (In A (packages (world s1))
           <-> exists q, requires q (pname A) = true
                         /\ (In q [A; B]
                             \/ (In q [] /\ In q (packages (world s1)))))
       /\ (In A (packages (world s1)) ->
           dependents (packages (world s1)) (pname A) = [] ->
           forall total' errors' skip',
           exists counts2 s2,
             Mport.pass (map meta (packages (world s1)))
               total' errors' skip' s1
             = Ret counts2 s2
             /\ ~ In A (packages (world s2))).
Proof.
  intros s.
  destruct (deleteAll_respects_dependents s
              ltac:(repeat constructor; simpl; intuition discriminate))
    as (Hrun & _ & _ & Hpass).
  split; [exact (Hrun 1%nat) |].
  exact (Hpass [] A [B] 0 0 0 eq_refl eq_refl).
Defined.

Example pass_A_B :
  Mport.pass [meta A; meta B] 0 0 0 (start [A; B] [] [])
  = Ret (1, 0, 1) (start [A] [] [])
  /\ Mport.pass [meta A] 1 0 0 (start [A] [] [])
     = Ret (2, 0, 0) (start [] [] []).
Proof. split; reflexivity. Qed.
End RemoverOrderRuns.

(** ** Further properties of the update listing *)

Section ListMore.
Context {World : Type} {lib : Libmport World}.

Lemma gone_app t1 t2 : gone (t1 ++ t2) = gone t1 ++ gone t2.
Proof. apply filter_app. Qed.

Lemma outdated_any p e os' (s : state World) :
  exists flag t,
    MportList.outdated p e os' s = Ret flag (after_events s t) /\ gone t = [].
Proof.
  unfold MportList.outdated, MportList.version_cmp.
  destruct (ie_version e) as [ev |], (version p) as [pv |];
    unfold bind, emit, ret, after_events; simpl.
  - destruct (mport_version_cmp (Some pv) (Some ev) <? 0); simpl;
      eexists _, _; (split; [try rewrite <- app_assoc; reflexivity |]);
      reflexivity.
  - destruct (mport_version_cmp None (Some ev) <? 0); simpl;
      eexists _, _; (split; [reflexivity |]); reflexivity.
  - exists (mport_version_cmp (os_release p) os' <? 0),
      [CallVersionCmp (os_release p) os']. split; reflexivity.
  - exists false, []. rewrite app_nil_r. split; [now destruct s | reflexivity].
Qed.

Lemma compare_entries_any verbose p os' entries : forall (s : state World),
  exists t,
    MportList.compare_entries verbose p entries os' s
    = Ret tt (after_events s t)
    /\ gone t = [].
Proof.
  induction entries as [| e rest IH]; intros s.
  - exists []. unfold after_events. simpl. rewrite app_nil_r.
    split; [now destruct s | reflexivity].
  - destruct (outdated_any p e os' s) as (flag & t1 & E1 & G1).
    cbn [MportList.compare_entries]. rewrite (bind_ret _ _ _ _ _ E1).
    destruct flag.
    + destruct (IH (after_events (after_events s t1)
                      [report_line verbose p e])) as (t2 & E2 & G2).
      unfold bind at 1, emit. fold (report_line verbose p e).
      change (mkState (world (after_events s t1)) (stdin (after_events s t1))
                (trace (after_events s t1) ++ [report_line verbose p e]))
        with (after_events (after_events s t1) [report_line verbose p e]).
      rewrite E2. exists (t1 ++ [report_line verbose p e] ++ t2). split.
      * unfold after_events; simpl. now rewrite <- !app_assoc.
      * rewrite !gone_app, G1, G2. reflexivity.
    + destruct (IH (after_events s t1)) as (t2 & E2 & G2).
      unfold bind at 1, ret at 1. rewrite E2. exists (t1 ++ t2). split.
      * unfold after_events; simpl. now rewrite <- !app_assoc.
      * rewrite gone_app, G1, G2. reflexivity.
Qed.

(** The listing of one package whose lookup succeeds. *)
Lemma package_listed f os' p rest (s : state World) :
  MportList.f_update f = true ->
  fst (mport_index_lookup_pkgname (world s) (name p)) = MPORT_OK ->
  exists t,
    MportList.each_package f (p :: rest) os' s
    = MportList.each_package f rest os' (after_events s t)
    /\ gone t = if no_match (world s) p
                then [OutNoLongerAvailable (name p) (version p)] else [].
Proof.
  intros Hu Hok. cbn [MportList.each_package]. rewrite Hu.
  unfold no_match.
  destruct (mport_index_lookup_pkgname (world s) (name p))
    as [r indexEntries] eqn:L.
  simpl in Hok. subst r. simpl snd.
  unfold bind at 1. unfold bind at 1. unfold ask. rewrite L.
  rewrite Z.eqb_refl. cbn [negb].
  destruct indexEntries as [[| e es] |].
  - eexists. split; reflexivity.
  - destruct (compare_entries_any (MportList.f_verbose f) p os' (e :: es) s)
      as (t & E & G).
    rewrite E. exists t. split; [reflexivity | exact G].
  - eexists. split; reflexivity.
Qed.

Lemma each_package_gone f os' packs : forall (s : state World),
  MportList.f_update f = true ->
  (forall p, In p packs ->
             fst (mport_index_lookup_pkgname (world s) (name p)) = MPORT_OK) ->
  exists t,
    MportList.each_package f packs os' s = Ret tt (after_events s t)
    /\ gone t
       = map (fun p => OutNoLongerAvailable (name p) (version p))
           (filter (no_match (world s)) packs).
Proof.
  induction packs as [| p rest IH]; intros s Hu Hok.
  - exists []. unfold after_events. simpl. rewrite app_nil_r.
    split; [now destruct s | reflexivity].
  - destruct (package_listed f os' p rest s Hu (Hok p (or_introl eq_refl)))
      as (t1 & E1 & G1).
    destruct (IH (after_events s t1) Hu) as (t2 & E2 & G2).
    { intros q Hq. apply Hok. now right. }
    exists (t1 ++ t2). rewrite E1, E2. split.
    + unfold after_events; simpl. now rewrite <- app_assoc.
    + rewrite gone_app, G1, G2. simpl.
      now destruct (no_match (world s) p).
Qed.

(** X9: in the update listing, the installed packages whose lookup
    brings no index entry, and only they, get the line "is no longer
    available", once each and in the order of the list; the listing goes
    on behind them and returns 0. *)
Theorem list_updates_reports_gone f (s : state World) w packs :
  MportList.f_update f = true ->
  mport_index_load (world s) = (MPORT_OK, w) ->
  mport_pkgmeta_list w = (MPORT_OK, Some packs) ->
  (forall p, In p packs ->
             fst (mport_index_lookup_pkgname w (name p)) = MPORT_OK) ->
  exists t,
    MportList.main f s = Ret 0 (mkState w (stdin s) (trace s ++ t))
    /\ gone t
       = map (fun p => OutNoLongerAvailable (name p) (version p))
           (filter (no_match w) packs).
Proof.
  intros Hu Hload Hlist Hok. unfold MportList.main.
  unfold bind at 1. unfold ask at 1. rewrite Hu.
  unfold bind at 1. unfold bind at 1. unfold call. rewrite Hload.
  rewrite Z.eqb_refl. cbn [negb]. unfold ret at 1.
  unfold bind at 1. unfold ask. cbn [world]. rewrite Hlist.
  rewrite Z.eqb_refl. cbn [negb].
  destruct (each_package_gone f (mport_get_osrelease (world s)) packs
              (mkState w (stdin s) (trace s)) Hu Hok) as (t & E & G).
  exists t. unfold bind. rewrite E. split; [reflexivity | exact G].
Qed.

Lemma printed_app t1 t2 : printed (t1 ++ t2) = printed t1 ++ printed t2.
Proof. apply filter_app. Qed.

Lemma outdated_flagged p e os' (s : state World) :
  exists t,
    MportList.outdated p e os' s = Ret (flagged p os' e) (after_events s t)
    /\ printed t = [].
Proof.
  unfold MportList.outdated, MportList.version_cmp, flagged.
  destruct (ie_version e) as [ev |], (version p) as [pv |];
    unfold bind, emit, ret, after_events; simpl.
  - destruct (mport_version_cmp (Some pv) (Some ev) <? 0); simpl;
      eexists; (split; [try rewrite <- app_assoc; reflexivity |]);
      reflexivity.
  - rewrite orb_false_r.
    destruct (mport_version_cmp None (Some ev) <? 0); simpl;
      eexists; (split; [reflexivity |]); reflexivity.
  - exists [CallVersionCmp (os_release p) os']. split; reflexivity.
  - exists []. rewrite app_nil_r. split; [now destruct s | reflexivity].
Qed.

Lemma compare_entries_flagged verbose p os' entries :
  forall (s : state World),
  exists t,
    MportList.compare_entries verbose p entries os' s
    = Ret tt (after_events s t)
    /\ printed t = map (report_line verbose p) (filter (flagged p os') entries).
Proof.
  induction entries as [| e rest IH]; intros s.
  - exists []. unfold after_events. simpl. rewrite app_nil_r.
    split; [now destruct s | reflexivity].
  - destruct (outdated_flagged p e os' s) as (t1 & E1 & P1).
    cbn [MportList.compare_entries filter]. rewrite (bind_ret _ _ _ _ _ E1).
    destruct (flagged p os' e).
    + destruct (IH (after_events (after_events s t1)
                      [report_line verbose p e])) as (t2 & E2 & P2).
      unfold bind at 1, emit. fold (report_line verbose p e).
      change (mkState (world (after_events s t1)) (stdin (after_events s t1))
                (trace (after_events s t1) ++ [report_line verbose p e]))
        with (after_events (after_events s t1) [report_line verbose p e]).
      rewrite E2. exists (t1 ++ [report_line verbose p e] ++ t2). split.
      * unfold after_events; simpl. now rewrite <- !app_assoc.
      * rewrite !printed_app, P1, P2. reflexivity.
    + destruct (IH (after_events s t1)) as (t2 & E2 & P2).
      unfold bind at 1, ret at 1. rewrite E2. exists (t1 ++ t2). split.
      * unfold after_events; simpl. now rewrite <- !app_assoc.
      * rewrite printed_app, P1, P2. reflexivity.
Qed.

(** The lines of one package whose lookup succeeds. *)
Lemma package_printed f os' p rest (s : state World) :
  MportList.f_update f = true ->
  fst (mport_index_lookup_pkgname (world s) (name p)) = MPORT_OK ->
  exists t,
    MportList.each_package f (p :: rest) os' s
    = MportList.each_package f rest os' (after_events s t)
    /\ printed t = listing_of (MportList.f_verbose f) (world s) os' p.
Proof.
  intros Hu Hok. cbn [MportList.each_package]. rewrite Hu.
  unfold listing_of, no_match, matches.
  destruct (mport_index_lookup_pkgname (world s) (name p))
    as [r indexEntries] eqn:L.
  simpl in Hok. subst r. simpl snd.
  unfold bind at 1. unfold bind at 1. unfold ask. rewrite L.
  rewrite Z.eqb_refl. cbn [negb].
  destruct indexEntries as [[| e es] |].
  - eexists. split; reflexivity.
  - destruct (compare_entries_flagged (MportList.f_verbose f) p os'
                (e :: es) s) as (t & E & P).
    rewrite E. exists t. split; [reflexivity | exact P].
  - eexists. split; reflexivity.
Qed.

Lemma each_package_printed f os' packs : forall (s : state World),
  MportList.f_update f = true ->
  (forall p, In p packs ->
             fst (mport_index_lookup_pkgname (world s) (name p)) = MPORT_OK) ->
  exists t,
    MportList.each_package f packs os' s = Ret tt (after_events s t)
    /\ printed t
       = flat_map (listing_of (MportList.f_verbose f) (world s) os') packs.
Proof.
  induction packs as [| p rest IH]; intros s Hu Hok.
  - exists []. unfold after_events. simpl. rewrite app_nil_r.
    split; [now destruct s | reflexivity].
  - destruct (package_printed f os' p rest s Hu (Hok p (or_introl eq_refl)))
      as (t1 & E1 & P1).
    destruct (IH (after_events s t1) Hu) as (t2 & E2 & P2).
    { intros q Hq. apply Hok. now right. }
    exists (t1 ++ t2). rewrite E1, E2. split.
    + unfold after_events; simpl. now rewrite <- app_assoc.
    + rewrite printed_app, P1, P2. reflexivity.
Qed.

(** X24: the update listing, whenever every lookup succeeds, returns 0
    and writes to stdout, package by package in the order of the list,
    "is no longer available" for a package without index entry, and
    otherwise, entry by entry in the order of the lookup, the line of
    the pair exactly where the entry has a version that the comparator
    puts above the version of the package, or the package has a version
    and an os_release that the comparator puts below the one of the
    running system. *)
Theorem list_updates_prints f (s : state World) w packs :
  MportList.f_update f = true ->
  mport_index_load (world s) = (MPORT_OK, w) ->
  mport_pkgmeta_list w = (MPORT_OK, Some packs) ->
  (forall p, In p packs ->
             fst (mport_index_lookup_pkgname w (name p)) = MPORT_OK) ->
  exists t,
    MportList.main f s = Ret 0 (mkState w (stdin s) (trace s ++ t))
    /\ printed t
       = flat_map (listing_of (MportList.f_verbose f) w
                     (mport_get_osrelease (world s))) packs.
Proof.
  intros Hu Hload Hlist Hok. unfold MportList.main.
  unfold bind at 1. unfold ask at 1. rewrite Hu.
  unfold bind at 1. unfold bind at 1. unfold call. rewrite Hload.
  rewrite Z.eqb_refl. cbn [negb]. unfold ret at 1.
  unfold bind at 1. unfold ask. cbn [world]. rewrite Hlist.
  rewrite Z.eqb_refl. cbn [negb].
  destruct (each_package_printed f (mport_get_osrelease (world s)) packs
              (mkState w (stdin s) (trace s)) Hu Hok) as (t & E & P).
  exists t. unfold bind. rewrite E. split; [reflexivity | exact P].
Qed.

Lemma each_package_lookup_fails f os' pre p post : forall (s : state World),
  MportList.f_update f = true ->
  (forall q, In q pre ->
             fst (mport_index_lookup_pkgname (world s) (name q)) = MPORT_OK) ->
  fst (mport_index_lookup_pkgname (world s) (name p)) <> MPORT_OK ->
  exists t,
    MportList.each_package f (pre ++ p :: post) os' s
    = Halt (Exited (mport_err_code (world s)))
        (after_events s
           (t ++ [ErrLookup (name p) (mport_err_code (world s))]))
    /\ printed t
       = flat_map (listing_of (MportList.f_verbose f) (world s) os') pre.
Proof.
  induction pre as [| q pre IH]; intros s Hu Hok Hfail.
  - exists []. cbn [app MportList.each_package]. rewrite Hu.
    unfold bind at 1. unfold bind at 1. unfold ask at 1.
    destruct (mport_index_lookup_pkgname (world s) (name p)) as [r ie].
    simpl in Hfail. destruct (Z.eqb_spec r MPORT_OK); [contradiction |].
    split; reflexivity.
  - destruct (package_printed f os' q (pre ++ p :: post) s Hu
                (Hok q (or_introl eq_refl))) as (t1 & E1 & P1).
    destruct (IH (after_events s t1) Hu) as (t2 & E2 & P2).
    { intros x Hx. apply Hok. now right. }
    { exact Hfail. }
    exists (t1 ++ t2). cbn [app]. rewrite E1, E2. split.
    + unfold after_events; simpl. now rewrite <- !app_assoc.
    + rewrite printed_app, P1, P2. reflexivity.
Qed.

(** X10: when the lookup of an installed package fails, the update
    listing ends there: the process exits with the error code of the
    library, behind the message that names the package.  By then stdout
    holds the lines of the packages listed before it, each as the
    listing writes it and in their order, and nothing else; the
    packages listed behind it are not looked up. *)
Theorem list_updates_ends_at_failed_lookup f (s : state World) w
    pre p post :
  MportList.f_update f = true ->
  mport_index_load (world s) = (MPORT_OK, w) ->
  mport_pkgmeta_list w = (MPORT_OK, Some (pre ++ p :: post)) ->
  (forall q, In q pre ->
             fst (mport_index_lookup_pkgname w (name q)) = MPORT_OK) ->
  fst (mport_index_lookup_pkgname w (name p)) <> MPORT_OK ->
  exists t,
    MportList.main f s
    = Halt (Exited (mport_err_code w))
        (mkState w (stdin s)
           (trace s ++ t ++ [ErrLookup (name p) (mport_err_code w)]))
    /\ printed t
       = flat_map (listing_of (MportList.f_verbose f) w
                     (mport_get_osrelease (world s))) pre.
Proof.
  intros Hu Hload Hlist Hok Hfail. unfold MportList.main.
  unfold bind at 1. unfold ask at 1. rewrite Hu.
  unfold bind at 1. unfold bind at 1. unfold call. rewrite Hload.
  rewrite Z.eqb_refl. cbn [negb]. unfold ret at 1.
  unfold bind at 1. unfold ask. cbn [world]. rewrite Hlist.
  rewrite Z.eqb_refl. cbn [negb].
  destruct (each_package_lookup_fails f (mport_get_osrelease (world s))
              pre p post (mkState w (stdin s) (trace s)) Hu Hok Hfail)
    as (t & E & P).
  exists t. unfold bind. rewrite E. split; [reflexivity | exact P].
Qed.
End ListMore.

(** ** The further properties, run against the store *)

Section MoreRuns.
Import Store Sample Faulty.

Lemma install_single_match_witness :
  Mport.install 0 "foo-1.2" (start [] [entry "foo-1.2" "7"] [TokInt 5])
  = Ret 0 (mkState (mkStore [explicit "foo-1.2" "7"] [entry "foo-1.2" "7"]
                      (Some "3.1")) [TokInt 5] []).
Proof.
  rewrite (install_single_match 0 "foo-1.2" (entry "foo-1.2" "7")
             (start [] [entry "foo-1.2" "7"] [TokInt 5])); reflexivity.
Defined.

(** The words -1 and 3 are refused; 4294967297 is stored as 1 and
    selects the second entry. *)
Lemma install_asks_until_in_range_witness :
  Mport.install 3 "foo"
    (start [] [foo_1_3; foo_1_4]
       [TokOther "-1"; TokInt 3; TokOther "4294967297"; TokInt 0])
  = Ret 0
      (mkState
         (mkStore [explicit "foo" "1.4"] [foo_1_3; foo_1_4] (Some "3.1"))
         [TokInt 0]
         [OutMultipleFound;
          OutCandidate 0 "foo" (Some "1.3");
          OutCandidate 1 "foo" (Some "1.4");
          ErrSelectEntry 1; ErrSelectEntry 1]).
Proof.
  rewrite (install_asks_until_in_range 0 "foo" [foo_1_3; foo_1_4]
             [TokOther "-1"; TokInt 3] (TokOther "4294967297") 1 foo_1_4
             [TokInt 0]
             (start [] [foo_1_3; foo_1_4]
                [TokOther "-1"; TokInt 3; TokOther "4294967297"; TokInt 0])).
  - reflexivity.
  - reflexivity.
  - simpl. lia.
  - reflexivity.
  - constructor; [exists (-1); split; [reflexivity | lia] |].
    constructor; [exists 3; split; [reflexivity | simpl; lia] |].
    constructor.
  - reflexivity.
  - simpl. lia.
  - reflexivity.
Defined.

Lemma install_prompt_never_ends_witness :
  exists s',
    Mport.install 7 "foo"
      (start [] [foo_1_3; foo_1_4] [TokOther "one"; TokInt 1])
    = Halt Looping s'
    /\ world s' = mkStore [] [foo_1_3; foo_1_4] (Some "3.1")
    /\ stdin s' = [TokOther "one"; TokInt 1].
Proof.
  apply (install_prompt_never_ends 7 "foo" [foo_1_3; foo_1_4]
           (start [] [foo_1_3; foo_1_4] [TokOther "one"; TokInt 1])).
  - reflexivity.
  - simpl. lia.
  - right. exists "one", [TokInt 1]. split; reflexivity.
Defined.

(** The word 1x: the second entry is installed and x stays. *)
Lemma install_takes_numeric_prefix_witness :
  Mport.install 1 "foo" (start [] [foo_1_3; foo_1_4] [TokOther "1x"])
  = Ret 0
      (mkState
         (mkStore [explicit "foo" "1.4"] [foo_1_3; foo_1_4] (Some "3.1"))
         [TokOther "x"]
         [OutMultipleFound;
          OutCandidate 0 "foo" (Some "1.3");
          OutCandidate 1 "foo" (Some "1.4")]).
Proof.
  rewrite (install_takes_numeric_prefix 0 "foo" [foo_1_3; foo_1_4]
             "1x" 1 "x" foo_1_4 []
             (start [] [foo_1_3; foo_1_4] [TokOther "1x"])).
  - reflexivity.
  - reflexivity.
  - simpl. lia.
  - reflexivity.
  - reflexivity.
  - vm_compute. split; [discriminate | reflexivity].
  - reflexivity.
Defined.

(** The locked package L alone: its deletion fails, and the summary
    says 0 deleted, 1 error, 1 in total. *)
Lemma deleteAll_returns_witness :
  Mport.deleteAll 1 (start [L] [] [])
  = Ret 0 (after_events (start [L] [] [])
             [ErrDeleting "L"; OutSummary 0 1 1])
  /\ exists pre deleted errored total,
       [ErrDeleting "L"; OutSummary 0 1 1]
       = pre ++ [OutSummary deleted errored total]
       /\ 0 <= errored <= total
       /\ 0 <= deleted
       /\ deleted = total - errored.
Proof.
  assert (E : Mport.deleteAll 1 (start [L] [] [])
              = Ret 0 (after_events (start [L] [] [])
                         [ErrDeleting "L"; OutSummary 0 1 1]))
    by reflexivity.
  split; [exact E |].
  destruct (deleteAll_returns 1 (start [L] [] []) _ 0 E)
    as [(_ & H) | (Habs & _)]; [exact H | discriminate].
Defined.

(** The query fails for the package "broken": a pass over B, broken
    and A is the pass over B and A, and deletes both; "broken" alone
    gives the summary of three zeros. *)
Lemma deleteAll_passes_over_failed_queries_witness :
  @Mport.pass store faulty_lib [meta B; meta broken; meta A] 0 0 0
    (start [B; broken; A] [] [])
  = Ret (2, 0, 0) (start [broken] [] [])
  /\ @Mport.deleteAll store faulty_lib 1 (start [broken] [] [])
     = Ret 0 (said (start [broken] [] []) (OutSummary 0 0 0)).
Proof.
  destruct (@deleteAll_passes_over_failed_queries store faulty_lib)
    as (_ & Hpass & Hall).
  split.
  - refine (eq_trans
              (Hpass (meta broken) ltac:(intros w; discriminate)
                 [meta B] [meta A] 0 0 0 (start [B; broken; A] [] [])) _).
    reflexivity.
  - apply (Hall 0%nat [meta broken] (start [broken] [] [])).
    + reflexivity.
    + intros p [<- | []]. discriminate.
Defined.

(** The deletion of "nope" fails, the one of A succeeds: [exit] gets
    the wait status 256, and the exit status of the process is 0. *)
Lemma main_delete_runs_every_argument_witness :
  Mport.main 0 ["delete"; "nope"; "A"] (start [A] [] [])
  = Halt (Exited 256) (start [] [] [])
  /\ exit_status 256 = 0.
Proof.
  destruct (main_delete_runs_every_argument 0 "nope" ["A"] (start [A] [] []))
    as (Hrun & _ & Hstatus).
  split; [exact Hrun |].
  apply Hstatus. repeat constructor.
Defined.

Lemma deleteAll_hangs_on_locked_dependent_witness :
  exists s',
    Mport.deleteAll 4 (start [A; BL] [] []) = Halt Looping s'
    /\ In A (packages (world s')) /\ In BL (packages (world s')).
Proof.
  apply (deleteAll_hangs_on_locked_dependent A BL (start [A; BL] [] []) 4).
  - repeat constructor; simpl; intuition discriminate.
  - now left.
  - right. now left.
  - discriminate.
  - reflexivity.
Defined.

Lemma list_updates_reports_gone_witness :
  exists t,
    MportList.main update_flags (start [A; explicit "foo" "1.2"; B] [foo_1_3] [])
    = Ret 0 (mkState (mkStore [A; explicit "foo" "1.2"; B] [foo_1_3]
                        (Some "3.1")) [] t)
    /\ gone t = [OutNoLongerAvailable "A" (Some "1.0");
                 OutNoLongerAvailable "B" (Some "1.0")].
Proof.
  destruct (list_updates_reports_gone update_flags
              (start [A; explicit "foo" "1.2"; B] [foo_1_3] [])
              (mkStore [A; explicit "foo" "1.2"; B] [foo_1_3] (Some "3.1"))
              [meta A; meta (explicit "foo" "1.2"); meta B])
    as (t & E & G).
  - reflexivity.
  - reflexivity.
  - reflexivity.
  - intros p _. reflexivity.
  - exists t. split; [exact E | exact G].
Defined.

(** foo 1.2, which the index holds as 1.3, then A, which it does not
    hold, then the package whose lookup fails. *)
Lemma list_updates_ends_at_failed_lookup_witness :
  exists t,
    @MportList.main store faulty_lib update_flags
      (start [explicit "foo" "1.2"; A; broken; B] [foo_1_3] [])
    = Halt (Exited 1)
        (mkState (mkStore [explicit "foo" "1.2"; A; broken; B] [foo_1_3]
                    (Some "3.1")) []
           (t ++ [ErrLookup "broken" 1]))
    /\ printed t = [OutOutdated "foo" (Some "1.2") None (Some "1.3");
                    OutNoLongerAvailable "A" (Some "1.0")].
Proof.
  apply (@list_updates_ends_at_failed_lookup store faulty_lib update_flags
           (start [explicit "foo" "1.2"; A; broken; B] [foo_1_3] [])
           (mkStore [explicit "foo" "1.2"; A; broken; B] [foo_1_3]
              (Some "3.1"))
           [meta (explicit "foo" "1.2"); meta A] (meta broken) [meta B]).
  - reflexivity.
  - reflexivity.
  - reflexivity.
  - intros q [<- | [<- | []]]; reflexivity.
  - discriminate.
Defined.

(** A stale build without a version against an entry without a
    version, foo 1.2 against the entries 1.2 and 1.3, and a package
    that the index does not hold. *)
Lemma list_updates_prints_witness :
  exists t,
    MportList.main update_flags
      (start [stale_build; explicit "bar" "1.2"; A]
         [foo_unversioned; entry "bar" "1.2"; entry "bar" "1.3"] [])
    = Ret 0 (mkState
               (mkStore [stale_build; explicit "bar" "1.2"; A]
                  [foo_unversioned; entry "bar" "1.2"; entry "bar" "1.3"]
                  (Some "3.1")) [] t)
    /\ printed t = [OutOutdated "bar" (Some "1.2") None (Some "1.3");
                    OutNoLongerAvailable "A" (Some "1.0")].
Proof.
  destruct (list_updates_prints update_flags
              (start [stale_build; explicit "bar" "1.2"; A]
                 [foo_unversioned; entry "bar" "1.2"; entry "bar" "1.3"] [])
              (mkStore [stale_build; explicit "bar" "1.2"; A]
                 [foo_unversioned; entry "bar" "1.2"; entry "bar" "1.3"]
                 (Some "3.1"))
              [meta stale_build; meta (explicit "bar" "1.2"); meta A])
    as (t & E & P).
  - reflexivity.
  - reflexivity.
  - reflexivity.
  - intros q [<- | [<- | [<- | []]]]; reflexivity.
  - exists t. split; [exact E | exact P].
Defined.
End MoreRuns.

(** ** [str_remove] *)

Section StrRemoveFacts.

Lemma poke_at a : forall c b rest,
  poke (List.length a) c (a ++ b :: rest) = a ++ c :: rest.
Proof.
  induction a as [| x a IH]; intros c b rest; simpl; [reflexivity |].
  now rewrite IH.
Qed.

Lemma poke_nul_repeat k : forall i, poke i NUL (repeat NUL k) = repeat NUL k.
Proof.
  induction k as [| k IH]; intros [| i]; simpl; try reflexivity.
  now rewrite IH.
Qed.

Lemma poke_nul_behind a : forall i k,
  (List.length a <= i)%nat ->
  poke i NUL (a ++ repeat NUL k) = a ++ repeat NUL k.
Proof.
  induction a as [| x a IH]; intros i k Hi.
  - apply poke_nul_repeat.
  - destruct i as [| i]; [simpl in Hi; lia |].
    simpl. rewrite IH by (simpl in Hi; lia). reflexivity.
Qed.

Lemma c_string_before_nul a : forall k,
  no_nul a -> c_string (a ++ repeat NUL (S k)) = a.
Proof.
  induction a as [| x a IH]; intros k Ha.
  - reflexivity.
  - inversion Ha as [| ? ? Hx Ha']; subst. cbn [app c_string].
    destruct (Ascii.eqb_spec x NUL); [contradiction |].
    now rewrite IH.
Qed.

Lemma without_no_nul ch str : no_nul str -> no_nul (without ch str).
Proof.
  unfold no_nul, without. rewrite !Forall_forall. intros H c Hc.
  apply filter_In in Hc. now apply H.
Qed.

Lemma without_length ch str :
  (List.length (without ch str) <= List.length str)%nat.
Proof. apply filter_length_le. Qed.

Lemma str_remove_loop_S n str ch i x output :
  str_remove_loop (S n) str ch i x output
  = if negb (Ascii.eqb (char_at str i) ch) then
      str_remove_loop n str ch (S i) (S x) (poke x (char_at str i) output)
    else str_remove_loop n str ch (S i) x output.
Proof. reflexivity. Qed.

(** The loop, from the middle of the string on: [pre] has been read and
    [done] written. *)
Lemma str_remove_loop_run ch todo : forall pre done k,
  (List.length todo < k)%nat ->
  str_remove_loop (S (List.length todo)) (pre ++ todo) ch
    (List.length pre) (List.length done) (done ++ repeat NUL k)
  = done ++ without ch todo
    ++ repeat NUL (k - List.length (without ch todo)).
Proof.
  induction todo as [| c t IH]; intros pre done k Hk.
  - rewrite str_remove_loop_S. cbn [List.length str_remove_loop].
    unfold char_at. rewrite app_nil_r, nth_overflow by lia.
    simpl without. rewrite Nat.sub_0_r. cbn [app].
    destruct (negb (Ascii.eqb NUL ch)); [| reflexivity].
    destruct k as [| k]; [lia |]. cbn [repeat].
    now rewrite poke_at.
  - rewrite str_remove_loop_S. unfold char_at.
    rewrite nth_middle.
    unfold without. cbn [filter]. fold (without ch t).
    destruct (negb (Ascii.eqb c ch)).
    + destruct k as [| k]; [simpl in Hk; lia |]. cbn [repeat].
      rewrite poke_at.
      replace (pre ++ c :: t) with ((pre ++ [c]) ++ t)
        by now rewrite <- app_assoc.
      replace (S (List.length pre)) with (List.length (pre ++ [c]))
        by (rewrite length_app; simpl; lia).
      replace (done ++ c :: repeat NUL k)
        with ((done ++ [c]) ++ repeat NUL k) by now rewrite <- app_assoc.
      replace (S (List.length done)) with (List.length (done ++ [c]))
        by (rewrite length_app; simpl; lia).
      cbn [List.length].
      rewrite IH by (simpl in Hk; lia).
      rewrite <- app_assoc. reflexivity.
    + replace (pre ++ c :: t) with ((pre ++ [c]) ++ t)
        by now rewrite <- app_assoc.
      replace (S (List.length pre)) with (List.length (pre ++ [c]))
        by (rewrite length_app; simpl; lia).
      cbn [List.length].
      rewrite IH by (simpl in Hk; lia). reflexivity.
Qed.

Lemma str_remove_buffer str ch :
  str_remove (Some str) ch
  = Some (without ch str
          ++ repeat NUL (S (List.length str) - List.length (without ch str))).
Proof.
  unfold str_remove. f_equal.
  replace (List.length str + 1)%nat with (S (List.length str)) by lia.
  pose proof (str_remove_loop_run ch str [] [] (S (List.length str))
                (Nat.lt_succ_diag_r _)) as H.
  cbn [app List.length] in H. rewrite H.
  apply poke_nul_behind. apply without_length.
Qed.

(** X11: for a C string [str], [str_remove] returns a buffer of
    [strlen(str) + 1] bytes that holds [str] without the characters equal
    to [ch], the others in their order: [ch] does not occur in the
    result, and a string without [ch] comes back as it is. *)
Theorem str_remove_removes str ch :
  no_nul str ->
  exists buf,
    str_remove (Some str) ch = Some buf
    /\ List.length buf = (List.length str + 1)%nat
    /\ c_string buf = without ch str
    /\ ~ In ch (c_string buf)
    /\ (~ In ch str -> c_string buf = str).
Proof.
  intros Hstr. eexists. split; [apply str_remove_buffer |].
  pose proof (without_length ch str) as Hlen.
  assert (Hc : c_string
                 (without ch str
                  ++ repeat NUL (S (List.length str)
                                 - List.length (without ch str)))
               = without ch str).
  { replace (S (List.length str) - List.length (without ch str))%nat
      with (S (List.length str - List.length (without ch str))) by lia.
    apply c_string_before_nul. now apply without_no_nul. }
  rewrite Hc. split; [| split; [reflexivity | split]].
  - rewrite length_app, repeat_length. lia.
  - unfold without. intros Hin. apply filter_In in Hin.
    destruct Hin as [_ Hin]. rewrite Ascii.eqb_refl in Hin. discriminate.
  - intros Hnot. unfold without. apply forallb_filter_id.
    apply forallb_forall. intros c Hc'.
    destruct (Ascii.eqb_spec c ch) as [-> | _]; [contradiction | reflexivity].
Qed.

Lemma str_remove_string_removes str ch :
  no_nul (list_ascii_of_string str) ->
  str_remove_string (Some str) ch = Some (string_without ch str).
Proof.
  intros Hstr. unfold str_remove_string, string_without.
  cbn [option_map]. rewrite str_remove_buffer. cbn [option_map].
  do 2 f_equal.
  pose proof (without_length ch (list_ascii_of_string str)) as Hlen.
  replace (S (List.length (list_ascii_of_string str))
           - List.length (without ch (list_ascii_of_string str)))%nat
    with (S (List.length (list_ascii_of_string str)
             - List.length (without ch (list_ascii_of_string str)))) by lia.
  apply c_string_before_nul. now apply without_no_nul.
Qed.
End StrRemoveFacts.

(** ** The listings of mport.list *)

Section ListingFacts.
Context {World : Type} {lib : Libmport World}.

Lemma after_no_lines (s : state (Out World)) : after_lines s [] = s.
Proof.
  destruct s as [[w o] i t]. unfold after_lines. simpl. now rewrite app_nil_r.
Qed.

Lemma after_lines_app (s : state (Out World)) l1 l2 :
  after_lines (after_lines s l1) l2 = after_lines s (l1 ++ l2).
Proof. unfold after_lines. simpl. now rewrite <- app_assoc. Qed.

Lemma print_package_lines f p (s : state (Out World)) :
  reads_null f p = false ->
  MportListAll.print_package f p s = Ret tt (after_lines s (lines_of f p)).
Proof.
  unfold MportListAll.print_package, lines_of, reads_null.
  destruct (MportList.f_verbose f); [reflexivity |].
  destruct (MportList.f_prime f && (automatic p =? 0)); [reflexivity |].
  destruct (MportList.f_quiet f), (MportList.f_origin f); simpl;
    try (destruct (origin p); [reflexivity | discriminate]);
    intros _; try reflexivity;
    destruct (MportList.f_locks f); simpl; try reflexivity;
    destruct (locked p =? 1); simpl; try reflexivity;
    unfold ret; now rewrite after_no_lines.
Qed.

Lemma print_package_reads_null f p (s : state (Out World)) :
  reads_null f p = true ->
  MportListAll.print_package f p s = Halt NullDeref s.
Proof.
  unfold MportListAll.print_package, reads_null.
  destruct (MportList.f_verbose f); [discriminate |].
  destruct (MportList.f_prime f && (automatic p =? 0)); [discriminate |].
  destruct (MportList.f_quiet f), (MportList.f_origin f); try discriminate.
  simpl. destruct (origin p); [discriminate | reflexivity].
Qed.

Lemma reads_null_quiet f p : MportList.f_quiet f = false -> reads_null f p = false.
Proof.
  intros H. unfold reads_null. rewrite H.
  now rewrite andb_false_r.
Qed.

Lemma reads_null_verbose f p :
  MportList.f_verbose f = true -> reads_null f p = false.
Proof. intros H. unfold reads_null. now rewrite H. Qed.

Lemma each_package_lines f os' packs : forall (s : state (Out World)),
  MportList.f_update f = false ->
  (forall p, In p packs -> reads_null f p = false) ->
  MportListAll.each_package f packs os' s
  = Ret tt (after_lines s (flat_map (lines_of f) packs)).
Proof.
  induction packs as [| p rest IH]; intros s Hu Hsafe.
  - simpl. unfold ret. now rewrite after_no_lines.
  - cbn [MportListAll.each_package flat_map]. rewrite Hu.
    rewrite (bind_ret _ _ _ _ _
               (print_package_lines f p s (Hsafe p (or_introl eq_refl)))).
    rewrite IH; [| exact Hu | intros q Hq; apply Hsafe; now right].
    now rewrite after_lines_app.
Qed.

Lemma each_package_reads_null f os' pre p post :
  forall (s : state (Out World)),
  MportList.f_update f = false ->
  (forall q, In q pre -> reads_null f q = false) ->
  reads_null f p = true ->
  MportListAll.each_package f (pre ++ p :: post) os' s
  = Halt NullDeref (after_lines s (flat_map (lines_of f) pre)).
Proof.
  induction pre as [| q pre IH]; intros s Hu Hsafe Hp.
  - cbn [app MportListAll.each_package flat_map]. rewrite Hu.
    rewrite (bind_halt _ _ _ _ _ (print_package_reads_null f p s Hp)).
    now rewrite after_no_lines.
  - cbn [app MportListAll.each_package flat_map]. rewrite Hu.
    rewrite (bind_ret _ _ _ _ _
               (print_package_lines f q s (Hsafe q (or_introl eq_refl)))).
    rewrite IH; [| exact Hu | intros x Hx; apply Hsafe; now right | exact Hp].
    now rewrite after_lines_app.
Qed.

Lemma main_lists f (s : state (Out World)) packs :
  MportList.f_update f = false ->
  mport_pkgmeta_list (fst (world s)) = (MPORT_OK, Some packs) ->
  MportListAll.main f s
  = (MportListAll.each_package f packs (mport_get_osrelease (fst (world s))) ;;
     ret 0) s.
Proof.
  intros Hu Hlist. unfold MportListAll.main.
  unfold bind at 1. unfold ask at 1. rewrite Hu.
  unfold bind at 1. unfold ret at 1.
  unfold bind at 1. unfold ask.
  change (@mport_pkgmeta_list (Out World) out_lib (world s))
    with (mport_pkgmeta_list (fst (world s))).
  rewrite Hlist.
  change (@MPORT_OK (Out World) out_lib) with MPORT_OK.
  rewrite Z.eqb_refl. cbn [negb]. reflexivity.
Qed.

(** Outside the update listing: the lines of the packages, one package
    after the other, and the result 0. *)
Lemma main_lines f (s : state (Out World)) packs :
  MportList.f_update f = false ->
  (forall p, In p packs -> reads_null f p = false) ->
  mport_pkgmeta_list (fst (world s)) = (MPORT_OK, Some packs) ->
  MportListAll.main f s
  = Ret 0 (after_lines s (flat_map (lines_of f) packs)).
Proof.
  intros Hu Hsafe Hlist. rewrite (main_lists f s packs Hu Hlist).
  unfold bind. now rewrite each_package_lines.
Qed.

Lemma flat_map_singletons {A B} (g : A -> list B) (h : A -> B) l :
  (forall a, In a l -> g a = [h a]) -> flat_map g l = map h l.
Proof.
  induction l as [| a l IH]; intros H; simpl; [reflexivity |].
  rewrite (H a) by now left. simpl. f_equal. apply IH.
  intros b Hb. apply H. now right.
Qed.

(** X12: outside the update listing, every installed package gets
    exactly one entry, the output of one [printf] (a line; with -o
    alone a block of five lines), unless the listing of the locked
    packages is what is asked for, that is -l without -v, -q and -o.
    This is so for the packages whose origin is not read through a NULL
    pointer. *)
Theorem list_one_line_each f (s : state (Out World)) packs :
  MportList.f_update f = false ->
  MportList.f_verbose f || MportList.f_quiet f || MportList.f_origin f
  || negb (MportList.f_locks f) = true ->
  (forall p, In p packs -> reads_null f p = false) ->
  mport_pkgmeta_list (fst (world s)) = (MPORT_OK, Some packs) ->
  exists ls,
    MportListAll.main f s = Ret 0 (after_lines s ls)
    /\ List.length ls = List.length packs.
Proof.
  intros Hu Hmode Hsafe Hlist. eexists.
  split; [exact (main_lines f s packs Hu Hsafe Hlist) |].
  rewrite (flat_map_singletons (lines_of f)
             (fun p => hd MirrorHowTo (lines_of f p))).
  - apply length_map.
  - intros p Hp. specialize (Hsafe p Hp). revert Hsafe.
    unfold lines_of, reads_null.
    destruct (MportList.f_verbose f); [reflexivity |].
    destruct (MportList.f_prime f && (automatic p =? 0)); [reflexivity |].
    destruct (MportList.f_quiet f), (MportList.f_origin f);
      try reflexivity.
    + simpl. destruct (origin p); [reflexivity | discriminate].
    + destruct (MportList.f_locks f); [discriminate | reflexivity].
Qed.

(** X25: with -q and -o, and without -v, the listing prints the
    origins of the packages, one on a line, up to the first package
    that has no origin; there the call that prints the origin reads a
    NULL pointer, and nothing is listed behind it.  (With -p the
    packages installed on request are listed by name and pass.) *)
Theorem list_quiet_origin_reads_null f (s : state (Out World)) pre p post :
  MportList.f_update f = false ->
  (forall q, In q pre -> reads_null f q = false) ->
  reads_null f p = true ->
  mport_pkgmeta_list (fst (world s)) = (MPORT_OK, Some (pre ++ p :: post)) ->
  MportListAll.main f s
  = Halt NullDeref (after_lines s (flat_map (lines_of f) pre))
  /\ (MportList.f_prime f = false ->
      flat_map (lines_of f) pre
      = flat_map (fun q => match origin q with
                           | Some o => [ListOrigin o]
                           | None => []
                           end) pre
      /\ Forall (fun q => origin q <> None) pre).
Proof.
  intros Hu Hsafe Hp Hlist. split.
  - rewrite (main_lists f s _ Hu Hlist).
    apply bind_halt. now apply each_package_reads_null.
  - intros Hprime. unfold reads_null in Hp. rewrite Hprime in Hp.
    simpl in Hp.
    destruct (MportList.f_verbose f) eqn:Hv; [discriminate |].
    destruct (MportList.f_quiet f) eqn:Hq; [| discriminate].
    destruct (MportList.f_origin f) eqn:Ho; [| discriminate].
    clear Hlist. induction pre as [| q pre IH]; [split; constructor |].
    destruct IH as [IH1 IH2]; [intros x Hx; apply Hsafe; now right |].
    pose proof (Hsafe q (or_introl eq_refl)) as Hq0.
    unfold reads_null in Hq0. rewrite Hv, Hq, Ho, Hprime in Hq0.
    simpl in Hq0.
    split.
    + cbn [flat_map]. rewrite IH1. f_equal.
      unfold lines_of. now rewrite Hv, Hq, Ho, Hprime.
    + constructor; [| exact IH2]. now destruct (origin q).
Qed.

(** X13: with -p alone, a package that was installed on request
    ([automatic] is 0) is listed by its name; a package that came in
    as a dependency is listed too, by name and version, because its
    case falls through to the last branch. *)
Theorem list_prime_lists_automatic_too f (s : state (Out World)) packs :
  MportList.f_update f = false -> MportList.f_verbose f = false ->
  MportList.f_quiet f = false -> MportList.f_origin f = false ->
  MportList.f_locks f = false -> MportList.f_prime f = true ->
  mport_pkgmeta_list (fst (world s)) = (MPORT_OK, Some packs) ->
  MportListAll.main f s
  = Ret 0 (after_lines s
             (map (fun p => if automatic p =? 0 then ListName (name p)
                            else ListNameVersion (name p) (version p))
                packs)).
Proof.
  intros Hu Hv Hq Ho Hl Hp Hlist.
  rewrite (main_lines f s packs Hu (fun p _ => reads_null_quiet f p Hq) Hlist).
  do 2 f_equal. apply flat_map_singletons. intros p _.
  unfold lines_of. rewrite Hv, Hq, Ho, Hl, Hp. simpl.
  now destruct (automatic p =? 0).
Qed.

(** X14: with -l alone, the packages whose [locked] is 1 are listed by
    name and version, in their order, and no other package. *)
Theorem list_locks_lists_locked f (s : state (Out World)) packs :
  MportList.f_update f = false -> MportList.f_verbose f = false ->
  MportList.f_quiet f = false -> MportList.f_origin f = false ->
  MportList.f_prime f = false -> MportList.f_locks f = true ->
  mport_pkgmeta_list (fst (world s)) = (MPORT_OK, Some packs) ->
  MportListAll.main f s
  = Ret 0 (after_lines s
             (map (fun p => ListNameVersion (name p) (version p))
                (filter (fun p => locked p =? 1) packs))).
Proof.
  intros Hu Hv Hq Ho Hp Hl Hlist.
  rewrite (main_lines f s packs Hu (fun p _ => reads_null_quiet f p Hq) Hlist).
  do 2 f_equal. clear Hlist.
  induction packs as [| p rest IH]; [reflexivity |].
  cbn [flat_map filter]. unfold lines_of at 1.
  rewrite Hv, Hq, Ho, Hl, Hp. simpl.
  destruct (locked p =? 1); simpl; now rewrite IH.
Qed.

Lemma substring_prefix s : forall n, String.prefix (substring 0 n s) s = true.
Proof.
  induction s as [| c s IH]; intros [| n]; simpl; try reflexivity.
  destruct (ascii_dec c c) as [_ | Hc]; [apply IH | now elim Hc].
Qed.

Lemma substring_length s : forall n,
  (String.length (substring 0 n s) <= n)%nat.
Proof.
  induction s as [| c s IH]; intros [| n]; simpl; try lia.
  specialize (IH n). lia.
Qed.

(** X15: with -v, every installed package gets one line: at most the
    first 29 characters of its name, a dash and its version, then its
    OS release, then its comment without any backslash. *)
Theorem list_verbose_lines f (s : state (Out World)) packs :
  MportList.f_update f = false -> MportList.f_verbose f = true ->
  (forall p, In p packs -> comment_is_c_string p) ->
  mport_pkgmeta_list (fst (world s)) = (MPORT_OK, Some packs) ->
  MportListAll.main f s = Ret 0 (after_lines s (map verbose_line packs))
  /\ forall p,
       (String.length (MportListAll.name_version p) <= 29)%nat
       /\ String.prefix (MportListAll.name_version p)
            (name p ++ "-" ++ shown (version p))%string = true.
Proof.
  intros Hu Hv Hc Hlist. split.
  - rewrite (main_lines f s packs Hu
               (fun p _ => reads_null_verbose f p Hv) Hlist).
    do 2 f_equal.
    apply flat_map_singletons. intros p Hp. unfold lines_of. rewrite Hv.
    unfold verbose_line. do 2 f_equal.
    destruct (comment p) as [str |] eqn:E; [| reflexivity].
    apply str_remove_string_removes. now apply (Hc p Hp).
  - intros p. split; [apply substring_length | apply substring_prefix].
Qed.

Lemma bind_unit_ret {W B} (m : M W unit) (k : unit -> M W B) s :
  bind (bind m (fun _ => ret tt)) k s = bind m k s.
Proof. unfold bind, ret. now destruct (m s) as [[] s' | h s']. Qed.

Lemma each_package_update f os' packs : forall (s : state (Out World)),
  MportList.f_update f = true ->
  MportListAll.each_package f packs os' s
  = MportList.each_package (lib := out_lib) f packs os' s.
Proof.
  induction packs as [| p rest IH]; intros s Hu; [reflexivity |].
  cbn [MportListAll.each_package MportList.each_package]. rewrite Hu.
  rewrite bind_unit_ret. unfold bind.
  match goal with |- match ?m with _ => _ end = _ => destruct m end;
    [now apply IH | reflexivity].
Qed.

Lemma bind_same {W A B} (m : M W A) (k1 k2 : A -> M W B) s :
  (forall a s', k1 a s' = k2 a s') -> bind m k1 s = bind m k2 s.
Proof. intros H. unfold bind. destruct (m s); [apply H | reflexivity]. Qed.

(** With -u, [main] in every mode is the [main] of the update listing. *)
Lemma main_all_update f (s : state (Out World)) :
  MportList.f_update f = true ->
  MportListAll.main f s = MportList.main (lib := out_lib) f s.
Proof.
  intros Hu. unfold MportListAll.main, MportList.main.
  apply bind_same. intros os' s1. apply bind_same. intros _ s2.
  apply bind_same. intros [r [packs |]] s3; [| reflexivity].
  destruct (negb (r =? MPORT_OK)); [reflexivity |].
  unfold bind. now rewrite each_package_update.
Qed.
End ListingFacts.

(** ** search, lock, unlock, cpe and verify *)

Section MoreCommands.
Context {World : Type} {lib : Libmport World} {more : LibmportMore World}.

Lemma print_hits_run entries : forall (s : state (Out World)),
  MportMore.print_hits entries s
  = Ret tt
      (after_lines s
         (map (fun e => SearchHit (pkgname e) (ie_version e) (ie_comment e))
            entries)).
Proof.
  induction entries as [| e rest IH]; intros s.
  - simpl. unfold ret. now rewrite after_no_lines.
  - cbn [MportMore.print_hits map]. unfold bind, say at 1.
    rewrite IH. f_equal. apply (after_lines_app s [_]).
Qed.

Lemma search_terms_run terms terminated : forall (s : state (Out World)),
  MportMore.search_terms terms terminated s
  = (if terminated then Ret tt else Halt OutOfBounds)
      (after_lines s (flat_map (hits (fst (world s))) terms)).
Proof.
  induction terms as [| term rest IH]; intros s.
  - simpl. rewrite after_no_lines. now destruct terminated.
  - cbn [MportMore.search_terms flat_map]. unfold bind at 1, askw, ask.
    unfold hits at 1. cbv beta. unfold Out.
    destruct (mport_index_search _ term) as [[| e es] |].
    + apply IH.
    + unfold bind. rewrite print_hits_run, IH.
      now rewrite after_lines_app.
    + apply IH.
Qed.

(** On a vector that ends with a terminator, [search] returns 0, found
    something or not, and prints for each term in turn the entries that
    the index search finds for it. *)
Lemma search_prints_hits term terms (s : state (Out World)) :
  MportMore.search (Some (term :: terms)) true s
  = Ret 0 (after_lines s (flat_map (hits (fst (world s))) (term :: terms))).
Proof.
  unfold MportMore.search, bind. now rewrite search_terms_run.
Qed.

(** X16: the command search with one term or more prints for each
    term in turn the entries that the index search finds for it, none
    for a term without entries, and then, in the test of its loop,
    reads the slot behind the last term.  [main] has filled every slot
    of the vector with a term, so that read is behind the end of the
    vector: from there on the run is undefined, and [search] has not
    returned. *)
Theorem main_search_reads_behind_vector fuel term terms
    (s s0 : state (Out World)) :
  Mport.loadIndex (lib := out_lib) s = Ret tt s0 ->
  MportMore.main fuel ("search"%string :: term :: terms) s
  = Halt OutOfBounds
      (after_lines s0 (flat_map (hits (fst (world s0))) (term :: terms))).
Proof.
  intros Hload. unfold MportMore.main. cbn -[MportMore.search Mport.loadIndex].
  rewrite (bind_ret _ _ _ _ _ Hload).
  apply bind_halt. unfold MportMore.search. apply bind_halt.
  apply (search_terms_run (term :: terms) false).
Qed.

Lemma print_cpes_run packs : forall cpe_total (s : state (Out World)),
  MportMore.print_cpes packs cpe_total s
  = Ret (cpe_total + Z.of_nat (List.length (cpes packs)))
        (after_lines s (map Cpe (cpes packs))).
Proof.
  induction packs as [| p rest IH]; intros n s.
  - simpl. unfold ret. now rewrite after_no_lines, Z.add_0_r.
  - cbn [MportMore.print_cpes]. unfold cpes. cbn [flat_map].
    fold (cpes rest). destruct (cpe p) as [[| a c] |].
    + simpl. apply IH.
    + cbn [String.length]. 
      replace (0 <? Z.of_nat (S (String.length c))) with true
        by (symmetry; apply Z.ltb_lt; lia).
      unfold bind, say at 1. rewrite IH. cbn [app map List.length].
      f_equal; [lia | apply (after_lines_app s [_])].
    + simpl. apply IH.
Qed.

(** X17: when some installed package has a CPE string that is not
    empty, [cpeList] prints these strings, in the order of the packages,
    and returns 0. *)
Theorem cpeList_prints_cpes (s : state (Out World)) packs :
  mport_pkgmeta_list (fst (world s)) = (MPORT_OK, Some packs) ->
  cpes packs <> [] ->
  MportMore.cpeList s = Ret 0 (after_lines s (map Cpe (cpes packs))).
Proof.
  intros Hlist Hsome. unfold MportMore.cpeList.
  unfold bind at 1, ask.
  change (@mport_pkgmeta_list (Out World) out_lib (world s))
    with (mport_pkgmeta_list (fst (world s))).
  rewrite Hlist. change (@MPORT_OK (Out World) out_lib) with MPORT_OK.
  rewrite Z.eqb_refl. cbn [negb]. unfold bind. rewrite print_cpes_run.
  destruct (cpes packs) as [| c cs]; [now elim Hsome |].
  cbn [List.length].
  replace (0 + Z.of_nat (S (List.length cs)) =? 0) with false
    by (symmetry; apply Z.eqb_neq; lia).
  reflexivity.
Qed.

(** X18: when no installed package has a CPE string that is not empty,
    [cpeList] does not return: the process ends there with the status
    EX_SOFTWARE. *)
Theorem cpeList_exits_without_cpes (s : state (Out World)) packs :
  mport_pkgmeta_list (fst (world s)) = (MPORT_OK, Some packs) ->
  cpes packs = [] ->
  MportMore.cpeList s
  = Halt (Exited EX_SOFTWARE) (after_lines s [NoCpeInformation]).
Proof.
  intros Hlist Hnone. unfold MportMore.cpeList.
  unfold bind at 1, ask.
  change (@mport_pkgmeta_list (Out World) out_lib (world s))
    with (mport_pkgmeta_list (fst (world s))).
  rewrite Hlist. change (@MPORT_OK (Out World) out_lib) with MPORT_OK.
  rewrite Z.eqb_refl. cbn [negb]. unfold bind. rewrite print_cpes_run.
  rewrite Hnone. cbn [List.length map Z.of_nat Z.add Z.eqb].
  now rewrite after_no_lines.
Qed.

Lemma verify_each_run packs : forall total (s : state (Out World)),
  MportMore.verify_each packs total s
  = Ret (total + Z.of_nat (List.length packs))
        (with_world s (verified (fst (world s)) packs)).
Proof.
  induction packs as [| p rest IH]; intros n s.
  - simpl. unfold ret. rewrite Z.add_0_r. now destruct s as [[w o] i t].
  - cbn [MportMore.verify_each]. unfold bind, callw, call.
    unfold verified. cbn [fold_left]. fold (verified (World := World)).
    unfold Out.
    destruct (mport_verify_package _ p) as [r w1].
    rewrite IH. cbn [List.length]. f_equal. lia.
Qed.

(** X19: [verify] passes every installed package to the verification,
    in order, prints their number and returns 0, whatever the
    verifications answer. *)
Theorem verify_counts_every_package (s : state (Out World)) packs :
  mport_pkgmeta_list (fst (world s)) = (MPORT_OK, Some packs) ->
  MportMore.verify s
  = Ret 0
      (after_lines (with_world s (verified (fst (world s)) packs))
         [PackagesVerified (Z.of_nat (List.length packs))]).
Proof.
  intros Hlist. unfold MportMore.verify.
  unfold bind at 1, ask.
  change (@mport_pkgmeta_list (Out World) out_lib (world s))
    with (mport_pkgmeta_list (fst (world s))).
  rewrite Hlist. change (@MPORT_OK (Out World) out_lib) with MPORT_OK.
  rewrite Z.eqb_refl. cbn [negb]. unfold bind. now rewrite verify_each_run.
Qed.

Lemma lock_with_returns change packageName (s : state (Out World)) :
  exists r s', MportMore.lock_with change packageName s = Ret r s'.
Proof.
  unfold MportMore.lock_with. destruct packageName as [n |];
    [| now eexists _, _].
  unfold bind at 1, askw, ask. cbv beta.
  destruct (mport_pkgmeta_search_master _ n) as [r [packs |]].
  - destruct (negb (r =? MPORT_OK)); [now eexists _, _ |].
    unfold bind, callw, call.
    destruct (change _ _). now eexists _, _.
  - destruct (negb (r =? MPORT_OK)); now eexists _, _.
Qed.

(** X20: the commands lock and unlock end the process with the status
    MPORT_ERR_FATAL in every case: what [lock] and [unlock] return is
    not used. *)
Theorem main_lock_exits_fatal fuel cmd a rest (s : state (Out World)) :
  cmd = "lock"%string \/ cmd = "unlock"%string ->
  exists s',
    MportMore.main fuel (cmd :: a :: rest) s
    = Halt (Exited MPORT_ERR_FATAL) s'.
Proof.
  intros [-> | ->]; unfold MportMore.main; cbn -[MportMore.lock_with];
    unfold bind.
  - destruct (lock_with_returns mport_lock_lock (Some a) s) as (r & s' & E).
    unfold MportMore.lock. rewrite E. now exists s'.
  - destruct (lock_with_returns mport_lock_unlock (Some a) s)
      as (r & s' & E).
    unfold MportMore.unlock. rewrite E. now exists s'.
Qed.

(** X21: when the search for the name finds installed packages, [lock]
    locks the first of them and no other, writes nothing and returns 0,
    whatever the locking answers. *)
Theorem lock_locks_first_match a packs (s : state (Out World)) :
  mport_pkgmeta_search_master (fst (world s)) a = (MPORT_OK, Some packs) ->
  MportMore.lock (Some a) s
  = Ret 0
      (with_world s (snd (mport_lock_lock (fst (world s)) (hd_error packs)))).
Proof.
  intros Hfound. unfold MportMore.lock, MportMore.lock_with.
  unfold bind at 1, askw, ask. cbv beta. unfold Out in *. rewrite Hfound.
  rewrite Z.eqb_refl. cbn [negb]. unfold bind, callw, call, with_world.
  now destruct (mport_lock_lock _ (hd_error packs)).
Qed.

(** X22: the command mirror does something only when at least two
    words follow it and the first is "list".  Otherwise, "mirror list"
    alone included, it loads no index and prints nothing, and the
    process ends with the status MPORT_ERR_FATAL. *)
Theorem main_mirror_needs_two_words fuel args (s : state (Out World)) :
  (List.length args < 2)%nat \/ hd_error args <> Some "list"%string ->
  MportMore.main fuel ("mirror"%string :: args) s
  = Halt (Exited MPORT_ERR_FATAL) s.
Proof.
  intros Hargs. destruct args as [| a [| b rest]]; [reflexivity .. |].
  destruct Hargs as [Hlen | Hword]; [simpl in Hlen; lia |].
  unfold MportMore.main. cbn -[String.eqb]. 
  change ("mirror" =? "lock")%string with false.
  change ("mirror" =? "unlock")%string with false.
  change ("mirror" =? "clean")%string with false.
  change ("mirror" =? "mirror")%string with true.
  destruct (a =? "list")%string eqn:E; [| reflexivity].
  apply String.eqb_eq in E. subst a. now elim Hword.
Qed.
End MoreCommands.

(** ** The further functions on the store *)

Section FurtherRuns.
Import Store Sample Faulty More.
#[local] Existing Instance more_lib.

Lemma str_remove_removes_witness :
  exists buf,
    str_remove (Some ["a"%char; backslash; "b"%char]) backslash = Some buf
    /\ List.length buf = 4%nat
    /\ c_string buf = without backslash ["a"%char; backslash; "b"%char]
    /\ ~ In backslash (c_string buf)
    /\ (~ In backslash ["a"%char; backslash; "b"%char] ->
        c_string buf = ["a"%char; backslash; "b"%char]).
Proof.
  apply (str_remove_removes ["a"%char; backslash; "b"%char] backslash).
  repeat constructor; discriminate.
Defined.

Lemma list_one_line_each_witness :
  exists ls,
    MportListAll.main plain_flags (start_out [vim; long_name; pinned] [])
    = Ret 0 (after_lines (start_out [vim; long_name; pinned] []) ls)
    /\ List.length ls = 3%nat.
Proof.
  apply (list_one_line_each plain_flags
           (start_out [vim; long_name; pinned] [])
           [meta vim; meta long_name; meta pinned]); reflexivity.
Defined.

Lemma list_prime_lists_automatic_too_witness :
  MportListAll.main prime_flags (start_out [vim; long_name] [])
  = Ret 0 (after_lines (start_out [vim; long_name] [])
             [ListName "vim";
              ListNameVersion "a-package-with-a-very-long-name"
                (Some "1.0"%string)]).
Proof.
  apply (list_prime_lists_automatic_too prime_flags
           (start_out [vim; long_name] []) [meta vim; meta long_name]);
    reflexivity.
Defined.

Lemma list_locks_lists_locked_witness :
  MportListAll.main locks_flags (start_out [vim; pinned; long_name] [])
  = Ret 0 (after_lines (start_out [vim; pinned; long_name] [])
             [ListNameVersion "pinned" (Some "1.0"%string)]).
Proof.
  apply (list_locks_lists_locked locks_flags
           (start_out [vim; pinned; long_name] [])
           [meta vim; meta pinned; meta long_name]); reflexivity.
Defined.

Lemma list_verbose_lines_witness :
  MportListAll.main verbose_flags (start_out [vim; long_name] [])
  = Ret 0 (after_lines (start_out [vim; long_name] [])
             [ListVerbose "vim-1.0" (Some "3.1"%string)
                (Some "Vi improved"%string);
              ListVerbose "a-package-with-a-very-long-na"
                (Some "3.1"%string) (Some "library"%string)])
  /\ forall p,
       (String.length (MportListAll.name_version p) <= 29)%nat
       /\ String.prefix (MportListAll.name_version p)
            (name p ++ "-" ++ shown (version p))%string = true.
Proof.
  apply (list_verbose_lines verbose_flags (start_out [vim; long_name] [])
           [meta vim; meta long_name]); try reflexivity.
  intros p [<- | [<- | []]] str E; injection E as <-;
    repeat constructor; discriminate.
Defined.

Lemma cpeList_prints_cpes_witness :
  MportMore.cpeList (start_out [B; A; vim] [])
  = Ret 0 (after_lines (start_out [B; A; vim] [])
             [Cpe "cpe:2.3:a:sample:a:1.0"]).
Proof.
  rewrite (cpeList_prints_cpes (start_out [B; A; vim] [])
             [meta B; meta A; meta vim]);
    [reflexivity | reflexivity | discriminate].
Defined.

Lemma cpeList_exits_without_cpes_witness :
  MportMore.cpeList (start_out [B; vim] [])
  = Halt (Exited EX_SOFTWARE)
      (after_lines (start_out [B; vim] []) [NoCpeInformation]).
Proof.
  apply (cpeList_exits_without_cpes (start_out [B; vim] [])
           [meta B; meta vim]); reflexivity.
Defined.

Lemma verify_counts_every_package_witness :
  MportMore.verify (start_out [A; pinned] [])
  = Ret 0 (after_lines (start_out [A; pinned] []) [PackagesVerified 2]).
Proof.
  rewrite (verify_counts_every_package (start_out [A; pinned] [])
             [meta A; meta pinned]); reflexivity.
Defined.

Lemma main_lock_exits_fatal_witness :
  exists s',
    MportMore.main 0 ["unlock"%string; "pinned"%string]
      (start_out [A; pinned] [])
    = Halt (Exited MPORT_ERR_FATAL) s'.
Proof.
  apply (main_lock_exits_fatal 0 "unlock"%string "pinned"%string []
           (start_out [A; pinned] [])).
  right. reflexivity.
Defined.

Lemma lock_locks_first_match_witness :
  MportMore.lock (Some "A"%string) (start_out [B; A] [])
  = Ret 0 (start_out [B; package "A" 1 []] []).
Proof.
  rewrite (lock_locks_first_match "A"%string [meta A]
             (start_out [B; A] [])); reflexivity.
Defined.

(** vim has an origin, A has none: the listing with -q -o prints the
    origin of vim and reads a NULL pointer at A; zsh is not reached. *)
Lemma list_quiet_origin_reads_null_witness :
  let s := start_out [ported "vim" "editors/vim"; A;
                      ported "zsh" "shells/zsh"] [] in
  MportListAll.main quiet_origin_flags s
  = Halt NullDeref (after_lines s [ListOrigin "editors/vim"]).
Proof.
  intros s.
  apply (proj1 (list_quiet_origin_reads_null quiet_origin_flags s
                  [meta (ported "vim" "editors/vim")] (meta A)
                  [meta (ported "zsh" "shells/zsh")]
                  eq_refl
                  ltac:(intros q [<- | []]; reflexivity)
                  eq_refl eq_refl)).
Defined.

(** Two terms: the entries for "fo" are printed, "zz" finds nothing,
    and the loop reads behind the second slot. *)
Lemma main_search_reads_behind_vector_witness :
  let s := start_out [] [foo_1_2; foo_1_3] in
  MportMore.main 0 ["search"%string; "fo"%string; "zz"%string] s
  = Halt OutOfBounds
      (after_lines s [SearchHit "foo" (Some "1.2"%string) None;
                      SearchHit "foo" (Some "1.3"%string) None]).
Proof.
  intros s.
  rewrite (main_search_reads_behind_vector 0 "fo"%string ["zz"%string] s s);
    reflexivity.
Defined.

Lemma main_mirror_needs_two_words_witness :
  MportMore.main 0 ["mirror"%string; "list"%string]
    (start_out [A] [foo_1_2])
  = Halt (Exited MPORT_ERR_FATAL) (start_out [A] [foo_1_2]).
Proof.
  apply (main_mirror_needs_two_words 0 ["list"%string]
           (start_out [A] [foo_1_2])).
  left. simpl. lia.
Defined.
End FurtherRuns.
